(** * The Scrolls of Skelos: a shallow embedding of the note store

    The program keeps one in-memory collection of notes ([NotesApp]),
    rewrites one JSON document on every mutation and talks to its user
    through a line-oriented prompt.  This file embeds the store operations
    of the Go source and proves or refutes the properties stated for them.

    Conventions of the embedding:
    - a Go [string] is a byte string ([string], one [ascii] per byte);
    - a Go [int] is a [Z] in the 64-bit two's-complement range, with the
      wrap-around of [++] written out ([wrap_int]);
    - a [time.Time] is the instant it denotes, a [Z] counting nanoseconds
      from the zero Time;
    - a slice is a [list]; the nil slice and the empty slice are identified;
    - standard input, standard output, the clock, the screen-capture tool and
      the file system form an explicit [World] threaded through every
      operation; so do the case tables of package [unicode], which belong
      to the Go release and not to the sources. *)

From Stdlib Require Import ZArith NArith List Ascii String Bool Lia Permutation
  Sorted DecimalString DecimalPos.
From stdpp Require Import base strings gmap.

Set Warnings "-register-all".
Local Open Scope Z_scope.

(** ** Package [unicode/utf8] *)

Module Utf8.

Local Open Scope N_scope.

Definition code (c : ascii) : N := N_of_ascii c.
Definition byte (n : N) : ascii := ascii_of_N n.

(** U+FFFD, the replacement character, and U+10FFFF. *)
Definition RuneError : N := 65533.
Definition MaxRune : N := 1114111.

(** A Unicode scalar value: at most [MaxRune] and no surrogate. *)
Definition ValidRune (r : N) : bool :=
  (r <=? MaxRune) && negb ((55296 <=? r) && (r <=? 57343)).

(** The table [first], for a byte above ASCII: the length of the sequence
    the byte begins and the range its second byte must lie in; [None] for
    a byte that begins no sequence. *)
Definition first (s0 : N) : option (nat * N * N) :=
  if s0 <? 194 then None
  else if s0 <=? 223 then Some (2%nat, 128, 191)
  else if s0 =? 224 then Some (3%nat, 160, 191)
  else if s0 <=? 236 then Some (3%nat, 128, 191)
  else if s0 =? 237 then Some (3%nat, 128, 159)
  else if s0 <=? 239 then Some (3%nat, 128, 191)
  else if s0 =? 240 then Some (4%nat, 144, 191)
  else if s0 <=? 243 then Some (4%nat, 128, 191)
  else if s0 =? 244 then Some (4%nat, 128, 143)
  else None.

Definition byteAt (k : nat) (l : list ascii) : N := code (nth k l zero).

(** A continuation byte. *)
Definition isCont (c : ascii) : bool := (128 <=? code c) && (code c <=? 191).

(** [utf8.DecodeRuneInString]: the first rune and its width in bytes;
    [(RuneError, 1)] when the bytes begin with no well-formed sequence. *)
Definition DecodeRune (l : list ascii) : N * nat :=
  match l with
  | [] => (RuneError, 0%nat)
  | a :: _ =>
      let s0 := code a in
      if s0 <? 128 then (s0, 1%nat) else
      match first s0 with
      | None => (RuneError, 1%nat)
      | Some (sz, lo, hi) =>
          if (length l <? sz)%nat then (RuneError, 1%nat) else
          let s1 := byteAt 1 l in
          if (s1 <? lo) || (hi <? s1) then (RuneError, 1%nat) else
          if (sz <=? 2)%nat then (s0 mod 32 * 64 + s1 mod 64, 2%nat) else
          let s2 := byteAt 2 l in
          if (s2 <? 128) || (191 <? s2) then (RuneError, 1%nat) else
          if (sz <=? 3)%nat
          then (s0 mod 16 * 4096 + s1 mod 64 * 64 + s2 mod 64, 3%nat) else
          let s3 := byteAt 3 l in
          if (s3 <? 128) || (191 <? s3) then (RuneError, 1%nat) else
          (s0 mod 8 * 262144 + s1 mod 64 * 4096 + s2 mod 64 * 64 + s3 mod 64,
           4%nat)
      end
  end.

(** [utf8.AppendRune]: a rune that is no scalar value is written as
    [RuneError]. *)
Definition EncodeRune (r : N) : list ascii :=
  if r <=? 127 then [byte r]
  else if r <=? 2047 then [byte (192 + r / 64); byte (128 + r mod 64)]
  else
    let r := if ValidRune r then r else RuneError in
    if r <=? 65535
    then [byte (224 + r / 4096); byte (128 + r / 64 mod 64); byte (128 + r mod 64)]
    else [byte (240 + r / 262144); byte (128 + r / 4096 mod 64);
          byte (128 + r / 64 mod 64); byte (128 + r mod 64)].

(** The runes of a byte sequence with the bytes of each, as
    [for _, r := range s] steps through them. *)
Fixpoint chunksFrom (fuel : nat) (l : list ascii) : list (N * list ascii) :=
  match fuel, l with
  | S fuel', _ :: _ =>
      let '(r, size) := DecodeRune l in
      (r, take size l) :: chunksFrom fuel' (drop size l)
  | _, _ => []
  end.

Definition chunks (l : list ascii) : list (N * list ascii) :=
  chunksFrom (length l) l.

Definition runes (l : list ascii) : list N := map fst (chunks l).

(** A byte that begins no well-formed sequence. *)
Definition stray (c : N * list ascii) : bool :=
  (fst c =? RuneError) && (length (snd c) =? 1)%nat.

(** [utf8.ValidString]. *)
Definition Valid (l : list ascii) : bool := forallb (fun c => negb (stray c)) (chunks l).

Definition encodeAll (rs : list N) : list ascii := concat (map EncodeRune rs).

(** The bytes with U+FFFD in the place of every stray byte. *)
Definition coerce (l : list ascii) : list ascii :=
  concat (map (fun c => if stray c then EncodeRune RuneError else snd c) (chunks l)).

End Utf8.

(** ** Package [strings], as far as the program uses it *)

Module Strings.

Definition bytes (s : string) : list ascii := list_ascii_of_string s.
Definition of_bytes (l : list ascii) : string := string_of_list_ascii l.

Definition code (c : ascii) : N := N_of_ascii c.

(** The six ASCII code points of [unicode.IsSpace]:
    ['\t'], ['\n'], ['\v'], ['\f'], ['\r'] and [' ']. *)
Definition isSpace1 (a : ascii) : bool :=
  let n := code a in ((9 <=? n) && (n <=? 13) || (n =? 32))%N.

(** U+0085 and U+00A0, in UTF-8. *)
Definition isSpace2 (a b : ascii) : bool :=
  ((code a =? 194) && ((code b =? 133) || (code b =? 160)))%N.

(** U+1680, U+2000..U+200A, U+2028, U+2029, U+202F, U+205F and U+3000,
    in UTF-8. *)
Definition isSpace3 (a b c : ascii) : bool :=
  let x := code a in let y := code b in let z := code c in
  ((x =? 225) && (y =? 154) && (z =? 128)
   || (x =? 226) && (y =? 128)
      && ((128 <=? z) && (z <=? 138) || (z =? 168) || (z =? 169) || (z =? 175))
   || (x =? 226) && (y =? 129) && (z =? 159)
   || (x =? 227) && (y =? 128) && (z =? 128))%N.

(** Drop the white-space runes at the front of a byte sequence. *)
Fixpoint trimLeft (l : list ascii) : list ascii :=
  match l with
  | [] => []
  | a :: r1 =>
      if isSpace1 a then trimLeft r1 else
      match r1 with
      | [] => l
      | b :: r2 =>
          if isSpace2 a b then trimLeft r2 else
          match r2 with
          | [] => l
          | c :: r3 => if isSpace3 a b c then trimLeft r3 else l
          end
      end
  end.

(** The same from the back; the argument is the reversed byte sequence. *)
Fixpoint trimRightRev (l : list ascii) : list ascii :=
  match l with
  | [] => []
  | a :: r1 =>
      if isSpace1 a then trimRightRev r1 else
      match r1 with
      | [] => l
      | b :: r2 =>
          if isSpace2 b a then trimRightRev r2 else
          match r2 with
          | [] => l
          | c :: r3 => if isSpace3 c b a then trimRightRev r3 else l
          end
      end
  end.

(** [strings.TrimSpace]. *)
Definition TrimSpace (s : string) : string :=
  of_bytes (rev (trimRightRev (rev (trimLeft (bytes s))))).

(** ['A'..'Z'] to ['a'..'z']; every other byte is kept. *)
Definition lowerByte (c : ascii) : ascii :=
  let n := code c in
  if ((65 <=? n) && (n <=? 90))%N then ascii_of_N (n + 32) else c.

(** [unicode.ToLower]: the ASCII letters are handled on the spot, every
    other rune is looked up in the case tables of package [unicode].  The
    tables belong to the Go release the program is built with and are not
    part of the sources: [table] stands for the lookup
    [unicode.To(unicode.LowerCase, r)]. *)
Definition toLowerRune (table : N -> N) (r : N) : N :=
  if (r <=? 127)%N
  then (if ((65 <=? r) && (r <=? 90))%N then r + 32 else r)%N
  else table r.

(** [strings.Map(mapping, s)] for a mapping that drops no rune: every
    rune of [s] is replaced by its image, a byte that begins no rune
    counting as U+FFFD.  (Where the mapping changes nothing the library
    returns [s] itself, which is the same bytes.) *)
Definition Map (mapping : N -> N) (s : string) : string :=
  of_bytes (Utf8.encodeAll (map mapping (Utf8.runes (bytes s)))).

(** [strings.ToLower]: bytes are mapped when the string is ASCII, runes
    otherwise. *)
Definition ToLower (table : N -> N) (s : string) : string :=
  let isASCII := forallb (fun c => (code c <? 128)%N) (bytes s) in
  let hasUpper :=
    existsb (fun c => ((65 <=? code c) && (code c <=? 90))%N) (bytes s) in
  if isASCII
  then (if hasUpper then of_bytes (map lowerByte (bytes s)) else s)
  else Map (toLowerRune table) s.

Fixpoint hasPrefix (l p : list ascii) {struct p} : bool :=
  match p, l with
  | [], _ => true
  | _ :: _, [] => false
  | x :: p', y :: l' => Ascii.eqb x y && hasPrefix l' p'
  end.

Fixpoint containsBytes (l p : list ascii) : bool :=
  hasPrefix l p ||
  match l with
  | [] => false
  | _ :: l' => containsBytes l' p
  end.

(** [strings.Contains]. *)
Definition Contains (s substr : string) : bool :=
  containsBytes (bytes s) (bytes substr).

Fixpoint splitBytes (sep : ascii) (l : list ascii) : list (list ascii) :=
  match l with
  | [] => [[]]
  | a :: r =>
      if Ascii.eqb a sep then [] :: splitBytes sep r
      else match splitBytes sep r with
           | h :: t => (a :: h) :: t
           | [] => [[a]]
           end
  end.

(** [strings.Split] for a one-byte separator (the program only splits
    at [","]). *)
Definition Split (s : string) (sep : ascii) : list string :=
  map of_bytes (splitBytes sep (bytes s)).

End Strings.

(** A line as [ReadString] returns it: the text and its newline. *)
Definition line (s : string) : string := s +:+ String (ascii_of_nat 10) EmptyString.

(** ** Data model *)

(** Go's [int] on the 64-bit platforms the program is built for. *)
Definition min_int : Z := - 2 ^ 63.
Definition max_int : Z := 2 ^ 63 - 1.
Definition in_int (z : Z) : bool := (min_int <=? z) && (z <=? max_int).
Definition wrap_int (z : Z) : Z := (z + 2 ^ 63) mod 2 ^ 64 - 2 ^ 63.

(** A [time.Time], as the instant it denotes; [0] is the zero Time.
    [t.After(u)] is [u < t]. *)
Definition time : Type := Z.
Definition After (t u : time) : bool := u <? t.

(** [type Note struct].  The field [Type] is written [Type_]. *)
Record Note : Type := mkNote {
  ID : Z;
  Title : string;
  Content : string;
  Tags : list string;
  CreatedAt : time;
  UpdatedAt : time;
  Type_ : string;          (* "text" or "screenshot" *)
  FilePath : string;
  Screenshot : string
}.

(** [type NotesApp struct]. *)
Record NotesApp : Type := mkApp {
  Notes : list Note;
  NextID : Z;
  NotesDir : string;
  ConfigFile : string
}.

(** The zero value of [Note]. *)
Definition zeroNote : Note :=
  mkNote 0 EmptyString EmptyString [] 0 0 EmptyString EmptyString EmptyString.

Definition set_Notes (l : list Note) (a : NotesApp) : NotesApp :=
  mkApp l (NextID a) (NotesDir a) (ConfigFile a).
Definition set_NextID (z : Z) (a : NotesApp) : NotesApp :=
  mkApp (Notes a) z (NotesDir a) (ConfigFile a).

Definition set_Title (s : string) (n : Note) : Note :=
  mkNote (ID n) s (Content n) (Tags n) (CreatedAt n) (UpdatedAt n)
         (Type_ n) (FilePath n) (Screenshot n).
Definition set_Content (s : string) (n : Note) : Note :=
  mkNote (ID n) (Title n) s (Tags n) (CreatedAt n) (UpdatedAt n)
         (Type_ n) (FilePath n) (Screenshot n).
Definition set_Tags (l : list string) (n : Note) : Note :=
  mkNote (ID n) (Title n) (Content n) l (CreatedAt n) (UpdatedAt n)
         (Type_ n) (FilePath n) (Screenshot n).
Definition set_UpdatedAt (t : time) (n : Note) : Note :=
  mkNote (ID n) (Title n) (Content n) (Tags n) (CreatedAt n) t
         (Type_ n) (FilePath n) (Screenshot n).
Definition set_FilePath (s : string) (n : Note) : Note :=
  mkNote (ID n) (Title n) (Content n) (Tags n) (CreatedAt n) (UpdatedAt n)
         (Type_ n) s (Screenshot n).
Definition set_Screenshot (s : string) (n : Note) : Note :=
  mkNote (ID n) (Title n) (Content n) (Tags n) (CreatedAt n) (UpdatedAt n)
         (Type_ n) (FilePath n) s.

(** ** Package [encoding/json], at the level of JSON values

    A document that is well-formed JSON text is represented by its value
    tree.  Integer literals are [JInt], every other number literal is
    [JFrac].  A string literal is [JStr], except that a literal which
    [Time.UnmarshalJSON] accepts is written [JTime t] at the positions
    where the program expects a timestamp, [t] being the instant it
    parses to (so [JStr] at such a position is a literal that the parser
    rejects, and [JTime] does not occur elsewhere).  A [JStr] holds the
    string its literal denotes, which is well-formed UTF-8: the printer
    writes [\ufffd] for a byte that begins no rune ([written]). *)

Module Json.

Inductive json : Type :=
| JNull
| JBool (b : bool)
| JInt (z : Z)
| JFrac
| JStr (s : string)
| JTime (t : time)
| JArr (l : list json)
| JObj (m : list (string * json)).

(** What became of one decoding step: nothing wrong, an
    [UnmarshalTypeError] was recorded and the value skipped (decoding
    goes on), or an error was returned at once (decoding stops). *)
Inductive derr : Type := NoErr | Saved | Abort.

Definition join (e1 e2 : derr) : derr :=
  match e2 with
  | Abort => Abort
  | Saved => Saved
  | NoErr => e1
  end.

Definition decInt (cur : Z) (j : json) : Z * derr :=
  match j with
  | JNull => (cur, NoErr)
  | JInt z => if in_int z then (z, NoErr) else (cur, Saved)
  | _ => (cur, Saved)
  end.

Definition decString (cur : string) (j : json) : string * derr :=
  match j with
  | JNull => (cur, NoErr)
  | JStr s => (s, NoErr)
  | _ => (cur, Saved)
  end.

(** [time.Time] has its own [UnmarshalJSON]: [null] is a no-op, and any
    failure is returned as an error, which stops the decoder. *)
Definition decTime (cur : time) (j : json) : time * derr :=
  match j with
  | JNull => (cur, NoErr)
  | JTime t => (t, NoErr)
  | _ => (cur, Abort)
  end.

(** A JSON array into a slice: element [i] is decoded into the element
    the slice already has at [i], or into a zero value; when the decoder
    stops inside element [i] the slice keeps its later elements.  (The
    slices of this program are empty when [Unmarshal] starts; memory
    between length and capacity is not modelled.) *)
Fixpoint decElems {A : Type} (zero : A) (dec : A -> json -> A * derr)
         (cur : list A) (l : list json) : list A * derr :=
  match l with
  | [] => ([], NoErr)
  | j :: l' =>
      let '(x, e) := dec (hd zero cur) j in
      match e with
      | Abort => (x :: tl cur, Abort)
      | _ => let '(xs, e') := decElems zero dec (tl cur) l' in
             (x :: xs, join e e')
      end
  end.

Definition decSlice {A : Type} (zero : A) (dec : A -> json -> A * derr)
           (cur : list A) (j : json) : list A * derr :=
  match j with
  | JNull => ([], NoErr)
  | JArr l => decElems zero dec cur l
  | _ => (cur, Saved)
  end.

(** The members of a JSON object, in document order. *)
Fixpoint decMembers {S : Type} (step : S -> string -> json -> S * derr)
         (cur : S) (m : list (string * json)) : S * derr :=
  match m with
  | [] => (cur, NoErr)
  | (k, v) :: m' =>
      let '(s1, e) := step cur k v in
      match e with
      | Abort => (s1, Abort)
      | _ => let '(s2, e') := decMembers step s1 m' in (s2, join e e')
      end
  end.

Definition decStruct {S : Type} (step : S -> string -> json -> S * derr)
           (cur : S) (j : json) : S * derr :=
  match j with
  | JNull => (cur, NoErr)
  | JObj m => decMembers step cur m
  | _ => (cur, Saved)
  end.

(** A key selects the field whose name it equals, and failing that the
    first field whose name it equals up to letter case. *)
Fixpoint findName {F : Type} (p : string -> bool) (tbl : list (string * F))
  : option F :=
  match tbl with
  | [] => None
  | (name, f) :: tbl' => if p name then Some f else findName p tbl'
  end.

(** [bytes.EqualFold(key, name)] for a field name of this program.  The
    names are ASCII, and the runes outside ASCII that simple case folding
    puts with an ASCII letter are U+017F (with [s]) and U+212A (with
    [k]). *)
Fixpoint equalFold (key name : list ascii) {struct key} : bool :=
  match key, name with
  | [], [] => true
  | k :: key1, c :: name' =>
      if (Strings.code k <? 128)%N
      then Ascii.eqb (Strings.lowerByte k) (Strings.lowerByte c)
           && equalFold key1 name'
      else
        match key1 with
        | [] => false
        | k1 :: key2 =>
            if ((Strings.code k =? 197) && (Strings.code k1 =? 191))%N
            then Ascii.eqb (Strings.lowerByte c) "s" && equalFold key2 name'
            else
              match key2 with
              | [] => false
              | k2 :: key3 =>
                  if ((Strings.code k =? 226) && (Strings.code k1 =? 132)
                      && (Strings.code k2 =? 170))%N
                  then Ascii.eqb (Strings.lowerByte c) "k"
                       && equalFold key3 name'
                  else false
              end
        end
  | _, _ => false
  end.

Definition foldEq (key name : string) : bool :=
  equalFold (Strings.bytes key) (Strings.bytes name).

(** The string that the literal written for [s] denotes: [s] with U+FFFD
    in the place of every byte that begins no rune. *)
Definition written (s : string) : string :=
  Strings.of_bytes (Utf8.coerce (Strings.bytes s)).

Definition lookupField {F : Type} (tbl : list (string * F)) (key : string)
  : option F :=
  match findName (String.eqb key) tbl with
  | Some f => Some f
  | None => findName (foldEq key) tbl
  end.

End Json.
Import Json.

(** ** The two structs as JSON *)

Definition set_ID (z : Z) (n : Note) : Note :=
  mkNote z (Title n) (Content n) (Tags n) (CreatedAt n) (UpdatedAt n)
         (Type_ n) (FilePath n) (Screenshot n).
Definition set_CreatedAt (t : time) (n : Note) : Note :=
  mkNote (ID n) (Title n) (Content n) (Tags n) t (UpdatedAt n)
         (Type_ n) (FilePath n) (Screenshot n).
Definition set_Type (s : string) (n : Note) : Note :=
  mkNote (ID n) (Title n) (Content n) (Tags n) (CreatedAt n) (UpdatedAt n)
         s (FilePath n) (Screenshot n).
Definition set_NotesDir (s : string) (a : NotesApp) : NotesApp :=
  mkApp (Notes a) (NextID a) s (ConfigFile a).
Definition set_ConfigFile (s : string) (a : NotesApp) : NotesApp :=
  mkApp (Notes a) (NextID a) (NotesDir a) s.

Inductive noteField : Type :=
  fID | fTitle | fContent | fTags | fCreatedAt | fUpdatedAt | fType
| fFilePath | fScreenshot.

(** The [json:"..."] tags of [Note], in declaration order. *)
Definition noteFields : list (string * noteField) :=
  [("id", fID); ("title", fTitle); ("content", fContent); ("tags", fTags);
   ("created_at", fCreatedAt); ("updated_at", fUpdatedAt); ("type", fType);
   ("file_path", fFilePath); ("screenshot", fScreenshot)].

Inductive appField : Type := aNotes | aNextID | aNotesDir | aConfigFile.

(** [NotesDir] and [ConfigFile] are exported and carry no tag: they are
    written to, and read from, the document under their own names. *)
Definition appFields : list (string * appField) :=
  [("notes", aNotes); ("next_id", aNextID); ("NotesDir", aNotesDir);
   ("ConfigFile", aConfigFile)].

Definition stepNote (n : Note) (key : string) (v : json) : Note * derr :=
  match lookupField noteFields key with
  | None => (n, NoErr)
  | Some fID => let '(z, e) := decInt (ID n) v in (set_ID z n, e)
  | Some fTitle => let '(s, e) := decString (Title n) v in (set_Title s n, e)
  | Some fContent => let '(s, e) := decString (Content n) v in (set_Content s n, e)
  | Some fTags =>
      let '(l, e) := decSlice EmptyString decString (Tags n) v in (set_Tags l n, e)
  | Some fCreatedAt => let '(t, e) := decTime (CreatedAt n) v in (set_CreatedAt t n, e)
  | Some fUpdatedAt => let '(t, e) := decTime (UpdatedAt n) v in (set_UpdatedAt t n, e)
  | Some fType => let '(s, e) := decString (Type_ n) v in (set_Type s n, e)
  | Some fFilePath => let '(s, e) := decString (FilePath n) v in (set_FilePath s n, e)
  | Some fScreenshot =>
      let '(s, e) := decString (Screenshot n) v in (set_Screenshot s n, e)
  end.

Definition decNote : Note -> json -> Note * derr := decStruct stepNote.

Definition stepApp (a : NotesApp) (key : string) (v : json) : NotesApp * derr :=
  match lookupField appFields key with
  | None => (a, NoErr)
  | Some aNotes =>
      let '(l, e) := decSlice zeroNote decNote (Notes a) v in (set_Notes l a, e)
  | Some aNextID => let '(z, e) := decInt (NextID a) v in (set_NextID z a, e)
  | Some aNotesDir => let '(s, e) := decString (NotesDir a) v in (set_NotesDir s a, e)
  | Some aConfigFile =>
      let '(s, e) := decString (ConfigFile a) v in (set_ConfigFile s a, e)
  end.

Definition isEmpty (s : string) : bool := String.eqb s EmptyString.

(** A nil slice prints as [null]; the tag slices of the program are nil
    when no tag was typed. *)
Definition encString (s : string) : json := JStr (written s).

Definition encTags (l : list string) : json :=
  match l with
  | [] => JNull
  | _ => JArr (map encString l)
  end.

(** [file_path] and [screenshot] are [omitempty]. *)
Definition encNote (n : Note) : json :=
  JObj ([("id", JInt (ID n)); ("title", encString (Title n));
         ("content", encString (Content n)); ("tags", encTags (Tags n));
         ("created_at", JTime (CreatedAt n)); ("updated_at", JTime (UpdatedAt n));
         ("type", encString (Type_ n))]
        ++ (if isEmpty (FilePath n) then []
            else [("file_path", encString (FilePath n))])
        ++ (if isEmpty (Screenshot n) then []
            else [("screenshot", encString (Screenshot n))])).

Definition encApp (a : NotesApp) : json :=
  JObj [("notes", JArr (map encNote (Notes a))); ("next_id", JInt (NextID a));
        ("NotesDir", encString (NotesDir a));
        ("ConfigFile", encString (ConfigFile a))].

(** What a file holds: bytes that are not a JSON text (a truncated or
    garbled document, an image), or a JSON text. *)
Inductive content : Type :=
| Malformed
| WellFormed (j : json).

(** [json.Unmarshal(data, app)]: a syntax error is found before anything is
    stored; otherwise the document is decoded into the fields of [app], and
    the boolean tells whether an error is returned. *)
Definition Unmarshal (data : content) (a : NotesApp) : NotesApp * bool :=
  match data with
  | Malformed => (a, true)
  | WellFormed j =>
      let '(a', e) := decStruct stepApp a j in
      (a', match e with NoErr => false | _ => true end)
  end.

(** [json.MarshalIndent(app, ...)]. *)
Definition MarshalIndent (a : NotesApp) : content := WellFormed (encApp a).

(** ** The world around the store *)

(** A file of the disk.  An unreadable file exists ([os.Stat] finds it) but
    [ioutil.ReadFile] fails on it. *)
Inductive file : Type :=
| Unreadable
| Readable (c : content).

(** One run of the external screen-capture tool: whether [cmd.Run] returned
    without error, and whether the tool left a file at the target path. *)
Record outcome : Type := mkOutcome { tool_ok : bool; tool_wrote : bool }.

(** What the program prints, one constructor per print statement of the
    embedded functions (a [Prompt] carries the fixed text of the question). *)
Inductive message : Type :=
| Prompt (text : string)
| ErrLoading | ErrParsing | ErrSaving
| Created (id : Z) (title : string)
| NotSupported | Capturing | ErrScreenshot | CaptureCancelled
| Captured (id : Z) (title : string)
| NoScrolls
| Listing (rows : list Note)
| NoMatch (query : string)
| Found (query : string) (rows : list Note)
| EditHeader (note : Note)
| CurrentContent (text : string)
| CurrentTags (tags : list string)
| Modified (id : Z)
| NotFound (id : Z)
| CurrentTitle (title : string)
| Retitled (id : Z) (title : string)
| TitleUnchanged
| NotCaptured (id : Z)
| AskDeleteOld (screenshot : string)
| RecaptureNotSupported | Recapturing | ErrRecapture | RecaptureCancelled
| WarnDeleteOld
| Recaptured (id : Z) (filename : string)
| EmptyQuery.

Record World : Type := mkWorld {
  stdin : list string;        (* the lines still to be read, newline included *)
  stdout : list message;      (* what was printed so far, oldest first *)
  clock : nat -> time;        (* the successive readings of [time.Now] *)
  ticks : nat;                (* how many readings were taken *)
  layout : time -> string;    (* [t.Format("20060102_150405")], local zone *)
  tool : list outcome;        (* the coming runs of the capture tool *)
  disk : gmap string file;
  writable : bool;            (* whether [ioutil.WriteFile] succeeds *)
  home : string;              (* [os.UserHomeDir()] *)
  GOOS : string;              (* [runtime.GOOS] *)
  lowerCase : N -> N          (* [unicode.To(unicode.LowerCase, r)] *)
}.

Definition set_stdin (l : list string) (w : World) : World :=
  mkWorld l (stdout w) (clock w) (ticks w) (layout w) (tool w) (disk w)
          (writable w) (home w) (GOOS w) (lowerCase w).
Definition set_stdout (l : list message) (w : World) : World :=
  mkWorld (stdin w) l (clock w) (ticks w) (layout w) (tool w) (disk w)
          (writable w) (home w) (GOOS w) (lowerCase w).
Definition set_ticks (n : nat) (w : World) : World :=
  mkWorld (stdin w) (stdout w) (clock w) n (layout w) (tool w) (disk w)
          (writable w) (home w) (GOOS w) (lowerCase w).
Definition set_tool (l : list outcome) (w : World) : World :=
  mkWorld (stdin w) (stdout w) (clock w) (ticks w) (layout w) l (disk w)
          (writable w) (home w) (GOOS w) (lowerCase w).
Definition set_disk (d : gmap string file) (w : World) : World :=
  mkWorld (stdin w) (stdout w) (clock w) (ticks w) (layout w) (tool w) d
          (writable w) (home w) (GOOS w) (lowerCase w).

(** ** A state monad over the store and the world *)

Definition M (A : Type) : Type := NotesApp * World -> A * (NotesApp * World).

Definition ret {A : Type} (x : A) : M A := fun s => (x, s).
Definition bind {A B : Type} (m : M A) (k : A -> M B) : M B :=
  fun s => let '(x, s') := m s in k x s'.

Notation "x <- c ;; k" := (bind c (fun x => k))
  (at level 100, c at next level, right associativity).
Notation "c ;; k" := (bind c (fun _ => k))
  (at level 100, right associativity).

Definition getApp : M NotesApp := fun s => (fst s, s).
Definition putApp (a : NotesApp) : M unit := fun s => (tt, (a, snd s)).
Definition getWorld : M World := fun s => (snd s, s).
Definition putWorld (w : World) : M unit := fun s => (tt, (fst s, w)).
Definition skip : M unit := ret tt.

(** The store and the world an operation leaves behind. *)
Definition app_after {A : Type} (m : M A) (a : NotesApp) (w : World) : NotesApp :=
  fst (snd (m (a, w))).
Definition world_after {A : Type} (m : M A) (a : NotesApp) (w : World) : World :=
  snd (snd (m (a, w))).

(** [reader.ReadString('\n')] with the error dropped: the next line, or
    the empty string at end of input.  The program makes a new reader of
    standard input in several functions; at a terminal, where a reader
    never holds more than the line it returns, they all read the one
    stream modelled here. *)
Definition ReadString : M string :=
  w <- getWorld ;;
  putWorld (set_stdin (tl (stdin w)) w) ;;
  ret (hd EmptyString (stdin w)).

(** [time.Now()]. *)
Definition Now : M time :=
  w <- getWorld ;;
  putWorld (set_ticks (S (ticks w)) w) ;;
  ret (clock w (ticks w)).

Definition Print (m : message) : M unit :=
  w <- getWorld ;; putWorld (set_stdout (stdout w ++ [m]) w).

(** [os.Stat(path)] followed by [os.IsNotExist(err)]. *)
Definition IsNotExist (path : string) : M bool :=
  w <- getWorld ;;
  ret (match disk w !! path with None => true | Some _ => false end).

(** [ioutil.ReadFile]: [None] when it returns an error. *)
Definition ReadFile (path : string) : M (option content) :=
  w <- getWorld ;;
  ret (match disk w !! path with
       | Some (Readable c) => Some c
       | _ => None
       end).

(** [ioutil.WriteFile]: [true] when it returns no error.  A failed write
    leaves the file as it was. *)
Definition WriteFile (path : string) (c : content) : M bool :=
  w <- getWorld ;;
  if writable w
  then putWorld (set_disk (<[path := Readable c]> (disk w)) w) ;; ret true
  else ret false.

(** [os.Remove]: [true] when it returns no error. *)
Definition Remove (path : string) : M bool :=
  w <- getWorld ;;
  match disk w !! path with
  | None => ret false
  | Some _ => putWorld (set_disk (delete path (disk w)) w) ;; ret true
  end.

(** [cmd.Run()] of the capture command for [path]: [true] when it returns
    no error.  With no tool to run the command fails. *)
Definition RunCapture (path : string) : M bool :=
  w <- getWorld ;;
  match tool w with
  | [] => ret false
  | o :: rest =>
      putWorld (set_tool rest
                  (if tool_wrote o
                   then set_disk (<[path := Readable Malformed]> (disk w)) w
                   else w)) ;;
      ret (tool_ok o)
  end.

(** ** Small library functions *)

(** [filepath.Join] on a Unix host: the non-empty elements, separated by
    a slash.  (The lexical clean-up of [filepath.Clean] is not modelled;
    the elements joined here are a home directory and fixed names.) *)
Fixpoint joinSlash (elems : list string) : string :=
  match elems with
  | [] => EmptyString
  | [e] => e
  | e :: rest => e +:+ "/" +:+ joinSlash rest
  end.

Definition Join (elems : list string) : string :=
  joinSlash (List.filter (fun e => negb (isEmpty e)) elems).

(** The verb [%d]. *)
Definition itoa (z : Z) : string := DecimalString.NilZero.string_of_int (Z.to_int z).

(** [sort.Slice(s, less)] is not a stable sort and promises only a
    permutation of [s] ordered by [less].  The model runs the insertion
    sort that the library applies to short slices: each element in turn is
    swapped towards the front while it is [less] than its predecessor.
    [bubble] works on the sorted prefix held back to front. *)
Fixpoint bubble {A : Type} (less : A -> A -> bool) (x : A) (racc : list A) : list A :=
  match racc with
  | [] => [x]
  | y :: r => if less x y then y :: bubble less x r else x :: racc
  end.

Definition sort_Slice {A : Type} (less : A -> A -> bool) (s : list A) : list A :=
  rev (fold_left (fun racc x => bubble less x racc) s []).

(** The first note with the given ID and its index, as the loops
    [for i, note := range app.Notes { if note.ID == id { ... return } }]
    find it. *)
Fixpoint findFrom (i : nat) (id : Z) (l : list Note) : option (nat * Note) :=
  match l with
  | [] => None
  | note :: rest => if ID note =? id then Some (i, note) else findFrom (S i) id rest
  end.

Definition findNote (id : Z) (l : list Note) : option (nat * Note) := findFrom 0 id l.

(** [app.Notes[i].field = ...]. *)
Definition modNote (i : nat) (f : Note -> Note) : M unit :=
  a <- getApp ;; putApp (set_Notes (alter f i (Notes a)) a).

(** The comma-separated tags typed by the user: nil for a blank line,
    else the trimmed pieces. *)
Definition parseTags (tagsInput : string) : list string :=
  if isEmpty tagsInput then []
  else map Strings.TrimSpace (Strings.Split tagsInput ","%char).

(** ** The store operations *)

(** [SaveNotes].  Marshalling the store cannot fail: the only value of
    these types that [json.Marshal] refuses is a time outside the years
    0 to 9999, which neither the clock nor the parser yields. *)
Definition SaveNotes : M unit :=
  a <- getApp ;;
  ok <- WriteFile (ConfigFile a) (MarshalIndent a) ;;
  if ok then skip else Print ErrSaving.

Definition LoadNotes : M unit :=
  a <- getApp ;;
  missing <- IsNotExist (ConfigFile a) ;;
  if missing then skip else
  r <- ReadFile (ConfigFile a) ;;
  match r with
  | None => Print ErrLoading
  | Some data =>
      let '(a', err) := Unmarshal data a in
      putApp a' ;;
      if err then Print ErrParsing else skip
  end.

(** [NewNotesApp]; creating the two directories leaves no trace in the
    model. *)
Definition NewNotesApp (w : World) : NotesApp * World :=
  let notesDir := Join [home w; "scrolls-of-skelos"] in
  let configFile := Join [notesDir; "scrolls.json"] in
  let app := mkApp [] 1 notesDir configFile in
  snd (LoadNotes (app, w)).

Definition appendNote (note : Note) : M unit :=
  a <- getApp ;;
  putApp (set_NextID (wrap_int (NextID a + 1)) (set_Notes (Notes a ++ [note]) a)).

Definition CreateTextNote (title content : string) (tags : list string) : M unit :=
  a <- getApp ;;
  createdAt <- Now ;;
  updatedAt <- Now ;;
  let note := mkNote (NextID a) title content tags createdAt updatedAt
                     "text" EmptyString EmptyString in
  appendNote note ;;
  SaveNotes ;;
  Print (Created (ID note) (Title note)).

Definition supported (goos : string) : bool :=
  String.eqb goos "darwin" || String.eqb goos "linux" || String.eqb goos "windows".

Definition captureName (timestamp : string) (id : Z) : string :=
  "scroll_capture_" +:+ timestamp +:+ "_" +:+ itoa id +:+ ".png".

Definition TakeScreenshot (title : string) (tags : list string) : M unit :=
  a <- getApp ;;
  w <- getWorld ;;
  now <- Now ;;
  let filename := captureName (layout w now) (NextID a) in
  let screenshotPath := Join [NotesDir a; "screenshots"; filename] in
  if negb (supported (GOOS w)) then Print NotSupported else
  Print Capturing ;;
  ok <- RunCapture screenshotPath ;;
  if negb ok then Print ErrScreenshot else
  missing <- IsNotExist screenshotPath ;;
  if missing then Print CaptureCancelled else
  createdAt <- Now ;;
  updatedAt <- Now ;;
  let note := mkNote (NextID a) title EmptyString tags createdAt updatedAt
                     "screenshot" screenshotPath filename in
  appendNote note ;;
  SaveNotes ;;
  Print (Captured (ID note) (Title note)).

Definition newestFirst (a b : Note) : bool := After (CreatedAt a) (CreatedAt b).

Definition ListNotes : M unit :=
  a <- getApp ;;
  match Notes a with
  | [] => Print NoScrolls
  | _ =>
      let sorted := sort_Slice newestFirst (Notes a) in
      putApp (set_Notes sorted a) ;;
      Print (Listing sorted)
  end.

Fixpoint containsTag (table : N -> N) (tags : list string) (query : string)
  : bool :=
  match tags with
  | [] => false
  | tag :: rest =>
      if Strings.Contains (Strings.ToLower table tag) query then true
      else containsTag table rest query
  end.

(** The test of the loop of [SearchNotes]; [query] is already lowered. *)
Definition matchesQuery (table : N -> N) (query : string) (note : Note) : bool :=
  Strings.Contains (Strings.ToLower table (Title note)) query
  || Strings.Contains (Strings.ToLower table (Content note)) query
  || containsTag table (Tags note) query.

Definition SearchNotes (query : string) : M unit :=
  w <- getWorld ;;
  let query := Strings.ToLower (lowerCase w) query in
  a <- getApp ;;
  let matches := List.filter (matchesQuery (lowerCase w) query) (Notes a) in
  match matches with
  | [] => Print (NoMatch query)
  | _ => Print (Found query matches)
  end.

Definition askTitle : string := "Enter new title (press Enter to keep current): ".

(** The title question of [EditScroll], asked in both branches. *)
Definition editTitle (i : nat) : M unit :=
  Print (Prompt askTitle) ;;
  newTitle <- ReadString ;;
  let newTitle := Strings.TrimSpace newTitle in
  if negb (isEmpty newTitle) then modNote i (set_Title newTitle) else skip.

Definition EditScroll (id : Z) : M unit :=
  a <- getApp ;;
  match findNote id (Notes a) with
  | None => Print (NotFound id)
  | Some (i, note) =>
      Print (EditHeader note) ;;
      (if String.eqb (Type_ note) "text" then
         editTitle i ;;
         Print (CurrentContent (Content note)) ;;
         Print (Prompt "Enter new content (press Enter to keep current): ") ;;
         newContent <- ReadString ;;
         let newContent := Strings.TrimSpace newContent in
         if negb (isEmpty newContent) then modNote i (set_Content newContent)
         else skip
       else
         editTitle i) ;;
      Print (CurrentTags (Tags note)) ;;
      Print (Prompt "Enter new runes (comma-separated, press Enter to keep current): ") ;;
      newTagsInput <- ReadString ;;
      let newTagsInput := Strings.TrimSpace newTagsInput in
      (if negb (isEmpty newTagsInput)
       then modNote i (set_Tags (parseTags newTagsInput))
       else skip) ;;
      now <- Now ;;
      modNote i (set_UpdatedAt now) ;;
      SaveNotes ;;
      Print (Modified id)
  end.

Definition RetitleScroll (id : Z) : M unit :=
  a <- getApp ;;
  match findNote id (Notes a) with
  | None => Print (NotFound id)
  | Some (i, note) =>
      Print (CurrentTitle (Title note)) ;;
      Print (Prompt "Enter new title: ") ;;
      newTitle <- ReadString ;;
      let newTitle := Strings.TrimSpace newTitle in
      if negb (isEmpty newTitle) then
        modNote i (set_Title newTitle) ;;
        now <- Now ;;
        modNote i (set_UpdatedAt now) ;;
        SaveNotes ;;
        Print (Retitled id newTitle)
      else
        Print TitleUnchanged
  end.

Definition isYes (response : string) : bool :=
  String.eqb response "y" || String.eqb response "yes".

Definition RecaptureImage (id : Z) : M unit :=
  a <- getApp ;;
  match findNote id (Notes a) with
  | None => Print (NotFound id)
  | Some (i, note) =>
      if negb (String.eqb (Type_ note) "screenshot") then Print (NotCaptured id) else
      Print (AskDeleteOld (Screenshot note)) ;;
      response <- ReadString ;;
      w <- getWorld ;;
      let response := Strings.TrimSpace (Strings.ToLower (lowerCase w) response) in
      let deleteOld := isYes response in
      let oldFilePath := FilePath note in
      now <- Now ;;
      let filename := captureName (layout w now) (ID note) in
      let screenshotPath := Join [NotesDir a; "screenshots"; filename] in
      if negb (supported (GOOS w)) then Print RecaptureNotSupported else
      Print Recapturing ;;
      ok <- RunCapture screenshotPath ;;
      if negb ok then Print ErrRecapture else
      missing <- IsNotExist screenshotPath ;;
      if missing then Print RecaptureCancelled else
      modNote i (set_FilePath screenshotPath) ;;
      modNote i (set_Screenshot filename) ;;
      updatedAt <- Now ;;
      modNote i (set_UpdatedAt updatedAt) ;;
      (if deleteOld && negb (isEmpty oldFilePath) then
         removed <- Remove oldFilePath ;;
         if removed then skip else Print WarnDeleteOld
       else skip) ;;
      SaveNotes ;;
      Print (Recaptured id filename)
  end.

(** ** The command interpreter: the bodies of two cases of [Run] *)

(** [case "1", "inscribe", "add"]. *)
Definition Run_inscribe : M unit :=
  Print (Prompt "Enter the title of your scroll: ") ;;
  title <- ReadString ;;
  let title := Strings.TrimSpace title in
  Print (Prompt "Inscribe your knowledge: ") ;;
  content <- ReadString ;;
  let content := Strings.TrimSpace content in
  Print (Prompt "Mark with ancient runes (tags, comma-separated, optional): ") ;;
  tagsInput <- ReadString ;;
  let tagsInput := Strings.TrimSpace tagsInput in
  CreateTextNote title content (parseTags tagsInput).

(** [case "5", "seek", "search"]. *)
Definition Run_seek : M unit :=
  Print (Prompt "What knowledge do you seek?: ") ;;
  query <- ReadString ;;
  let query := Strings.TrimSpace query in
  if negb (isEmpty query) then SearchNotes query else Print EmptyQuery.

(** ** The remaining operations

    What the functions of this part print is recorded as the text itself. *)

Definition Say (text : string) : M unit := Print (Prompt text).

Definition nl : string := line EmptyString.

(** [strings.Join(elems, sep)]. *)
Fixpoint joinWith (sep : string) (elems : list string) : string :=
  match elems with
  | [] => EmptyString
  | [e] => e
  | e :: rest => e +:+ sep +:+ joinWith sep rest
  end.

(** [app.Notes = append(app.Notes[:i], app.Notes[i+1:]...)]. *)
Definition removeAt (i : nat) : M unit :=
  a <- getApp ;; putApp (set_Notes (take i (Notes a) ++ drop (S i) (Notes a)) a).

Definition RetagScroll (id : Z) : M unit :=
  a <- getApp ;;
  match findNote id (Notes a) with
  | None => Print (NotFound id)
  | Some (i, note) =>
      Print (CurrentTags (Tags note)) ;;
      Print (Prompt "Enter new runes (comma-separated, leave empty to remove all): ") ;;
      newTagsInput <- ReadString ;;
      let newTagsInput := Strings.TrimSpace newTagsInput in
      let newTags := parseTags newTagsInput in
      modNote i (set_Tags newTags) ;;
      now <- Now ;;
      modNote i (set_UpdatedAt now) ;;
      SaveNotes ;;
      match newTags with
      | [] => Say (line ("All runes removed from scroll #" +:+ itoa id))
      | _ => Say (line ("Scroll #" +:+ itoa id +:+ " runes updated to: "
                        +:+ joinWith ", " newTags))
      end
  end.

(** What the functions below take from the host besides the [World]: how
    a time is displayed, what the command that opens a file in the viewer
    of the desktop returns, and how the error of a failed [os.Remove]
    reads.  (The viewer is taken to leave the files of the store alone.) *)
Record Host : Type := mkHost {
  dateTime : time -> string;           (* [t.Format("2006-01-02 15:04:05")] *)
  opening : string -> option string;   (* the error of [cmd.Run()], as [%v] prints it *)
  removeError : string -> string       (* the error of [os.Remove], as [%v] prints it *)
}.

(** How a call ends: it returns, or the program panics. *)
Inductive ran : Type := Returned | Panicked.

Section Operations.

Variable host : Host.

(** [openFile].  On a platform that is none of the three, [cmd] is still
    nil when [cmd.Run()] is reached: a nil pointer is dereferenced. *)
Definition openFile (filePath : string) : M ran :=
  w <- getWorld ;;
  if negb (supported (GOOS w)) then ret Panicked else
  match opening host filePath with
  | None => ret Returned
  | Some err => Say (line ("Error opening file: " +:+ err)) ;; ret Returned
  end.

Definition ViewNote (id : Z) : M ran :=
  a <- getApp ;;
  match findNote id (Notes a) with
  | None => Print (NotFound id) ;; ret Returned
  | Some (_, note) =>
      Say (nl +:+ line ("=== Scroll of Skelos #" +:+ itoa (ID note) +:+ " ===")) ;;
      Say (line ("Title: " +:+ Title note)) ;;
      Say (line ("Type: " +:+ Type_ note)) ;;
      Say (line ("Created: " +:+ dateTime host (CreatedAt note))) ;;
      Say (line ("Updated: " +:+ dateTime host (UpdatedAt note))) ;;
      (match Tags note with
       | [] => skip
       | tags => Say (line ("Tags: " +:+ joinWith ", " tags))
       end) ;;
      if String.eqb (Type_ note) "text" then
        Say (nl +:+ line "Content:" +:+ line (Content note)) ;;
        ret Returned
      else
        Say (nl +:+ line ("Captured Image: " +:+ Screenshot note)) ;;
        Say (line ("File path: " +:+ FilePath note)) ;;
        Print (Prompt "Would you like to reveal this captured image? (y/n): ") ;;
        response <- ReadString ;;
        w <- getWorld ;;
        let response := Strings.TrimSpace (Strings.ToLower (lowerCase w) response) in
        if isYes response then openFile (FilePath note) else ret Returned
  end.

Definition DeleteNote (id : Z) : M unit :=
  a <- getApp ;;
  match findNote id (Notes a) with
  | None => Print (NotFound id)
  | Some (i, note) =>
      (if String.eqb (Type_ note) "screenshot" then
         Say ("Destroy the captured image '" +:+ Screenshot note
              +:+ "' from the archives as well? (y/n): ") ;;
         response <- ReadString ;;
         w <- getWorld ;;
         let response := Strings.TrimSpace (Strings.ToLower (lowerCase w) response) in
         if isYes response then
           removed <- Remove (FilePath note) ;;
           if removed then skip
           else Say (line ("Warning: Could not destroy captured image: "
                           +:+ removeError host (FilePath note)))
         else skip
       else skip) ;;
      removeAt i ;;
      SaveNotes ;;
      Say (line ("Scroll #" +:+ itoa id +:+ " has been erased from the archives."))
  end.

End Operations.

Definition helpLines : list string :=
  [nl +:+ "=== The Scrolls of Skelos - Ancient Commands ===";
   "Available commands:";
   "  1 or inscribe   - Inscribe a new text scroll";
   "  2 or capture    - Capture an image scroll";
   "  3 or archive    - View all scrolls in the archive";
   "  4 or reveal     - Reveal a specific scroll";
   "  5 or seek       - Seek knowledge within scrolls";
   "  6 or modify     - Modify an existing scroll";
   "  7 or retitle    - Change a scroll's title";
   "  8 or retag      - Update a scroll's ancient runes";
   "  9 or recapture  - Replace a captured image";
   "  10 or erase     - Erase a scroll from existence";
   "  11 or wisdom    - Show these ancient commands";
   "  12 or depart    - Depart from the archives";
   EmptyString].

(** [fmt.Println] of each line in turn. *)
Fixpoint sayLines (lines : list string) : M unit :=
  match lines with
  | [] => skip
  | l :: rest => Say (line l) ;; sayLines rest
  end.

Definition ShowHelp : M unit := sayLines helpLines.

(** ** The command interpreter: the loop of [Run] *)

(** [strconv.Atoi]: an optional sign and at least one decimal digit,
    denoting a Go [int]; [None] when an error is returned. *)
Fixpoint digits (acc : Z) (l : list ascii) : option Z :=
  match l with
  | [] => Some acc
  | ch :: rest =>
      let n := Strings.code ch in
      if ((48 <=? n) && (n <=? 57))%N
      then digits (acc * 10 + Z.of_N (n - 48)) rest
      else None
  end.

Definition Atoi (s : string) : option Z :=
  match Strings.bytes s with
  | [] => None
  | c :: rest =>
      let neg := Ascii.eqb c "-" in
      let ds := if neg || Ascii.eqb c "+" then rest else c :: rest in
      match ds with
      | [] => None
      | _ =>
          match digits 0 ds with
          | Some n => let n := if neg then - n else n in
                      if in_int n then Some n else None
          | None => None
          end
      end
  end.

(** [case "2", "capture", "screenshot"]. *)
Definition Run_capture : M unit :=
  Print (Prompt "Enter the title for your captured image: ") ;;
  title <- ReadString ;;
  let title := Strings.TrimSpace title in
  Print (Prompt "Mark with ancient runes (tags, comma-separated, optional): ") ;;
  tagsInput <- ReadString ;;
  let tagsInput := Strings.TrimSpace tagsInput in
  TakeScreenshot title (parseTags tagsInput).

(** The question for a scroll ID, asked in six cases: the operation is
    called with the integer typed. *)
Definition withID {A : Type} (question : string) (op : Z -> M A) (done : A -> option ran)
  : M (option ran) :=
  Print (Prompt question) ;;
  idInput <- ReadString ;;
  let idInput := Strings.TrimSpace idInput in
  match Atoi idInput with
  | Some id => r <- op id ;; ret (done r)
  | None => Say (line "Invalid scroll ID. Please enter a number.") ;; ret None
  end.

Definition welcome : string :=
  "üèõÔ∏è  Welcome to The Scrolls of Skelos! üèõÔ∏è".
Definition farewell : string :=
  "May the ancient wisdom guide you on your journey. Farewell! üèõÔ∏è".

(** The case of the [switch] a command selects. *)
Definition oneOf (words : list string) (command : string) : bool :=
  existsb (String.eqb command) words.

Section Interpreter.

Variable host : Host.

(** [case "10", "erase", "delete"], once the ID is read. *)
Definition Run_erase (id : Z) : M unit :=
  Say ("Are you certain you wish to erase scroll #" +:+ itoa id
       +:+ " from the archives? (y/n): ") ;;
  confirm <- ReadString ;;
  w <- getWorld ;;
  let confirm := Strings.TrimSpace (Strings.ToLower (lowerCase w) confirm) in
  if isYes confirm then DeleteNote host id
  else Say (line "The scroll remains preserved in the archives.").

(** The [switch]: [None] when the loop goes on, else how [Run] ends. *)
Definition Run_switch (input : string) : M (option ran) :=
  let goes_on := fun _ : unit => @None ran in
  w <- getWorld ;;
  let command := Strings.ToLower (lowerCase w) input in
  if oneOf ["1"; "inscribe"; "add"] command then
    Run_inscribe ;; ret None
  else if oneOf ["2"; "capture"; "screenshot"] command then
    Run_capture ;; ret None
  else if oneOf ["3"; "archive"; "list"] command then
    ListNotes ;; ret None
  else if oneOf ["4"; "reveal"; "view"] command then
    withID "Enter the scroll ID to reveal: " (ViewNote host)
           (fun r => match r with Returned => None | Panicked => Some Panicked end)
  else if oneOf ["5"; "seek"; "search"] command then
    Run_seek ;; ret None
  else if oneOf ["6"; "modify"; "edit"] command then
    withID "Enter the scroll ID to modify: " EditScroll goes_on
  else if oneOf ["7"; "retitle"] command then
    withID "Enter the scroll ID to retitle: " RetitleScroll goes_on
  else if oneOf ["8"; "retag"] command then
    withID "Enter the scroll ID to retag: " RetagScroll goes_on
  else if oneOf ["9"; "recapture"] command then
    withID "Enter the scroll ID to recapture: " RecaptureImage goes_on
  else if oneOf ["10"; "erase"; "delete"] command then
    withID "Enter the scroll ID to erase from existence: " Run_erase goes_on
  else if oneOf ["11"; "wisdom"; "help"] command then
    ShowHelp ;; ret None
  else if oneOf ["12"; "depart"; "quit"; "exit"] command then
    Say (line farewell) ;; ret (Some Returned)
  else
    Say (line ("Unknown command: " +:+ input)) ;;
    Say (line "Speak 'wisdom' to learn the ancient commands.") ;;
    ret None.

(** One turn of the loop. *)
Definition Run_command : M (option ran) :=
  Say (nl +:+ "Speak your command, seeker of knowledge (or 'wisdom' for guidance): ") ;;
  input <- ReadString ;;
  Run_switch (Strings.TrimSpace input).

(** The loop [for { ... }], cut after [fuel] turns: [None] when it is
    still running then. *)
Fixpoint Run_loop (fuel : nat) : M (option ran) :=
  match fuel with
  | O => ret None
  | S fuel' =>
      r <- Run_command ;;
      match r with
      | None => Run_loop fuel'
      | Some e => ret (Some e)
      end
  end.

Definition Run (fuel : nat) : M (option ran) :=
  a <- getApp ;;
  Say (line welcome) ;;
  Say (line ("The ancient archives are stored in: " +:+ NotesDir a)) ;;
  ShowHelp ;;
  Run_loop fuel.

(** [main]. *)
Definition main (fuel : nat) (w : World) : option ran * (NotesApp * World) :=
  Run fuel (NewNotesApp w).

End Interpreter.

(** ** Running the model *)

Module Demo.

(** The case tables as far as the scenarios go: the capital letters of
    Latin-1, U+0130 and U+212A have a lower case, no other rune above
    ASCII has. *)
Definition caseTable (r : N) : N :=
  if ((192 <=? r) && (r <=? 222) && negb (r =? 215))%N then (r + 32)%N
  else if (r =? 304)%N then 105%N
  else if (r =? 8490)%N then 107%N
  else r.

(** A Linux host with an empty disk; the clock reads 1000, 1001, ... *)
Definition world0 : World :=
  mkWorld [] [] (fun n => 1000 + Z.of_nat n) 0 (fun t => itoa t) []
          ∅ true "/home/conan" "linux" caseTable.

Definition typed (lines : list string) (w : World) : World :=
  set_stdin (map line lines) w.

Definition start := NewNotesApp world0.
Definition app0 : NotesApp := fst start.

(** The scenario of the specification: a note titled Gate Code. *)
Definition s1 :=
  snd (Run_inscribe (app0, typed ["Gate Code"; "4471"; "security, door"] world0)).
Definition gate : Note :=
  mkNote 1 "Gate Code" "4471" ["security"; "door"] 1000 1001 "text"
         EmptyString EmptyString.

(** The same store and world, written out: the store holds the one note,
    the disk holds its document, the clock was read twice. *)
Definition app1 : NotesApp :=
  mkApp [gate] 2 "/home/conan/scrolls-of-skelos"
        "/home/conan/scrolls-of-skelos/scrolls.json".
Definition world1 : World :=
  set_ticks 2
    (set_disk {[ "/home/conan/scrolls-of-skelos/scrolls.json"
                 := Readable (MarshalIndent app1) ]} world0).

(** A store with a text note and a captured image. *)
Definition chart : Note :=
  mkNote 2 "Sea chart" EmptyString ["door"; "sea"] 1003 1004 "screenshot"
         "/home/conan/scrolls-of-skelos/screenshots/scroll_capture_1002_2.png"
         "scroll_capture_1002_2.png".
Definition app2 : NotesApp :=
  mkApp [gate; chart] 3 "/home/conan/scrolls-of-skelos"
        "/home/conan/scrolls-of-skelos/scrolls.json".

End Demo.

(** * The vocabulary of the properties

    The notions the specification uses when it states what the store
    does, and the concrete stores and worlds on which the properties are
    tried. *)

(** ** Strings *)

(** The characters of a string: its runes, a byte that begins none being
    read as U+FFFD. *)
Definition chars (s : string) : list N := Utf8.runes (Strings.bytes s).





(** Well-formed UTF-8. *)
Definition wellFormed (s : string) : Prop := Utf8.Valid (Strings.bytes s) = true.

(** A byte sequence made of white-space runes only. *)
Inductive Blank : list ascii -> Prop :=
| Blank_nil : Blank []
| Blank_1 a l : Strings.isSpace1 a = true -> Blank l -> Blank (a :: l)
| Blank_2 a b l : Strings.isSpace2 a b = true -> Blank l -> Blank (a :: b :: l)
| Blank_3 a b c l :
    Strings.isSpace3 a b c = true -> Blank l -> Blank (a :: b :: c :: l).

(** ** Order, integers, start-up *)

(** Newest first: no note is followed by a note created later. *)
Definition NewestFirst (l : list Note) : Prop :=
  StronglySorted (fun x y => CreatedAt y <= CreatedAt x) l.

Definition OldestFirst (l : list Note) : Prop :=
  StronglySorted (fun x y => CreatedAt x <= CreatedAt y) l.

(** Every integer of the store is a Go [int]. *)
Definition ints_ok (a : NotesApp) : Prop :=
  in_int (NextID a) = true /\ Forall (fun n => in_int (ID n) = true) (Notes a).

(** The store [NewNotesApp] builds before it looks at the disk. *)
Definition freshApp (w : World) : NotesApp :=
  mkApp [] 1 (Join [home w; "scrolls-of-skelos"])
        (Join [Join [home w; "scrolls-of-skelos"]; "scrolls.json"]).

(** Where the collection document is looked for. *)
Definition configPath (w : World) : string := ConfigFile (freshApp w).

(** The counter exceeds every ID of the collection. *)
Definition counter_above_ids (a : NotesApp) : Prop :=
  Forall (fun n => ID n < NextID a) (Notes a).

(** The document of [a], with [next_id] replaced by an arbitrary JSON
    value, or left out. *)
Definition persistedWith (a : NotesApp) (counter : option json) : json :=
  JObj ([("notes", JArr (map encNote (Notes a)))]
        ++ match counter with Some v => [("next_id", v)] | None => [] end
        ++ [("NotesDir", encString (NotesDir a));
            ("ConfigFile", encString (ConfigFile a))]).

(** What such a document says about the counter: the integer in the field,
    if the field is there and holds a Go [int]; the initial 1 otherwise. *)
Definition counterRead (counter : option json) : Z :=
  match counter with
  | Some (JInt z) => if in_int z then z else 1
  | _ => 1
  end.

Module StaleCounter.

(** A collection document, as left by an earlier session, holding note 5. *)
Definition note5 : Note :=
  mkNote 5 "old" "kept" [] 10 10 "text" EmptyString EmptyString.

Definition stale : json :=
  JObj [("notes", JArr [encNote note5]); ("next_id", JInt 2)].
Definition absent : json :=
  JObj [("notes", JArr [encNote note5])].
Definition corrupted : json :=
  JObj [("notes", JArr [encNote note5]); ("next_id", JStr "six")].

(** A document with no note and the largest [int] as its counter. *)
Definition lastInt : json := JObj [("next_id", JInt max_int)].

Definition holding (doc : json) : World :=
  set_disk {[ configPath Demo.world0 := Readable (WellFormed doc) ]} Demo.world0.

(** Four notes inscribed after start-up. *)
Definition four : list (string * string * list string) :=
  [("one", "1", []); ("two", "2", []); ("three", "3", []); ("four", "4", [])].

End StaleCounter.

Module BadText.

(** A note whose title is the one byte 255, as a user can type it. *)
Definition note : Note :=
  mkNote 1 (String (ascii_of_nat 255) EmptyString) "4471" [] 1000 1001 "text"
         EmptyString EmptyString.
Definition store : NotesApp :=
  mkApp [note] 2 "/home/conan/scrolls-of-skelos"
        "/home/conan/scrolls-of-skelos/scrolls.json".



End BadText.

(** ** What the user is shown *)

(** The rows of a listing. *)
Definition rows (m : message) : list Note :=
  match m with
  | Listing r | Found _ r => r
  | _ => []
  end.

(** The rows of the last thing printed. *)
Definition shown (w : World) : list Note := rows (List.last (stdout w) NoScrolls).

(** [search(q)] and [list()] as the specification speaks of them: the
    sequence of notes the operation puts on the screen. *)
Definition search (query : string) (a : NotesApp) (w : World) : list Note :=
  shown (world_after (SearchNotes query) a w).

Definition list_ (a : NotesApp) (w : World) : list Note :=
  shown (world_after ListNotes a w).



(** A store as its document gives it back: every string as [written]. *)
Definition writtenNote (n : Note) : Note :=
  mkNote (ID n) (written (Title n)) (written (Content n))
         (map written (Tags n)) (CreatedAt n) (UpdatedAt n)
         (written (Type_ n)) (written (FilePath n)) (written (Screenshot n)).

Definition writtenApp (a : NotesApp) : NotesApp :=
  mkApp (map writtenNote (Notes a)) (NextID a) (written (NotesDir a))
        (written (ConfigFile a)).

(** Every string of the store is well-formed UTF-8. *)
Definition texts (n : Note) : list string :=
  [Title n; Content n; Type_ n; FilePath n; Screenshot n] ++ Tags n.

Definition utf8_ok (a : NotesApp) : Prop :=
  Forall wellFormed (NotesDir a :: ConfigFile a :: concat (map texts (Notes a))).

(** The data model: a note that is not a text note carries no content. *)
Definition content_on_text_only (l : list Note) : Prop :=
  forall n, In n l -> Type_ n <> "text" -> Content n = EmptyString.

Module Hidden.

(** A store as a document can hold it: a captured image with a content,
    and a text note. *)
Definition image : Note :=
  mkNote 1 "Sea chart" "hidden" ["sea"] 1003 1004 "screenshot"
         "/home/conan/scrolls-of-skelos/screenshots/scroll_capture_1002_1.png"
         "scroll_capture_1002_1.png".
Definition school : Note :=
  mkNote 2 "École" "130 élèves" [] 1005 1006 "text" EmptyString EmptyString.
Definition store : NotesApp :=
  mkApp [image; school] 3 "/home/conan/scrolls-of-skelos"
        "/home/conan/scrolls-of-skelos/scrolls.json".
Definition world : World :=
  set_disk {[ "/home/conan/scrolls-of-skelos/scrolls.json"
              := Readable (MarshalIndent store) ]} Demo.world0.

End Hidden.

Module TwoScrolls.

(** Two notes inscribed one after the other. *)
Definition s2 :=
  snd (Run_inscribe
         (snd (Run_inscribe
                 (Demo.app0,
                  Demo.typed ["alpha scroll"; "first"; EmptyString;
                              "beta scroll"; "second"; EmptyString]
                             Demo.world0)))).
Definition alpha : Note :=
  mkNote 1 "alpha scroll" "first" [] 1000 1001 "text" EmptyString EmptyString.
Definition beta : Note :=
  mkNote 2 "beta scroll" "second" [] 1002 1003 "text" EmptyString EmptyString.

(** The store as [ListNotes] leaves it. *)
Definition listed : NotesApp :=
  mkApp [beta; alpha] 3 "/home/conan/scrolls-of-skelos"
        "/home/conan/scrolls-of-skelos/scrolls.json".

End TwoScrolls.

(** ** Creating notes *)

(** The note [CreateTextNote] builds in store [a] and world [w]. *)
Definition newTextNote (title content : string) (tags : list string)
           (a : NotesApp) (w : World) : Note :=
  mkNote (NextID a) title content tags (clock w (ticks w)) (clock w (S (ticks w)))
         "text" EmptyString EmptyString.

(** One call of create-text: title, content, tags. *)
Definition call : Type := string * string * list string.

Definition create (c : call) : M unit :=
  let '(title, content, tags) := c in CreateTextNote title content tags.

Fixpoint createAll (calls : list call) : M unit :=
  match calls with
  | [] => skip
  | c :: rest => create c ;; createAll rest
  end.

(** The counter exceeds every ID, is a Go [int], and leaves room for [k]
    more notes. *)
Definition room (k : Z) (a : NotesApp) : Prop :=
  counter_above_ids a /\ min_int <= NextID a /\ NextID a + k <= max_int.

Module EmptyTitle.

(** The user chooses "inscribe" and answers the title question with a
    bare newline. *)
Definition input : World := Demo.typed [EmptyString; "4471"; EmptyString] Demo.world0.
Definition after := snd (Run_inscribe (Demo.app0, input)).
Definition untitled : Note :=
  mkNote 1 EmptyString "4471" [] 1000 1001 "text" EmptyString EmptyString.

End EmptyTitle.

(** The path [TakeScreenshot] asks the tool to write. *)
Definition targetPath (a : NotesApp) (w : World) : string :=
  Join [NotesDir a; "screenshots";
        captureName (layout w (clock w (ticks w))) (NextID a)].

Module Capture.

Definition toolFails : World := set_tool [mkOutcome false false] Demo.world1.
Definition toolWorks : World := set_tool [mkOutcome true true] Demo.world1.

End Capture.

(** ** Editing *)

Fixpoint dropLines (k : nat) (l : list string) : list string :=
  match k with
  | O => l
  | S k' => dropLines k' (tl l)
  end.

(** The [k]-th line still to be read, empty past the end of input. *)
Definition nthLine (k : nat) (w : World) : string :=
  hd EmptyString (dropLines k (stdin w)).

(** An answer to a "press Enter to keep current" question. *)
Definition keepOr (set : string -> Note -> Note) (answer : string) (n : Note) : Note :=
  if isEmpty (Strings.TrimSpace answer) then n else set (Strings.TrimSpace answer) n.

(** The note [EditScroll] leaves in place of [n]: the answers are the next
    lines of input, the new [UpdatedAt] is the next reading of the clock. *)
Definition editedNote (w : World) (n : Note) : Note :=
  let answered :=
    if String.eqb (Type_ n) "text" then
      keepOr (fun v => set_Tags (parseTags v)) (nthLine 2 w)
        (keepOr set_Content (nthLine 1 w) (keepOr set_Title (nthLine 0 w) n))
    else
      keepOr (fun v => set_Tags (parseTags v)) (nthLine 1 w)
        (keepOr set_Title (nthLine 0 w) n) in
  set_UpdatedAt (clock w (ticks w)) answered.

(** The world after [SaveNotes]: the document is replaced, or the failure
    is reported. *)
Definition saved (a : NotesApp) (w : World) : World :=
  if writable w
  then set_disk (<[ConfigFile a := Readable (MarshalIndent a)]> (disk w)) w
  else set_stdout (stdout w ++ [ErrSaving]) w.

Module NoOpEdit.

(** The Gate Code note is opened for modification and every question is
    answered with a bare newline. *)
Definition w : World :=
  Demo.typed [EmptyString; EmptyString; EmptyString] Demo.world1.
Definition after : NotesApp := app_after (EditScroll 1) Demo.app1 w.

(** A later session on a host whose clock was set back to 500: the title is
    changed. *)
Definition setBack : World :=
  mkWorld [line "Gate"; line EmptyString; line EmptyString] []
          (fun _ => 500) 0 (fun t => itoa t) [] (disk Demo.world1) true
          "/home/conan" "linux" Demo.caseTable.

End NoOpEdit.

(** ** Erasing, retagging, capturing, and the turns of the loop *)

Definition without (i : nat) (a : NotesApp) : NotesApp :=
  set_Notes (take i (Notes a) ++ drop (S i) (Notes a)) a.

Definition persisted (a : NotesApp) (w : World) : Prop :=
  disk w !! ConfigFile a = Some (Readable (MarshalIndent a)).

Definition retagged (w : World) (n : Note) : Note :=
  set_UpdatedAt (clock w (ticks w))
    (set_Tags (parseTags (Strings.TrimSpace (nthLine 0 w))) n).


(** How one call may change the store: not at all; by one new note, which
    takes the counter as its ID; by the order of the notes; by one note
    replaced, which keeps its ID, its kind and its creation time (and its
    content, unless it is a text note); by one note removed.  The counter
    moves with a new note only, the two paths never. *)
Inductive change (a : NotesApp) : NotesApp -> Prop :=
| change_none : change a a
| change_added (note : Note) :
    ID note = NextID a ->
    (Type_ note <> "text" -> Content note = EmptyString) ->
    change a (mkApp (Notes a ++ [note]) (wrap_int (NextID a + 1))
                    (NotesDir a) (ConfigFile a))
| change_order (l : list Note) :
    Permutation l (Notes a) -> change a (set_Notes l a)
| change_note (i : nat) (x y : Note) :
    Notes a !! i = Some x ->
    ID y = ID x -> Type_ y = Type_ x -> CreatedAt y = CreatedAt x ->
    (Type_ x <> "text" -> Content y = Content x) ->
    change a (set_Notes (<[i := y]> (Notes a)) a)
| change_removed (i : nat) (x : Note) :
    Notes a !! i = Some x -> change a (without i a).

(** A path of the directory of captured images. *)
Definition imagePath (a : NotesApp) (p : string) : Prop :=
  exists name, p = Join [NotesDir a; "screenshots"; name].

(** The store is as it was but for the order of its notes, and no file
    outside the directory of images was touched; or the document of the
    store is on the disk. *)
Definition kept_or_saved (a : NotesApp) (w : World) (a' : NotesApp) (w' : World)
  : Prop :=
  ((exists l, Permutation l (Notes a) /\ a' = set_Notes l a)
   /\ forall p, ~ imagePath a p -> disk w' !! p = disk w !! p)
  \/ persisted a' w'.

(** What is true of every call. *)
Definition turn_ok (s s' : NotesApp * World) : Prop :=
  change (fst s) (fst s')
  /\ (writable (snd s) = true -> kept_or_saved (fst s) (snd s) (fst s') (snd s')).




(** The IDs of the store are positive, differ from one another and are
    below the counter; notes that are not text notes have no content. *)
Definition sound (a : NotesApp) : Prop :=
  counter_above_ids a
  /\ NoDup (map ID (Notes a))
  /\ Forall (fun n => 1 <= ID n) (Notes a)
  /\ content_on_text_only (Notes a)
  /\ 1 <= NextID a.

(** Every note of [a'] is a note of [a] under the same ID, with its kind
    and creation time, or has an ID that [a] had not yet given out. *)
Definition descends (a a' : NotesApp) : Prop :=
  forall n', In n' (Notes a') ->
    (exists n, In n (Notes a) /\ ID n = ID n' /\ Type_ n = Type_ n'
               /\ CreatedAt n = CreatedAt n')
    \/ NextID a <= ID n'.


(** The answer to the question of [DeleteNote]: whether the image file of
    the note is to go as well. *)
Definition destroys (w : World) (note : Note) : bool :=
  String.eqb (Type_ note) "screenshot"
  && isYes (Strings.TrimSpace (Strings.ToLower (lowerCase w) (nthLine 0 w))).

(** What an operation says of an ID that no note has. *)
Definition notFound (id : Z) (w : World) : World :=
  set_stdout (stdout w ++ [NotFound id]) w.


(** ** The words of the interpreter *)

(** The commands that ask for a scroll ID, the three that erase, the four
    that end the session, and all the words the [switch] knows. *)
Definition idWords : list string :=
  ["4"; "reveal"; "view"; "6"; "modify"; "edit"; "7"; "retitle"; "8"; "retag";
   "9"; "recapture"; "10"; "erase"; "delete"].
Definition eraseWords : list string := ["10"; "erase"; "delete"].
Definition quitWords : list string := ["12"; "depart"; "quit"; "exit"].
Definition commandWords : list string :=
  ["1"; "inscribe"; "add"; "2"; "capture"; "screenshot"; "3"; "archive"; "list";
   "4"; "reveal"; "view"; "5"; "seek"; "search"; "6"; "modify"; "edit";
   "7"; "retitle"; "8"; "retag"; "9"; "recapture"; "10"; "erase"; "delete";
   "11"; "wisdom"; "help"; "12"; "depart"; "quit"; "exit"].

(** The command typed at the prompt, as the [switch] sees it. *)
Definition typedCommand (w : World) : string :=
  Strings.ToLower (lowerCase w) (Strings.TrimSpace (nthLine 0 w)).

(** The world once [texts] were printed. *)
Definition said (texts : list string) (w : World) : World :=
  set_stdout (stdout w ++ map Prompt texts) w.

Definition commandPrompt : string :=
  nl +:+ "Speak your command, seeker of knowledge (or 'wisdom' for guidance): ".
Definition invalidID : string := line "Invalid scroll ID. Please enter a number.".


(** What a turn prints at the end of input, where the command read is
    the empty string. *)
Definition idleTurn : list message :=
  map Prompt [commandPrompt; line "Unknown command: ";
              line "Speak 'wisdom' to learn the ancient commands."].


(** ** Captures *)

(** The note [TakeScreenshot] builds in store [a] and world [w]. *)
Definition newImageNote (title : string) (tags : list string)
           (a : NotesApp) (w : World) : Note :=
  mkNote (NextID a) title EmptyString tags
         (clock w (S (ticks w))) (clock w (S (S (ticks w))))
         "screenshot" (targetPath a w)
         (captureName (layout w (clock w (ticks w))) (NextID a)).

(** The file name and the path [RecaptureImage] asks the tool to write. *)
Definition retakeName (w : World) (note : Note) : string :=
  captureName (layout w (clock w (ticks w))) (ID note).
Definition retakePath (a : NotesApp) (w : World) (note : Note) : string :=
  Join [NotesDir a; "screenshots"; retakeName w note].

(** The note [RecaptureImage] leaves in place of [note]. *)
Definition retaken (a : NotesApp) (w : World) (note : Note) : Note :=
  set_UpdatedAt (clock w (S (ticks w)))
    (set_Screenshot (retakeName w note) (set_FilePath (retakePath a w note) note)).

(** Whether [RecaptureImage] removes the old image once the new one is
    taken: the answer was yes and the note had a path. *)
Definition dropsOld (w : World) (note : Note) : bool :=
  isYes (Strings.TrimSpace (Strings.ToLower (lowerCase w) (nthLine 0 w)))
  && negb (isEmpty (FilePath note)).

(** The capture at [path] goes through: the platform has a command, the
    command returns no error and a file is at [path] afterwards. *)
Definition captureWorks (w : World) (path : string) : Prop :=
  supported (GOOS w) = true
  /\ exists o rest, tool w = o :: rest /\ tool_ok o = true
       /\ (tool_wrote o = true \/ disk w !! path <> None).


(** ** Tags *)

(** A byte sequence that does not begin with a white-space rune; and the
    same at the end, told of the reversed sequence. *)
Definition startsClean (l : list ascii) : Prop :=
  match l with
  | [] => True
  | a :: r1 =>
      Strings.isSpace1 a = false
      /\ match r1 with
         | [] => True
         | b :: r2 =>
             Strings.isSpace2 a b = false
             /\ match r2 with
                | [] => True
                | c :: _ => Strings.isSpace3 a b c = false
                end
         end
  end.

Definition endsCleanRev (l : list ascii) : Prop :=
  match l with
  | [] => True
  | a :: r1 =>
      Strings.isSpace1 a = false
      /\ match r1 with
         | [] => True
         | b :: r2 =>
             Strings.isSpace2 b a = false
             /\ match r2 with
                | [] => True
                | c :: _ => Strings.isSpace3 c b a = false
                end
         end
  end.

(** A string with no white space around it. *)
Definition trimmed (s : string) : Prop :=
  startsClean (Strings.bytes s) /\ endsCleanRev (rev (Strings.bytes s)).

(** The commas of a line. *)
Definition commas (s : string) : nat :=
  count_occ Ascii.ascii_dec (Strings.bytes s) ","%char.


(** ** Stores and worlds to try the properties on *)

Module Session.

(** A host that shows a time by its number, whose viewer opens every
    file, and whose [os.Remove] fails as on a Unix system. *)
Definition host : Host :=
  mkHost (fun t => itoa t) (fun _ => None)
         (fun path => "remove " +:+ path +:+ ": no such file or directory").

(** The store with the Gate Code note and the sea chart, saved, with the
    image of the chart on the disk. *)
Definition world2 : World :=
  set_ticks 5
    (set_disk (<[ FilePath Demo.chart := Readable Malformed ]>
                 {[ "/home/conan/scrolls-of-skelos/scrolls.json"
                    := Readable (MarshalIndent Demo.app2) ]})
              Demo.world0).

(** The same host with a disk that cannot be written. *)
Definition readOnly : World :=
  mkWorld [] [] (fun n => 1000 + Z.of_nat n) 0 (fun t => itoa t) []
          ∅ false "/home/conan" "linux" Demo.caseTable.

(** A store that kept its document under another name in the same
    directory, and whose document was copied to the standard name. *)
Definition moved : NotesApp :=
  mkApp [Demo.gate] 2 "/home/conan/scrolls-of-skelos"
        "/home/conan/scrolls-of-skelos/archive.json".
Definition copied : World :=
  set_disk {[ "/home/conan/scrolls-of-skelos/scrolls.json"
              := Readable (MarshalIndent moved) ]} Demo.world0.

(** A first session of five turns: two notes are inscribed, the first is
    retitled, the second erased, the archive listed. *)
Definition first : World :=
  Demo.typed ["inscribe"; "Gate Code"; "4471"; "security, door";
              "add"; "Sea chart"; "reefs"; EmptyString;
              "retitle"; "1"; "Gate";
              "erase"; "2"; "yes";
              "archive"] Demo.world0.

(** A later session of three turns on [world2]: the text note is
    modified, the image note erased with its file, a note inscribed. *)
Definition later : World :=
  Demo.typed ["modify"; "1"; "Gate"; EmptyString; "door";
              "erase"; "2"; "y"; "Y";
              "inscribe"; "École"; "130 élèves"; EmptyString] world2.

End Session.

(** * Properties *)

(** ** The model at work *)

(** Split a conjunction into its parts, and no further. *)
Ltac splits := repeat match goal with |- _ /\ _ => split end.

Example TrimSpace_ex1 : Strings.TrimSpace (line "  Gate Code ") = "Gate Code".
Proof. reflexivity. Qed.

Example ToLower_ex1 (table : N -> N) :
  Strings.ToLower table "Gate Code 4471" = "gate code 4471".
Proof. reflexivity. Qed.

Example ToLower_ex2 :
  Strings.ToLower Demo.caseTable "École" = "école"
  /\ Strings.ToLower Demo.caseTable "exİt" = "exit"
  /\ Strings.ToLower Demo.caseTable "seeK" = "seek".
Proof. repeat split. Qed.

Example Split_ex1 : Strings.Split "security, door" ","%char = ["security"; " door"].
Proof. reflexivity. Qed.

Example Contains_ex1 :
  Strings.Contains "security" "cur" = true /\ Strings.Contains "door" "nope" = false
  /\ Strings.Contains EmptyString EmptyString = true.
Proof. repeat split. Qed.

Example demo_start :
  Demo.app0 = mkApp [] 1 "/home/conan/scrolls-of-skelos"
                    "/home/conan/scrolls-of-skelos/scrolls.json".
Proof. reflexivity. Qed.

Example demo_gate_code :
  fst Demo.s1 = Demo.app1
  /\ disk (snd Demo.s1) !! ConfigFile Demo.app1
     = disk Demo.world1 !! ConfigFile Demo.app1
  /\ ticks (snd Demo.s1) = ticks Demo.world1.
Proof. splits; vm_compute; reflexivity. Qed.

Example demo_search_door :
  stdout (world_after (SearchNotes "DOOR") (fst Demo.s1) Demo.world0)
  = [Found "door" (Notes (fst Demo.s1))]
  /\ stdout (world_after (SearchNotes "nope") (fst Demo.s1) Demo.world0)
     = [NoMatch "nope"].
Proof. split; vm_compute; reflexivity. Qed.

Example demo_reload :
  fst (NewNotesApp (snd Demo.s1)) = fst Demo.s1.
Proof. vm_compute. reflexivity. Qed.

(** Run the monadic code of an operation as far as the state is known. *)
Ltac run_M :=
  repeat progress
    (unfold bind, ret, skip, getApp, putApp, getWorld, putWorld, modNote,
       appendNote, Print, Now, ReadString, IsNotExist, ReadFile, WriteFile,
       Remove, RunCapture, SaveNotes, editTitle, app_after, world_after in *;
     cbn [fst snd negb hd tl
          stdin stdout clock ticks layout tool disk writable home GOOS lowerCase
          set_stdin set_stdout set_ticks set_tool set_disk
          Notes NextID NotesDir ConfigFile set_Notes set_NextID
          tool_ok tool_wrote] in *).

(** ** Runes *)

Section Utf8Facts.

Import Utf8.
Local Open Scope N_scope.

Lemma code_byte (n : N) : n < 256 -> code (byte n) = n.
Proof. apply N_ascii_embedding. Qed.



(** Decide the next test of a definition. *)
Ltac ntest :=
  match goal with
  | |- context [?a <? ?b] => destruct (N.ltb_spec a b)
  | |- context [?a <=? ?b] => destruct (N.leb_spec a b)
  | |- context [?a =? ?b] => destruct (N.eqb_spec a b)
  end.

Ltac Zify.zify_post_hook ::= Z.to_euclidean_division_equations.

Lemma first_some (s0 : N) (sz : nat) (lo hi : N) :
  first s0 = Some (sz, lo, hi) ->
  194 <= s0 <= 244 /\ (2 <= sz <= 4)%nat /\ 128 <= lo /\ hi <= 191.
Proof.
  unfold first. repeat (ntest; try lia); intros [= <- <- <-]; lia.
Qed.

Lemma first_2 (s0 : N) : 194 <= s0 <= 223 -> first s0 = Some (2%nat, 128, 191).
Proof. intros H. unfold first. repeat (ntest; try lia); reflexivity. Qed.

Lemma first_3 (s0 : N) :
  224 <= s0 <= 239 ->
  first s0 = Some (3%nat, if s0 =? 224 then 160 else 128,
                   if s0 =? 237 then 159 else 191).
Proof. intros H. unfold first. repeat (ntest; try lia); reflexivity. Qed.

Lemma first_4 (s0 : N) :
  240 <= s0 <= 244 ->
  first s0 = Some (4%nat, if s0 =? 240 then 144 else 128,
                   if s0 =? 244 then 143 else 191).
Proof. intros H. unfold first. repeat (ntest; try lia); reflexivity. Qed.

Lemma first_size (s0 : N) (sz : nat) (lo hi : N) :
  first s0 = Some (sz, lo, hi) ->
  (sz = 2%nat /\ 194 <= s0 <= 223) \/ (sz = 3%nat /\ 224 <= s0 <= 239)
  \/ (sz = 4%nat /\ 240 <= s0 <= 244).
Proof.
  unfold first. repeat (ntest; try lia); intros [= <- <- <-]; lia.
Qed.

Lemma in_range (x lo hi : N) : lo <= x <= hi -> (x <? lo) || (hi <? x) = false.
Proof.
  intros H. apply orb_false_iff. split; apply N.ltb_ge; lia.
Qed.

Lemma DecodeRune_1 (a : ascii) (rest : list ascii) :
  code a < 128 -> DecodeRune (a :: rest) = (code a, 1%nat).
Proof.
  intros H. unfold DecodeRune. apply N.ltb_lt in H. rewrite H. reflexivity.
Qed.

Lemma DecodeRune_2 (a b : ascii) (rest : list ascii) :
  194 <= code a <= 223 -> 128 <= code b <= 191 ->
  DecodeRune (a :: b :: rest) = (code a mod 32 * 64 + code b mod 64, 2%nat).
Proof.
  intros Ha Hb. unfold DecodeRune.
  replace (code a <? 128) with false by (symmetry; apply N.ltb_ge; lia).
  rewrite (first_2 _ Ha). unfold byteAt. cbn [length nth Nat.ltb Nat.leb].
  rewrite (in_range _ _ _ Hb). reflexivity.
Qed.

Lemma DecodeRune_3 (a b c : ascii) (rest : list ascii) :
  224 <= code a <= 239 ->
  (if code a =? 224 then 160 else 128) <= code b
  <= (if code a =? 237 then 159 else 191) ->
  128 <= code c <= 191 ->
  DecodeRune (a :: b :: c :: rest)
  = (code a mod 16 * 4096 + code b mod 64 * 64 + code c mod 64, 3%nat).
Proof.
  intros Ha Hb Hc. unfold DecodeRune.
  replace (code a <? 128) with false by (symmetry; apply N.ltb_ge; lia).
  rewrite (first_3 _ Ha). unfold byteAt. cbn [length nth Nat.ltb Nat.leb].
  rewrite (in_range _ _ _ Hb), (in_range _ _ _ Hc). reflexivity.
Qed.

Lemma DecodeRune_4 (a b c d : ascii) (rest : list ascii) :
  240 <= code a <= 244 ->
  (if code a =? 240 then 144 else 128) <= code b
  <= (if code a =? 244 then 143 else 191) ->
  128 <= code c <= 191 -> 128 <= code d <= 191 ->
  DecodeRune (a :: b :: c :: d :: rest)
  = (code a mod 8 * 262144 + code b mod 64 * 4096 + code c mod 64 * 64
     + code d mod 64, 4%nat).
Proof.
  intros Ha Hb Hc Hd. unfold DecodeRune.
  replace (code a <? 128) with false by (symmetry; apply N.ltb_ge; lia).
  rewrite (first_4 _ Ha). unfold byteAt. cbn [length nth Nat.ltb Nat.leb].
  rewrite (in_range _ _ _ Hb), (in_range _ _ _ Hc), (in_range _ _ _ Hd).
  reflexivity.
Qed.

Lemma ValidRune_spec (r : N) :
  ValidRune r = true <-> r <= 1114111 /\ (r < 55296 \/ 57343 < r).
Proof.
  unfold ValidRune, MaxRune.
  rewrite andb_true_iff, negb_true_iff, andb_false_iff, N.leb_le, !N.leb_gt.
  reflexivity.
Qed.

(** The four shapes of an encoding. *)
Lemma EncodeRune_cases (r : N) :
  (r <= 127 /\ EncodeRune r = [byte r])
  \/ (128 <= r <= 2047
      /\ EncodeRune r = [byte (192 + r / 64); byte (128 + r mod 64)])
  \/ (exists r', (r' = r \/ (ValidRune r = false /\ r' = RuneError))
        /\ 2048 <= r' <= 65535 /\ (r' < 55296 \/ 57343 < r')
        /\ EncodeRune r
           = [byte (224 + r' / 4096); byte (128 + r' / 64 mod 64);
              byte (128 + r' mod 64)])
  \/ (65536 <= r <= 1114111
      /\ EncodeRune r
         = [byte (240 + r / 262144); byte (128 + r / 4096 mod 64);
            byte (128 + r / 64 mod 64); byte (128 + r mod 64)]).
Proof.
  unfold EncodeRune.
  destruct (N.leb_spec r 127) as [H1 | H1]; [left; auto |].
  destruct (N.leb_spec r 2047) as [H2 | H2]; [right; left; split; [lia | auto] |].
  right; right. destruct (ValidRune r) eqn:Ev.
  - apply ValidRune_spec in Ev as [Hmax Hs].
    destruct (N.leb_spec r 65535) as [H3 | H3].
    + left. exists r. split; [left; reflexivity |]. repeat split; auto; lia.
    + right. split; [lia | reflexivity].
  - left. exists RuneError. split; [right; auto |].
    unfold RuneError. cbn. repeat split; try lia.
Qed.

Lemma EncodeRune_shape (r : N) :
  exists h t, EncodeRune r = h :: t /\ isCont h = false /\ forallb isCont t = true.
Proof.
  assert (Hlead : forall n, 192 <= n < 256 -> isCont (byte n) = false).
  { intros n Hn. unfold isCont. rewrite code_byte by lia.
    apply andb_false_iff. right. apply N.leb_gt. lia. }
  assert (Hcont : forall n, n < 64 -> isCont (byte (128 + n)) = true).
  { intros n Hn. unfold isCont. rewrite code_byte by lia.
    apply andb_true_iff. split; apply N.leb_le; lia. }
  destruct (EncodeRune_cases r)
    as [[H ->] | [[H ->] | [(r' & _ & H & _ & ->) | [H ->]]]];
    eexists; eexists; (split; [reflexivity |]); cbn [forallb].
  - split; [| reflexivity]. unfold isCont. rewrite code_byte by lia.
    apply andb_false_iff. left. apply N.leb_gt. lia.
  - rewrite Hlead, Hcont by lia. auto.
  - rewrite Hlead, !Hcont by lia. auto.
  - rewrite Hlead, !Hcont by lia. auto.
Qed.

Lemma EncodeRune_length (r : N) : (1 <= length (EncodeRune r) <= 4)%nat.
Proof.
  destruct (EncodeRune_cases r)
    as [[H ->] | [[H ->] | [(r' & _ & H & _ & ->) | [H ->]]]]; cbn [length]; lia.
Qed.

(** A scalar value is read back from its encoding, whatever follows. *)
Lemma DecodeRune_EncodeRune (r : N) (rest : list ascii) :
  ValidRune r = true ->
  DecodeRune (EncodeRune r ++ rest) = (r, length (EncodeRune r)).
Proof.
  intros Hv. pose proof (proj1 (ValidRune_spec r) Hv) as [Hmax Hs].
  destruct (EncodeRune_cases r)
    as [[H ->] | [[H ->] | [(r' & Hr' & H & Hs' & ->) | [H ->]]]];
    cbn [app length].
  - rewrite DecodeRune_1; rewrite code_byte by lia; [reflexivity | lia].
  - rewrite DecodeRune_2; rewrite !code_byte by lia; [| lia | lia].
    f_equal. lia.
  - destruct Hr' as [-> | [Hf _]]; [| congruence].
    assert (Ha : code (byte (224 + r / 4096)) = 224 + r / 4096)
      by (apply code_byte; lia).
    assert (Hb : code (byte (128 + r / 64 mod 64)) = 128 + r / 64 mod 64)
      by (apply code_byte; lia).
    assert (Hc : code (byte (128 + r mod 64)) = 128 + r mod 64)
      by (apply code_byte; lia).
    rewrite DecodeRune_3; rewrite ?Ha, ?Hb, ?Hc.
    + f_equal. lia.
    + lia.
    + repeat ntest; lia.
    + lia.
  - assert (Ha : code (byte (240 + r / 262144)) = 240 + r / 262144)
      by (apply code_byte; lia).
    assert (Hb : code (byte (128 + r / 4096 mod 64)) = 128 + r / 4096 mod 64)
      by (apply code_byte; lia).
    assert (Hc : code (byte (128 + r / 64 mod 64)) = 128 + r / 64 mod 64)
      by (apply code_byte; lia).
    assert (Hd : code (byte (128 + r mod 64)) = 128 + r mod 64)
      by (apply code_byte; lia).
    rewrite DecodeRune_4; rewrite ?Ha, ?Hb, ?Hc, ?Hd.
    + f_equal. lia.
    + lia.
    + repeat ntest; lia.
    + lia.
    + lia.
Qed.



Lemma DecodeRune_size (a : ascii) (l : list ascii) :
  (1 <= snd (DecodeRune (a :: l)) <= length (a :: l))%nat.
Proof.
  unfold DecodeRune. cbn [length].
  destruct (code a <? 128); [cbn; lia |].
  destruct (first (code a)) as [[[sz lo] hi]|] eqn:Ef; [| cbn; lia].
  destruct (Nat.ltb_spec (S (length l)) sz) as [Hl | Hl]; [cbn; lia |].
  destruct (_ || _); [cbn; lia |].
  destruct (first_size _ _ _ _ Ef) as [[-> Hs] | [[-> Hs] | [-> Hs]]];
    cbn [Nat.leb]; [cbn; lia | |];
    repeat (destruct (_ || _); [cbn; lia |]); cbn; lia.
Qed.

Lemma chunksFrom_fuel (fuel1 fuel2 : nat) (l : list ascii) :
  (length l <= fuel1)%nat -> (length l <= fuel2)%nat ->
  chunksFrom fuel1 l = chunksFrom fuel2 l.
Proof.
  revert fuel2 l. induction fuel1 as [|f1 IH]; intros [|f2] [|a l] H1 H2;
    cbn [length] in *; try reflexivity; try lia.
  cbn [chunksFrom]. pose proof (DecodeRune_size a l) as Hs.
  destruct (DecodeRune (a :: l)) as [r size]. cbn [snd] in Hs. f_equal.
  apply IH; rewrite length_drop; cbn [length]; lia.
Qed.

Lemma chunks_cons (a : ascii) (l : list ascii) :
  chunks (a :: l)
  = (fst (DecodeRune (a :: l)), take (snd (DecodeRune (a :: l))) (a :: l))
      :: chunks (drop (snd (DecodeRune (a :: l))) (a :: l)).
Proof.
  unfold chunks at 1. cbn [length chunksFrom].
  pose proof (DecodeRune_size a l) as Hs.
  destruct (DecodeRune (a :: l)) as [r size]. cbn [fst snd] in *. f_equal.
  apply chunksFrom_fuel; rewrite length_drop; cbn [length]; lia.
Qed.

Lemma chunks_nil : chunks [] = [].
Proof. reflexivity. Qed.

(** The chunks of a byte sequence are its bytes, in order. *)
Lemma concat_chunks (l : list ascii) : concat (map snd (chunks l)) = l.
Proof.
  remember (length l) as n eqn:En. revert l En.
  induction n as [n IH] using lt_wf_ind. intros [|a l] En; [reflexivity |].
  rewrite chunks_cons. cbn [map concat snd].
  pose proof (DecodeRune_size a l) as Hs.
  rewrite (IH (length (drop (snd (DecodeRune (a :: l))) (a :: l)))).
  - apply take_drop.
  - rewrite length_drop. subst n. cbn [length] in *. lia.
  - reflexivity.
Qed.

Lemma chunks_encoded (r : N) (rest : list ascii) :
  ValidRune r = true ->
  chunks (EncodeRune r ++ rest) = (r, EncodeRune r) :: chunks rest.
Proof.
  intros Hv. destruct (EncodeRune_shape r) as (h & t & E & _).
  pose proof (DecodeRune_EncodeRune r rest Hv) as Hd.
  rewrite E in Hd |- *. cbn [app] in *. rewrite chunks_cons, Hd. cbn [fst snd].
  change (h :: t ++ rest) with ((h :: t) ++ rest).
  rewrite take_app_length, drop_app_length. reflexivity.
Qed.

Lemma runes_encodeAll (rs : list N) :
  Forall (fun r => ValidRune r = true) rs -> runes (encodeAll rs) = rs.
Proof.
  induction 1 as [|r rs Hr _ IH]; [reflexivity |].
  unfold runes, encodeAll in *. cbn [map concat].
  rewrite (chunks_encoded _ _ Hr). cbn [map fst]. rewrite IH. reflexivity.
Qed.








(** Well-formed bytes are written as they are. *)
Lemma coerce_Valid (l : list ascii) : Valid l = true -> coerce l = l.
Proof.
  unfold Valid, coerce. intros H. rewrite <- (concat_chunks l) at 2. f_equal.
  induction (chunks l) as [|c cs IH]; [reflexivity |].
  cbn [forallb] in H. apply andb_true_iff in H as [Hc Hcs].
  cbn [map]. rewrite (IH Hcs). apply negb_true_iff in Hc. rewrite Hc.
  reflexivity.
Qed.

End Utf8Facts.

(** ** Strings *)

Section StringFacts.

Import Strings.

Lemma bytes_of_bytes (l : list ascii) : bytes (of_bytes l) = l.
Proof. apply list_ascii_of_string_of_list_ascii. Qed.

Lemma of_bytes_bytes (s : string) : of_bytes (bytes s) = s.
Proof. apply string_of_list_ascii_of_string. Qed.

Lemma isEmpty_true (s : string) : isEmpty s = true <-> s = EmptyString.
Proof. unfold isEmpty. apply String.eqb_eq. Qed.

Lemma isEmpty_false (s : string) : isEmpty s = false <-> s <> EmptyString.
Proof. unfold isEmpty. apply String.eqb_neq. Qed.

Lemma bytes_nil (s : string) : bytes s = [] <-> s = EmptyString.
Proof.
  split.
  - destruct s; [reflexivity | discriminate].
  - intros ->. reflexivity.
Qed.



Section LowerCase.

Local Open Scope N_scope.

Variable table : N -> N.












End LowerCase.

Lemma Contains_empty_text (q : string) :
  q <> EmptyString -> Contains EmptyString q = false.
Proof.
  intros Hq. unfold Contains. destruct (bytes q) eqn:E.
  - apply bytes_nil in E. contradiction.
  - reflexivity.
Qed.

Lemma isSpace2_not1 (a b : ascii) : isSpace2 a b = true -> isSpace1 a = false.
Proof.
  unfold isSpace2, isSpace1. intros H.
  apply andb_true_iff in H as [H _]. apply N.eqb_eq in H. rewrite H. reflexivity.
Qed.

Lemma isSpace3_not12 (a b c : ascii) :
  isSpace3 a b c = true -> isSpace1 a = false /\ isSpace2 a b = false.
Proof.
  unfold isSpace3, isSpace2, isSpace1. cbv zeta. intros H.
  repeat (apply orb_true_iff in H as [H | H]);
    repeat (apply andb_true_iff in H as [H ?]);
    apply N.eqb_eq in H; rewrite H; split; reflexivity.
Qed.

Lemma trimLeft_Blank (l : list ascii) : Blank l -> trimLeft l = [].
Proof.
  induction 1 as [|a l Ha _ IH|a b l Hab _ IH|a b c l Habc _ IH].
  - reflexivity.
  - simpl. rewrite Ha. exact IH.
  - simpl. rewrite (isSpace2_not1 _ _ Hab), Hab. exact IH.
  - destruct (isSpace3_not12 _ _ _ Habc) as [H1 H2].
    simpl. rewrite H1, H2, Habc. exact IH.
Qed.

(** A line of white space trims to the empty string. *)
Lemma TrimSpace_Blank (s : string) : Blank (bytes s) -> TrimSpace s = EmptyString.
Proof. intros H. unfold TrimSpace. rewrite (trimLeft_Blank _ H). reflexivity. Qed.

End StringFacts.

(** ** Sorting *)

Section Sorting.

Lemma bubble_perm {A : Type} (less : A -> A -> bool) (x : A) (racc : list A) :
  Permutation (bubble less x racc) (x :: racc).
Proof.
  induction racc as [|y r IH]; simpl.
  - apply Permutation_refl.
  - destruct (less x y).
    + eapply perm_trans; [apply perm_skip, IH | apply perm_swap].
    + apply Permutation_refl.
Qed.

Lemma fold_bubble_perm {A : Type} (less : A -> A -> bool) (s racc : list A) :
  Permutation (fold_left (fun r x => bubble less x r) s racc) (s ++ racc).
Proof.
  revert racc. induction s as [|x s IH]; intros racc; simpl.
  - apply Permutation_refl.
  - eapply perm_trans; [apply IH |].
    eapply perm_trans; [apply Permutation_app_head, bubble_perm |].
    apply Permutation_sym, Permutation_middle.
Qed.

Lemma sort_Slice_perm {A : Type} (less : A -> A -> bool) (s : list A) :
  Permutation (sort_Slice less s) s.
Proof.
  unfold sort_Slice. eapply perm_trans; [apply Permutation_sym, Permutation_rev |].
  eapply perm_trans; [apply fold_bubble_perm |].
  rewrite app_nil_r. apply Permutation_refl.
Qed.

Lemma bubble_oldest (x : Note) (racc : list Note) :
  OldestFirst racc -> OldestFirst (bubble newestFirst x racc).
Proof.
  unfold OldestFirst. induction 1 as [|y r Hr IH Hy]; simpl.
  - constructor; constructor.
  - unfold newestFirst, After. destruct (CreatedAt y <? CreatedAt x) eqn:E.
    + apply Z.ltb_lt in E. constructor; [exact IH |].
      eapply Permutation_Forall; [apply Permutation_sym, bubble_perm |].
      constructor; [lia | exact Hy].
    + apply Z.ltb_ge in E. constructor; [constructor; assumption |].
      constructor; [exact E |].
      eapply Forall_impl; [exact Hy |]. simpl. intros z Hz. lia.
Qed.

Lemma fold_bubble_oldest (s racc : list Note) :
  OldestFirst racc ->
  OldestFirst (fold_left (fun r x => bubble newestFirst x r) s racc).
Proof.
  revert racc. induction s as [|x s IH]; intros racc H; simpl.
  - exact H.
  - apply IH, bubble_oldest, H.
Qed.

Lemma StronglySorted_snoc {A : Type} (R : A -> A -> Prop) (l : list A) (x : A) :
  StronglySorted R l -> Forall (fun y => R y x) l -> StronglySorted R (l ++ [x]).
Proof.
  induction 1 as [|y l Hl IH Hy]; intros Hx; simpl.
  - constructor; constructor.
  - inversion Hx as [|? ? Hyx Hlx]; subst. constructor.
    + apply IH, Hlx.
    + apply Forall_app. split; [exact Hy | constructor; [exact Hyx | constructor]].
Qed.

Lemma OldestFirst_rev (l : list Note) : OldestFirst l -> NewestFirst (rev l).
Proof.
  unfold OldestFirst, NewestFirst. induction 1 as [|y l Hl IH Hy]; simpl.
  - constructor.
  - apply StronglySorted_snoc; [exact IH |].
    apply List.Forall_forall. intros z Hz. apply in_rev in Hz.
    rewrite List.Forall_forall in Hy. apply Hy, Hz.
Qed.

(** The contract of [sort.Slice] for the order of [ListNotes]. *)
Lemma sort_Slice_newestFirst (s : list Note) :
  NewestFirst (sort_Slice newestFirst s).
Proof.
  unfold sort_Slice. apply OldestFirst_rev, fold_bubble_oldest. constructor.
Qed.

Lemma NewestFirst_filter (f : Note -> bool) (l : list Note) :
  NewestFirst l -> NewestFirst (List.filter f l).
Proof.
  unfold NewestFirst. induction 1 as [|y l Hl IH Hy]; simpl.
  - constructor.
  - destruct (f y); [| exact IH]. constructor; [exact IH |].
    apply List.Forall_forall. intros z Hz. apply filter_In in Hz as [Hz _].
    rewrite List.Forall_forall in Hy. apply Hy, Hz.
Qed.

End Sorting.

(** ** The document written by [SaveNotes] reads back *)

Section RoundTrip.

Local Arguments in_int : simpl never.
Local Arguments encTags : simpl never.
Local Arguments decSlice : simpl never.

Lemma decElems_strings (l : list string) :
  decElems EmptyString decString [] (map encString l) = (map written l, NoErr).
Proof.
  induction l as [|s l IH]; simpl.
  - reflexivity.
  - rewrite IH. reflexivity.
Qed.

Lemma decTags_enc (l : list string) :
  decSlice EmptyString decString [] (encTags l) = (map written l, NoErr).
Proof.
  destruct l as [|s l]; [reflexivity |].
  unfold encTags, decSlice. apply decElems_strings.
Qed.

Lemma decNote_enc (n : Note) :
  in_int (ID n) = true -> decNote zeroNote (encNote n) = (writtenNote n, NoErr).
Proof.
  destruct n as [id title text tags created updated kind path shot].
  simpl. intros Hid. unfold decNote, encNote, decStruct, writtenNote. simpl.
  destruct (isEmpty path) eqn:Ep; destruct (isEmpty shot) eqn:Es;
    try apply isEmpty_true in Ep; try apply isEmpty_true in Es; subst;
    repeat first [ progress cbn | progress unfold stepNote, encString
                 | rewrite Hid | rewrite decTags_enc ];
    reflexivity.
Qed.

Lemma decElems_notes (l : list Note) :
  Forall (fun n => in_int (ID n) = true) l ->
  decElems zeroNote decNote [] (map encNote l) = (map writtenNote l, NoErr).
Proof.
  induction 1 as [|n l Hn _ IH]; cbn [decElems map hd tl].
  - reflexivity.
  - rewrite (decNote_enc n Hn), IH. reflexivity.
Qed.

(** [Unmarshal] of the document of [a] into a store that holds no note
    yields [a] with its strings as they were written, whatever counter and
    paths the store had. *)
Lemma Unmarshal_MarshalIndent (a : NotesApp) (z : Z) (dir cfg : string) :
  ints_ok a ->
  Unmarshal (MarshalIndent a) (mkApp [] z dir cfg) = (writtenApp a, false).
Proof.
  destruct a as [notes next ndir ncfg]. intros [Hnext Hnotes]. simpl in *.
  unfold Unmarshal, MarshalIndent, encApp, decStruct, writtenApp.
  repeat first [ progress cbn | progress unfold stepApp, decSlice, encString
               | rewrite (decElems_notes notes Hnotes) | rewrite Hnext ];
  reflexivity.
Qed.

(** Well-formed strings are written as they are. *)
Lemma written_wellFormed (s : string) : wellFormed s -> written s = s.
Proof.
  unfold wellFormed, written. intros H. rewrite (coerce_Valid _ H).
  apply of_bytes_bytes.
Qed.

Lemma writtenNote_texts (n : Note) : Forall wellFormed (texts n) -> writtenNote n = n.
Proof.
  destruct n as [id title text tags created updated kind path shot].
  unfold texts, writtenNote. cbn [Title Content Type_ FilePath Screenshot Tags ID
                                  CreatedAt UpdatedAt app].
  intros H. repeat (apply Forall_cons in H as [?H H]).
  rewrite !written_wellFormed by assumption. f_equal.
  induction H as [|t l Ht _ IH]; [reflexivity |].
  cbn [map]. rewrite (written_wellFormed _ Ht), IH. reflexivity.
Qed.

Lemma writtenApp_utf8_ok (a : NotesApp) : utf8_ok a -> writtenApp a = a.
Proof.
  destruct a as [notes next ndir ncfg]. unfold utf8_ok, writtenApp.
  cbn [Notes NextID NotesDir ConfigFile]. intros H.
  apply Forall_cons in H as [Hd H]. apply Forall_cons in H as [Hc H].
  rewrite !written_wellFormed by assumption. f_equal.
  induction notes as [|n l IH]; [reflexivity |].
  cbn [map concat] in *. apply Forall_app in H as [Hn H].
  rewrite (writtenNote_texts _ Hn), (IH H). reflexivity.
Qed.

End RoundTrip.

(** ** Start-up *)

Section Startup.

Lemma NewNotesApp_missing (w : World) :
  disk w !! configPath w = None -> NewNotesApp w = (freshApp w, w).
Proof.
  intros H. unfold NewNotesApp, LoadNotes, IsNotExist, bind, getApp, getWorld, ret.
  cbn [fst snd]. fold (freshApp w). fold (configPath w). rewrite H. reflexivity.
Qed.

Lemma NewNotesApp_unreadable (w : World) :
  disk w !! configPath w = Some Unreadable ->
  NewNotesApp w = (freshApp w, set_stdout (stdout w ++ [ErrLoading]) w).
Proof.
  intros H.
  unfold NewNotesApp, LoadNotes, IsNotExist, ReadFile, Print, bind, getApp,
    getWorld, putWorld, ret.
  cbn [fst snd]. fold (freshApp w). fold (configPath w).
  rewrite H. cbn [fst snd]. rewrite H. reflexivity.
Qed.

Lemma NewNotesApp_readable (w : World) (data : content) :
  disk w !! configPath w = Some (Readable data) ->
  NewNotesApp w
  = (fst (Unmarshal data (freshApp w)),
     if snd (Unmarshal data (freshApp w))
     then set_stdout (stdout w ++ [ErrParsing]) w else w).
Proof.
  intros H.
  unfold NewNotesApp, LoadNotes, IsNotExist, ReadFile, Print, bind, getApp,
    getWorld, putWorld, putApp, skip, ret.
  cbn [fst snd]. fold (freshApp w). fold (configPath w).
  rewrite H. cbn [fst snd]. rewrite H.
  destruct (Unmarshal data (freshApp w)) as [a' [|]]; reflexivity.
Qed.

Lemma persistedWith_own (a : NotesApp) :
  persistedWith a (Some (JInt (NextID a))) = encApp a.
Proof. reflexivity. Qed.

Lemma Unmarshal_persistedWith (a : NotesApp) (counter : option json)
      (dir cfg : string) :
  Forall (fun n => in_int (ID n) = true) (Notes a) ->
  fst (Unmarshal (WellFormed (persistedWith a counter)) (mkApp [] 1 dir cfg))
  = set_NextID (counterRead counter) (writtenApp a).
Proof.
  destruct a as [notes next ndir ncfg]. intros Hnotes. simpl in Hnotes.
  unfold Unmarshal, persistedWith, decStruct, counterRead, writtenApp, encString.
  destruct counter as [[| b | z | | t | t | l | m]|];
    try destruct (in_int z) eqn:Ez;
    repeat first [ progress cbn [decMembers app fst snd join Notes NextID NotesDir
                                 ConfigFile set_Notes set_NextID set_NotesDir
                                 set_ConfigFile decInt decString]
                 | progress unfold stepApp, decSlice
                 | progress change (lookupField appFields "notes") with (Some aNotes)
                 | progress change (lookupField appFields "next_id") with (Some aNextID)
                 | progress change (lookupField appFields "NotesDir")
                     with (Some aNotesDir)
                 | progress change (lookupField appFields "ConfigFile")
                     with (Some aConfigFile)
                 | rewrite (decElems_notes notes Hnotes)
                 | rewrite Ez ];
    reflexivity.
Qed.

End Startup.

(** ** C1: the counter after start-up *)

Example stale_document_loaded :
  Notes (fst (NewNotesApp (StaleCounter.holding StaleCounter.stale)))
  = [StaleCounter.note5]
  /\ NextID (fst (NewNotesApp (StaleCounter.holding StaleCounter.stale))) = 2
  /\ NextID (fst (NewNotesApp (StaleCounter.holding StaleCounter.absent))) = 1
  /\ NextID (fst (NewNotesApp (StaleCounter.holding StaleCounter.corrupted))) = 1
  /\ Notes (fst (NewNotesApp (StaleCounter.holding StaleCounter.corrupted)))
     = [StaleCounter.note5].
Proof. splits; vm_compute; reflexivity. Qed.

(** C1 at the failing input: start-up loads a document that holds note 5
    and whose [next_id] is 2, or is missing, or is a string.  In each case
    the counter it ends with does not exceed 5; with the counter at 2, the
    fourth note inscribed afterwards is given the ID 5 a second time. *)
Theorem C1_counter_not_reconciled :
  ~ counter_above_ids (fst (NewNotesApp (StaleCounter.holding StaleCounter.stale)))
  /\ ~ counter_above_ids (fst (NewNotesApp (StaleCounter.holding StaleCounter.absent)))
  /\ ~ counter_above_ids
       (fst (NewNotesApp (StaleCounter.holding StaleCounter.corrupted)))
  /\ map ID (Notes (fst (snd (createAll StaleCounter.four
                                (NewNotesApp
                                   (StaleCounter.holding StaleCounter.stale))))))
     = [5; 2; 3; 4; 5].
Proof.
  splits; try (intros H; apply Forall_inv in H; vm_compute in H; discriminate).
  vm_compute. reflexivity.
Qed.

(** What start-up makes of a document in the store's own format: the
    notes are the persisted ones and the counter is what the document says,
    the [next_id] field as it stands, or the initial 1 when the field is
    missing or does not hold an integer.  The counter is not recomputed
    from the notes. *)
Lemma LoadNotes_counter_as_persisted (w : World) (a : NotesApp)
      (counter : option json) :
  Forall (fun n => in_int (ID n) = true) (Notes a) ->
  disk w !! configPath w
  = Some (Readable (WellFormed (persistedWith a counter))) ->
  let a' := fst (NewNotesApp w) in
  Notes a' = map writtenNote (Notes a)
  /\ NextID a' = counterRead counter
  /\ (counter_above_ids a'
      <-> Forall (fun n => ID n < counterRead counter) (Notes a)).
Proof.
  intros Hok Hdisk a'. subst a'.
  rewrite (NewNotesApp_readable _ _ Hdisk). cbn [fst]. unfold freshApp.
  rewrite (Unmarshal_persistedWith a counter _ _ Hok).
  unfold counter_above_ids. destruct a as [notes next dir cfg]; simpl.
  splits; try reflexivity. rewrite Forall_map. reflexivity.
Qed.

(** ** C3: save, then start again *)





(** ** What the user is shown *)

Lemma search_filter (query : string) (a : NotesApp) (w : World) :
  search query a w
  = List.filter (matchesQuery (lowerCase w) (Strings.ToLower (lowerCase w) query))
                (Notes a).
Proof.
  unfold search, shown, world_after, SearchNotes, Print, bind, getApp, getWorld,
    putWorld.
  cbn [fst snd].
  destruct (List.filter _ (Notes a)) as [|n l];
    cbn [fst snd stdout set_stdout]; rewrite last_last; reflexivity.
Qed.

Lemma list_sorted (a : NotesApp) (w : World) :
  list_ a w = sort_Slice newestFirst (Notes a).
Proof.
  unfold list_, shown, world_after, ListNotes, Print, bind, getApp, getWorld,
    putWorld, putApp.
  cbn [fst snd].
  destruct (Notes a) as [|n l];
    cbn [fst snd stdout set_stdout]; rewrite last_last; reflexivity.
Qed.

Lemma ListNotes_app (a : NotesApp) (w : World) :
  Notes (app_after ListNotes a w) = sort_Slice newestFirst (Notes a).
Proof.
  unfold app_after, ListNotes, Print, bind, getApp, getWorld, putWorld, putApp.
  cbn [fst snd]. destruct (Notes a) as [|n l] eqn:E; cbn [fst snd].
  - rewrite E. reflexivity.
  - reflexivity.
Qed.

Lemma In_list (a : NotesApp) (w : World) (n : Note) :
  In n (list_ a w) <-> In n (Notes a).
Proof.
  rewrite list_sorted. split; apply Permutation_in.
  - apply sort_Slice_perm.
  - apply Permutation_sym, sort_Slice_perm.
Qed.

(** ** C4: what [search] finds *)


Lemma chars_nonempty (q : string) : q <> EmptyString -> chars q <> [].
Proof.
  intros Hq. unfold chars.
  destruct (Strings.bytes q) as [|c l] eqn:E.
  - apply bytes_nil in E. contradiction.
  - unfold Utf8.runes. rewrite chunks_cons. discriminate.
Qed.









Example search_door_finds_both :
  search "DOOR" Demo.app2 Demo.world1 = [Demo.gate; Demo.chart]
  /\ search "4471" Demo.app2 Demo.world1 = [Demo.gate]
  /\ search "nope" Demo.app2 Demo.world1 = []
  /\ search "école" Hidden.store Hidden.world = [Hidden.school].
Proof. splits; vm_compute; reflexivity. Qed.

(** ** C5: the order of the search results *)

Example two_scrolls_state :
  Notes (fst TwoScrolls.s2) = [TwoScrolls.alpha; TwoScrolls.beta]
  /\ app_after ListNotes (fst TwoScrolls.s2) (snd TwoScrolls.s2) = TwoScrolls.listed
  /\ search "scroll" TwoScrolls.listed Demo.world0 = [TwoScrolls.beta; TwoScrolls.alpha].
Proof. splits; vm_compute; reflexivity. Qed.

(** C5 at the failing input: after two notes were inscribed, a search
    that matches both shows the older one first, where [list] shows the
    newer one first; once [list] has run, which sorts the collection in the
    store, the same search shows the newer one first. *)
Theorem C5_search_oldest_first :
  search "scroll" (fst TwoScrolls.s2) (snd TwoScrolls.s2)
  = [TwoScrolls.alpha; TwoScrolls.beta]
  /\ list_ (fst TwoScrolls.s2) (snd TwoScrolls.s2)
     = [TwoScrolls.beta; TwoScrolls.alpha]
  /\ ~ NewestFirst (search "scroll" (fst TwoScrolls.s2) (snd TwoScrolls.s2))
  /\ search "scroll" (app_after ListNotes (fst TwoScrolls.s2) (snd TwoScrolls.s2))
            (snd TwoScrolls.s2)
     = [TwoScrolls.beta; TwoScrolls.alpha].
Proof.
  assert (Hs : search "scroll" (fst TwoScrolls.s2) (snd TwoScrolls.s2)
               = [TwoScrolls.alpha; TwoScrolls.beta]) by (vm_compute; reflexivity).
  split; [exact Hs | split; [vm_compute; reflexivity | split]].
  - rewrite Hs. intros H. inversion H as [|? ? _ Hall]; subst.
    apply Forall_inv in Hall. simpl in Hall. lia.
  - vm_compute. reflexivity.
Qed.

Lemma filter_sublist {A : Type} (f : A -> bool) (l : list A) :
  sublist (List.filter f l) l.
Proof.
  induction l as [|x l IH]; simpl.
  - constructor.
  - destruct (f x); [apply sublist_skip | apply sublist_cons]; exact IH.
Qed.

(** [search] shows the matching notes in the order the collection has in
    memory at that moment; the result is newest first whenever the
    collection is, as it is right after [list]. *)
Lemma search_keeps_collection_order (a : NotesApp) (w : World) (q : string) :
  sublist (search q a w) (Notes a)
  /\ (NewestFirst (Notes a) -> NewestFirst (search q a w)).
Proof.
  rewrite search_filter. split.
  - apply filter_sublist.
  - apply NewestFirst_filter.
Qed.

(** ** C6: the IDs of new notes *)

Lemma wrap_int_small (z : Z) : min_int <= z <= max_int -> wrap_int z = z.
Proof.
  unfold min_int, max_int, wrap_int. intros H.
  rewrite Z.mod_small by lia. lia.
Qed.

Lemma CreateTextNote_app (title content : string) (tags : list string)
      (a : NotesApp) (w : World) :
  app_after (CreateTextNote title content tags) a w
  = mkApp (Notes a ++ [newTextNote title content tags a w])
          (wrap_int (NextID a + 1)) (NotesDir a) (ConfigFile a).
Proof.
  unfold app_after, CreateTextNote, appendNote, SaveNotes, WriteFile, Now, Print,
    bind, getApp, getWorld, putWorld, putApp, ret, skip.
  cbn [fst snd writable set_ticks set_stdout set_disk].
  destruct (writable w); reflexivity.
Qed.

Lemma create_app (c : call) (a : NotesApp) (w : World) :
  exists note,
    fst (snd (create c (a, w)))
    = mkApp (Notes a ++ [note]) (wrap_int (NextID a + 1)) (NotesDir a) (ConfigFile a)
    /\ ID note = NextID a.
Proof.
  destruct c as [[title content] tags]. exists (newTextNote title content tags a w).
  split; [apply CreateTextNote_app | reflexivity].
Qed.

Lemma create_room (k : Z) (c : call) (a : NotesApp) (w : World) :
  0 <= k -> room (k + 1) a -> room k (fst (snd (create c (a, w)))).
Proof.
  intros Hk [Habove [Hmin Hmax]].
  destruct (create_app c a w) as [note [-> Hid]].
  unfold room, counter_above_ids. cbn [Notes NextID].
  rewrite wrap_int_small by lia. repeat split; try lia.
  apply Forall_app. split.
  - eapply Forall_impl; [exact Habove |]. simpl. intros m Hm. lia.
  - constructor; [lia | constructor].
Qed.

Lemma createAll_room (calls : list call) (k : Z) (a : NotesApp) (w : World) :
  0 <= k -> room (k + Z.of_nat (length calls)) a ->
  room k (fst (snd (createAll calls (a, w)))).
Proof.
  revert a w. induction calls as [|c rest IH]; intros a w Hk H.
  - simpl in *. rewrite Z.add_0_r in H. exact H.
  - cbn [createAll]. unfold bind.
    destruct (create c (a, w)) as [u [a1 w1]] eqn:E.
    apply IH; [exact Hk |].
    replace a1 with (fst (snd (create c (a, w)))) by (rewrite E; reflexivity).
    apply create_room; [lia |].
    replace (k + Z.of_nat (length rest) + 1)
      with (k + Z.of_nat (length (c :: rest))) by (cbn [length]; lia).
    exact H.
Qed.

(** C6, refuted as stated.  In the store that start-up loads from a
    document with note 5 and the counter 2, the next note inscribed gets the
    ID 2, below the ID 5 that is there, and the fourth one gets 5 again.
    And in a store whose counter is the largest [int], as a document can
    set it, the second note inscribed gets the smallest [int]. *)
Lemma C6_new_id_below_an_old_one :
  map ID (Notes (fst (NewNotesApp (StaleCounter.holding StaleCounter.stale)))) = [5]
  /\ map ID (Notes (fst (snd (createAll [("one", "1", [])]
                                (NewNotesApp
                                   (StaleCounter.holding StaleCounter.stale))))))
     = [5; 2]
  /\ map ID (Notes (fst (snd (createAll StaleCounter.four
                                (NewNotesApp
                                   (StaleCounter.holding StaleCounter.stale))))))
     = [5; 2; 3; 4; 5]
  /\ fst (NewNotesApp (StaleCounter.holding StaleCounter.lastInt))
     = set_NextID max_int (freshApp Demo.world0)
  /\ map ID (Notes (fst (snd (createAll [("one", "1", []); ("two", "2", [])]
                                (NewNotesApp
                                   (StaleCounter.holding StaleCounter.lastInt))))))
     = [max_int; min_int].
Proof. splits; vm_compute; reflexivity. Qed.

(** C6, amended: however many notes are inscribed one after the other in
    a store whose counter is above its IDs (as the fresh store has it) and
    stays within Go's [int], each new note gets an ID above every ID the
    store held before it, the counter stays above all IDs, and the listing
    that follows shows the new note. *)
Theorem C6_new_ids_increase (a : NotesApp) (w : World) (pre post : list call)
        (c : call) :
  counter_above_ids a ->
  min_int <= NextID a ->
  NextID a + Z.of_nat (length (pre ++ c :: post)) <= max_int ->
  let s1 := snd (createAll pre (a, w)) in
  let s2 := snd (create c s1) in
  exists note,
    Notes (fst s2) = Notes (fst s1) ++ [note]
    /\ Forall (fun m => ID m < ID note) (Notes (fst s1))
    /\ counter_above_ids (fst s2)
    /\ In note (list_ (fst s2) (snd s2)).
Proof.
  intros Habove Hmin Hmax s1 s2.
  assert (H1 : room (Z.of_nat (length (c :: post))) (fst s1)).
  { apply createAll_room; [lia |]. repeat split; try assumption.
    rewrite length_app in Hmax. lia. }
  assert (H2 : room (Z.of_nat (length post)) (fst s2)).
  { unfold s2. destruct s1 as [a1 w1]. apply create_room; [lia |].
    cbn [fst]. cbn [fst length] in H1.
    replace (Z.of_nat (length post) + 1) with (Z.of_nat (S (length post))) by lia.
    exact H1. }
  unfold s2 in *. destruct s1 as [a1 w1]. cbn [fst] in *.
  destruct (create_app c a1 w1) as [note [Happ Hid]].
  exists note. rewrite Happ. cbn [Notes]. repeat split.
  - destruct H1 as [Ha1 _]. rewrite Hid. exact Ha1.
  - rewrite <- Happ. apply H2.
  - apply In_list. cbn [Notes]. apply in_or_app. right. left. reflexivity.
Qed.

Lemma C6_new_ids_increase_witness :
  let a := freshApp Demo.world0 in
  let w := Demo.world0 in
  let pre : list call := [("first", "one", [])] in
  let c : call := ("Gate Code", "4471", ["security"; "door"]) in
  counter_above_ids a
  /\ min_int <= NextID a
  /\ NextID a + Z.of_nat (length (pre ++ [c])) <= max_int
  /\ exists note,
       Notes (fst (snd (create c (snd (createAll pre (a, w))))))
       = Notes (fst (snd (createAll pre (a, w)))) ++ [note]
       /\ Forall (fun m => ID m < ID note) (Notes (fst (snd (createAll pre (a, w))))).
Proof.
  intros a w pre c.
  assert (H1 : counter_above_ids a) by constructor.
  assert (H2 : min_int <= NextID a) by (vm_compute; discriminate).
  assert (H3 : NextID a + Z.of_nat (length (pre ++ [c])) <= max_int)
    by (vm_compute; discriminate).
  split; [exact H1 | split; [exact H2 | split; [exact H3 |]]].
  destruct (C6_new_ids_increase a w pre [] c H1 H2 H3) as [note [Hn [Hlt _]]].
  exists note. split; [exact Hn | exact Hlt].
Defined.

(** ** C2: an empty title *)

(** C2 at the failing input: with an empty title the interpreter still
    calls [CreateTextNote], which has no check of its own: the note is
    added, the counter moves from 1 to 2, the document is written and the
    message is the one of a successful creation. *)
Lemma C2_empty_title_is_accepted :
  Notes (fst EmptyTitle.after) = [EmptyTitle.untitled]
  /\ NextID Demo.app0 = 1 /\ NextID (fst EmptyTitle.after) = 2
  /\ disk EmptyTitle.input !! configPath EmptyTitle.input = None
  /\ disk (snd EmptyTitle.after) !! configPath EmptyTitle.input
     = Some (Readable (MarshalIndent (fst EmptyTitle.after)))
  /\ List.last (stdout (snd EmptyTitle.after)) NoScrolls = Created 1 EmptyString.
Proof. splits; vm_compute; reflexivity. Qed.

(** ** C7: a capture that fails *)

(** C7: when the capture command reports a failure, or no file is at the
    target path once it has run, [TakeScreenshot] leaves the store as it
    was (same notes, same counter) and writes nothing: the disk is as the
    tool left it (and untouched on a platform without a tool). *)
Theorem C7_failed_capture_changes_nothing (a : NotesApp) (w : World)
        (title : string) (tags : list string) :
  fst (RunCapture (targetPath a w) (a, w)) = false
  \/ disk (world_after (RunCapture (targetPath a w)) a w) !! targetPath a w = None ->
  app_after (TakeScreenshot title tags) a w = a
  /\ disk (world_after (TakeScreenshot title tags) a w)
     = disk (if supported (GOOS w)
             then world_after (RunCapture (targetPath a w)) a w else w).
Proof.
  intros H. unfold TakeScreenshot. run_M. fold (targetPath a w) in *.
  destruct (supported (GOOS w)); run_M; [| split; reflexivity].
  destruct (tool w) as [|[ok wrote] rest]; run_M; [split; reflexivity |].
  destruct ok, wrote; run_M; try (split; reflexivity);
    (destruct H as [H | H]; [discriminate |]);
    rewrite H; run_M; split; reflexivity.
Qed.

Example capture_success :
  Notes (app_after (TakeScreenshot "Map" ["sea"]) Demo.app1 Capture.toolWorks)
  = Notes Demo.app1
    ++ [mkNote 2 "Map" EmptyString ["sea"] 1003 1004 "screenshot"
               "/home/conan/scrolls-of-skelos/screenshots/scroll_capture_1002_2.png"
               "scroll_capture_1002_2.png"]
  /\ NextID (app_after (TakeScreenshot "Map" ["sea"]) Demo.app1 Capture.toolWorks)
     = 3.
Proof. split; vm_compute; reflexivity. Qed.

Lemma C7_failed_capture_changes_nothing_witness :
  let a := Demo.app1 in
  let w := Capture.toolFails in
  (fst (RunCapture (targetPath a w) (a, w)) = false
   \/ disk (world_after (RunCapture (targetPath a w)) a w) !! targetPath a w = None)
  /\ app_after (TakeScreenshot "Map" ["sea"]) a w = a.
Proof.
  intros a w.
  assert (H : fst (RunCapture (targetPath a w) (a, w)) = false
              \/ disk (world_after (RunCapture (targetPath a w)) a w)
                 !! targetPath a w = None)
    by (left; vm_compute; reflexivity).
  split; [exact H |].
  exact (proj1 (C7_failed_capture_changes_nothing a w "Map" ["sea"] H)).
Defined.

(** ** Finding a note *)

Lemma findFrom_lookup (k : nat) (id : Z) (l : list Note) (i : nat) (note : Note) :
  findFrom k id l = Some (i, note) ->
  (k <= i)%nat /\ l !! (i - k)%nat = Some note /\ ID note = id.
Proof.
  revert k. induction l as [|n l IH]; intros k; simpl.
  - discriminate.
  - destruct (ID n =? id) eqn:E.
    + intros [= <- <-]. rewrite Nat.sub_diag. apply Z.eqb_eq in E. auto.
    + intros H. apply IH in H as [Hk [Hl Hid]].
      replace (i - k)%nat with (S (i - S k)) by lia. simpl. repeat split; auto; lia.
Qed.

Lemma findNote_lookup (id : Z) (l : list Note) (i : nat) (note : Note) :
  findNote id l = Some (i, note) -> l !! i = Some note /\ ID note = id.
Proof.
  intros H. apply findFrom_lookup in H as [_ [Hl Hid]].
  rewrite Nat.sub_0_r in Hl. auto.
Qed.

(** ** C9: recapture of a text note *)

(** C9: [RecaptureImage] on a text note prints that the scroll is not a
    captured image and does nothing else: the store (notes and counter) and
    the world (disk, clock, pending input, capture tool) are as they were. *)
Theorem C9_recapture_of_text_note (a : NotesApp) (w : World) (id : Z) (i : nat)
        (note : Note) :
  findNote id (Notes a) = Some (i, note) ->
  Type_ note = "text" ->
  RecaptureImage id (a, w)
  = (tt, (a, set_stdout (stdout w ++ [NotCaptured id]) w)).
Proof.
  intros Hfind Hkind.
  unfold RecaptureImage, Print, bind, getApp, getWorld, putWorld.
  cbn [fst snd]. rewrite Hfind, Hkind. reflexivity.
Qed.

Lemma C9_recapture_of_text_note_witness :
  let a := Demo.app1 in
  let w := Demo.world1 in
  findNote 1 (Notes a) = Some (0%nat, Demo.gate)
  /\ Type_ Demo.gate = "text"
  /\ RecaptureImage 1 (a, w) = (tt, (a, set_stdout (stdout w ++ [NotCaptured 1]) w)).
Proof.
  intros a w.
  assert (Hfind : findNote 1 (Notes a) = Some (0%nat, Demo.gate))
    by (vm_compute; reflexivity).
  assert (Hkind : Type_ Demo.gate = "text") by reflexivity.
  split; [exact Hfind | split; [exact Hkind |]].
  exact (C9_recapture_of_text_note a w 1 0%nat Demo.gate Hfind Hkind).
Defined.

(** ** C8: what an edit does to the timestamps *)

(** One step of a sequence, once the first action is known. *)
Lemma bind_pair {A B : Type} (m : M A) (k : A -> M B) (s s' : NotesApp * World)
      (x : A) :
  m s = (x, s') -> bind m k s = k x s'.
Proof. intros H. unfold bind. rewrite H. reflexivity. Qed.

Lemma bind_assoc {A B C : Type} (m : M A) (k1 : A -> M B) (k2 : B -> M C)
      (s : NotesApp * World) :
  bind (bind m k1) k2 s = bind m (fun x => bind (k1 x) k2) s.
Proof. unfold bind. destruct (m s) as [x s1]. reflexivity. Qed.

Lemma getApp_run (a : NotesApp) (w : World) : getApp (a, w) = (a, (a, w)).
Proof. reflexivity. Qed.

Lemma getWorld_run (a : NotesApp) (w : World) : getWorld (a, w) = (w, (a, w)).
Proof. reflexivity. Qed.

Lemma Print_run (m : message) (a : NotesApp) (w : World) :
  Print m (a, w) = (tt, (a, set_stdout (stdout w ++ [m]) w)).
Proof. reflexivity. Qed.

Lemma Now_run (a : NotesApp) (w : World) :
  Now (a, w) = (clock w (ticks w), (a, set_ticks (S (ticks w)) w)).
Proof. reflexivity. Qed.

Lemma ReadString_run (a : NotesApp) (w : World) :
  ReadString (a, w)
  = (hd EmptyString (stdin w), (a, set_stdin (tl (stdin w)) w)).
Proof. reflexivity. Qed.

Lemma modNote_run (i : nat) (f : Note -> Note) (a : NotesApp) (w : World) :
  modNote i f (a, w) = (tt, (set_Notes (alter f i (Notes a)) a, w)).
Proof. reflexivity. Qed.

Lemma skip_run (a : NotesApp) (w : World) : skip (a, w) = (tt, (a, w)).
Proof. reflexivity. Qed.

Lemma SaveNotes_run (a : NotesApp) (w : World) :
  SaveNotes (a, w) = (tt, (a, saved a w)).
Proof.
  unfold SaveNotes, saved, WriteFile, Print, bind, getApp, getWorld, putWorld, ret,
    skip.
  cbn [fst snd]. destruct (writable w); reflexivity.
Qed.

Ltac prim :=
  first [ apply getApp_run | apply getWorld_run | apply Print_run | apply Now_run
        | apply ReadString_run | apply modNote_run | apply skip_run
        | apply SaveNotes_run ].

(** Run the next action of a sequence. *)
Ltac mstep := first [ erewrite bind_pair by prim | rewrite bind_assoc ]; cbv beta.

(** Read the fields of a world that was updated. *)
Ltac wsimp :=
  cbn [stdin stdout clock ticks layout tool disk writable home GOOS lowerCase
       set_stdin set_stdout set_ticks set_tool set_disk].

(** The last action of a sequence. *)
Ltac mlast :=
  first [ rewrite Print_run | rewrite modNote_run | rewrite skip_run
        | rewrite SaveNotes_run ].

Lemma alter_same {A : Type} (f : A -> A) (i : nat) (l : list A) (x y : A) :
  l !! i = Some x -> y = f x -> alter f i l = <[i := y]> l.
Proof.
  intros H ->. revert i H.
  induction l as [|z l IH]; intros [|i]; simpl; try discriminate.
  - intros [= ->]. reflexivity.
  - intros H. f_equal. apply IH, H.
Qed.

Lemma alter_alter {A : Type} (f g : A -> A) (i : nat) (l : list A) :
  alter f i (alter g i l) = alter (fun x => f (g x)) i l.
Proof.
  revert i. induction l as [|y l IH]; intros [|i]; simpl; try reflexivity.
  f_equal. apply IH.
Qed.

Lemma set_Notes_same (a : NotesApp) : set_Notes (Notes a) a = a.
Proof. destruct a. reflexivity. Qed.

(** A "keep current" question, answered: the note is replaced by what
    [keepOr] makes of it. *)
Lemma answer_run (i : nat) (set : string -> Note -> Note) (answer : string)
      (a : NotesApp) (w : World) :
  (if negb (isEmpty (Strings.TrimSpace answer))
   then modNote i (set (Strings.TrimSpace answer)) else skip) (a, w)
  = (tt, (set_Notes (alter (keepOr set answer) i (Notes a)) a, w)).
Proof.
  unfold keepOr. destruct (isEmpty (Strings.TrimSpace answer)); cbn [negb].
  - rewrite skip_run, list_alter_id by reflexivity.
    rewrite set_Notes_same. reflexivity.
  - apply modNote_run.
Qed.

Ltac answered :=
  first [ erewrite bind_pair by (apply (answer_run _ set_Title))
        | erewrite bind_pair by (apply (answer_run _ set_Content))
        | erewrite bind_pair
            by (apply (answer_run _ (fun v => set_Tags (parseTags v)))) ];
  cbv beta.

Lemma EditScroll_notes (a : NotesApp) (w : World) (id : Z) (i : nat) (note : Note) :
  findNote id (Notes a) = Some (i, note) ->
  Notes (app_after (EditScroll id) a w) = <[i := editedNote w note]> (Notes a).
Proof.
  intros Hfind. destruct (findNote_lookup _ _ _ _ Hfind) as [Hi _].
  unfold app_after, EditScroll. mstep. rewrite Hfind. mstep.
  unfold editedNote, nthLine, editTitle. cbn [dropLines].
  destruct (String.eqb (Type_ note) "text").
  - repeat first [ mstep | answered ]. mlast.
    cbn [fst snd Notes set_Notes clock ticks stdin set_stdout set_stdin].
    rewrite !alter_alter.
    apply alter_same with (x := note); [exact Hi | reflexivity].
  - repeat first [ mstep | answered ]. mlast.
    cbn [fst snd Notes set_Notes clock ticks stdin set_stdout set_stdin].
    rewrite !alter_alter.
    apply alter_same with (x := note); [exact Hi | reflexivity].
Qed.

Lemma editedNote_times (w : World) (n : Note) :
  UpdatedAt (editedNote w n) = clock w (ticks w)
  /\ CreatedAt (editedNote w n) = CreatedAt n
  /\ ID (editedNote w n) = ID n
  /\ Type_ (editedNote w n) = Type_ n.
Proof.
  unfold editedNote, keepOr.
  destruct (String.eqb (Type_ n) "text");
    repeat match goal with
           | |- context [isEmpty ?s] => destruct (isEmpty s)
           end;
    repeat split.
Qed.

(** C8, refuted as stated: an edit that keeps title, content and tags
    still moves [UpdatedAt], here from 1001 to 1002, and rewrites the
    document.  (And the new value is the reading of the clock, whatever it
    is: on a host whose clock was set back, an edit of the title takes
    [UpdatedAt] from 1001 to 500.) *)
Lemma C8_noop_edit_bumps :
  Notes Demo.app1 = [Demo.gate]
  /\ Notes NoOpEdit.after = [set_UpdatedAt 1002 Demo.gate]
  /\ UpdatedAt (set_UpdatedAt 1002 Demo.gate) <> UpdatedAt Demo.gate
  /\ disk (world_after (EditScroll 1) Demo.app1 NoOpEdit.w)
       !! configPath NoOpEdit.w
     = Some (Readable (MarshalIndent NoOpEdit.after))
  /\ Notes (app_after (EditScroll 1) Demo.app1 NoOpEdit.setBack)
     = [set_UpdatedAt 500 (set_Title "Gate" Demo.gate)].
Proof.
  splits; try (vm_compute; reflexivity). vm_compute. discriminate.
Qed.

Lemma EditScroll_found (a : NotesApp) (w : World) (id : Z) (i : nat) (note : Note) :
  findNote id (Notes a) = Some (i, note) ->
  exists out w1,
    snd (EditScroll id (a, w))
    = (set_Notes (<[i := editedNote w note]> (Notes a)) a,
       set_stdout out (saved (set_Notes (<[i := editedNote w note]> (Notes a)) a) w1))
    /\ writable w1 = writable w /\ disk w1 = disk w.
Proof.
  intros Hfind. destruct (findNote_lookup _ _ _ _ Hfind) as [Hi _].
  unfold EditScroll. mstep. rewrite Hfind. mstep.
  unfold editedNote, nthLine, editTitle. cbn [dropLines].
  destruct (String.eqb (Type_ note) "text").
  - repeat first [ mstep | answered ]. mlast.
    cbn [fst snd Notes set_Notes clock ticks stdin set_stdout set_stdin].
    rewrite !alter_alter.
    erewrite (alter_same _ i (Notes a) note) by (first [exact Hi | reflexivity]).
    eexists. eexists. split; [reflexivity | split; reflexivity].
  - repeat first [ mstep | answered ]. mlast.
    cbn [fst snd Notes set_Notes clock ticks stdin set_stdout set_stdin].
    rewrite !alter_alter.
    erewrite (alter_same _ i (Notes a) note) by (first [exact Hi | reflexivity]).
    eexists. eexists. split; [reflexivity | split; reflexivity].
Qed.

(** C8, amended: every edit of an existing note, the one that keeps all
    fields included, puts in its place the note as edited, whose
    [UpdatedAt] is the reading of the clock, and rewrites the document
    where the file can be written.  The new value is not before the
    previous [UpdatedAt] when the clock is not, and differs from
    [CreatedAt] when the reading of the clock does.  Identity, creation time
    and kind of the note stay, and so do the other notes and the other
    files. *)
Theorem C8_edit_sets_updatedAt_to_now (a : NotesApp) (w : World) (id : Z)
        (i : nat) (note : Note) :
  findNote id (Notes a) = Some (i, note) ->
  let a' := app_after (EditScroll id) a w in
  let w' := world_after (EditScroll id) a w in
  exists note',
    a' = set_Notes (<[i := note']> (Notes a)) a
    /\ Notes a' !! i = Some note'
    /\ UpdatedAt note' = clock w (ticks w)
    /\ (UpdatedAt note <= clock w (ticks w) -> UpdatedAt note <= UpdatedAt note')
    /\ (CreatedAt note <> clock w (ticks w) -> UpdatedAt note' <> CreatedAt note')
    /\ ID note' = ID note /\ CreatedAt note' = CreatedAt note
    /\ Type_ note' = Type_ note
    /\ (forall j, j <> i -> Notes a' !! j = Notes a !! j)
    /\ (writable w = true ->
        disk w' = <[ConfigFile a := Readable (MarshalIndent a')]> (disk w))
    /\ (writable w = false -> disk w' = disk w).
Proof.
  intros Hfind a' w'. subst a' w'. unfold app_after, world_after.
  destruct (findNote_lookup _ _ _ _ Hfind) as [Hi _].
  destruct (editedNote_times w note) as [Hup [Hcr [Hid Hkind]]].
  destruct (EditScroll_found a w id i note Hfind) as (out & w1 & -> & Hw & Hd).
  exists (editedNote w note). cbn [fst snd Notes set_Notes]. splits.
  - reflexivity.
  - apply list_lookup_insert_eq. apply lookup_lt_Some in Hi. exact Hi.
  - exact Hup.
  - rewrite Hup. auto.
  - rewrite Hup, Hcr. auto.
  - exact Hid.
  - exact Hcr.
  - exact Hkind.
  - intros j Hj. apply list_lookup_insert_ne. auto.
  - intros Hwr. unfold saved. rewrite Hw, Hwr. cbn [disk set_stdout set_disk].
    rewrite Hd. reflexivity.
  - intros Hwr. unfold saved. rewrite Hw, Hwr. cbn [disk set_stdout set_disk].
    exact Hd.
Qed.

Lemma C8_edit_sets_updatedAt_to_now_witness :
  findNote 1 (Notes Demo.app1) = Some (0%nat, Demo.gate)
  /\ exists note',
       Notes (app_after (EditScroll 1) Demo.app1 NoOpEdit.w) !! 0%nat = Some note'
       /\ UpdatedAt note' = clock NoOpEdit.w (ticks NoOpEdit.w).
Proof.
  assert (Hfind : findNote 1 (Notes Demo.app1) = Some (0%nat, Demo.gate))
    by (vm_compute; reflexivity).
  split; [exact Hfind |].
  destruct (C8_edit_sets_updatedAt_to_now Demo.app1 NoOpEdit.w 1 0%nat Demo.gate Hfind)
    as [note' [_ [H1 [H2 _]]]].
  exists note'. split; [exact H1 | exact H2].
Defined.

(** ** C10: retitle with a blank answer *)

(** C10: when the answer to the retitle question is empty or white space
    only, the store is left as it was (the title and [UpdatedAt] of the note
    and every other note), the clock is not read and the disk is not
    written; the program says that the title is unchanged. *)
Theorem C10_blank_retitle_changes_nothing (a : NotesApp) (w : World) (id : Z)
        (i : nat) (note : Note) :
  findNote id (Notes a) = Some (i, note) ->
  Blank (Strings.bytes (nthLine 0 w)) ->
  app_after (RetitleScroll id) a w = a
  /\ disk (world_after (RetitleScroll id) a w) = disk w
  /\ ticks (world_after (RetitleScroll id) a w) = ticks w
  /\ List.last (stdout (world_after (RetitleScroll id) a w)) NoScrolls
     = TitleUnchanged.
Proof.
  intros Hfind Hblank. apply TrimSpace_Blank in Hblank.
  unfold nthLine in Hblank. cbn [dropLines] in Hblank.
  unfold RetitleScroll. run_M. rewrite Hfind. run_M.
  rewrite Hblank. change (isEmpty EmptyString) with true. run_M.
  rewrite last_last. repeat split.
Qed.

Lemma C10_blank_retitle_changes_nothing_witness :
  let a := Demo.app1 in
  let w := set_stdin ["   "] Demo.world1 in
  findNote 1 (Notes a) = Some (0%nat, Demo.gate)
  /\ Blank (Strings.bytes (nthLine 0 w))
  /\ app_after (RetitleScroll 1) a w = a
  /\ disk (world_after (RetitleScroll 1) a w) = disk w.
Proof.
  intros a w.
  assert (Hfind : findNote 1 (Notes a) = Some (0%nat, Demo.gate))
    by (vm_compute; reflexivity).
  assert (Hblank : Blank (Strings.bytes (nthLine 0 w))).
  { repeat (apply Blank_1; [reflexivity |]). apply Blank_nil. }
  destruct (C10_blank_retitle_changes_nothing a w 1 0%nat Demo.gate Hfind Hblank)
    as [Ha [Hd _]].
  exact (conj Hfind (conj Hblank (conj Ha Hd))).
Defined.

(** ** The data model is kept

    The match policy of the specification looks at the content of text
    notes only, the code at the content of every note.  The two agree on
    the stores the program builds, since no operation gives content to a
    note that is not a text note. *)

Lemma data_model_nil : content_on_text_only [].
Proof. intros n []. Qed.

Lemma data_model_snoc (l : list Note) (note : Note) :
  (Type_ note <> "text" -> Content note = EmptyString) ->
  content_on_text_only l -> content_on_text_only (l ++ [note]).
Proof.
  intros Hnote Hl n Hin. apply in_app_or in Hin as [Hin | [<- | []]].
  - apply Hl, Hin.
  - exact Hnote.
Qed.

Lemma data_model_perm (l l' : list Note) :
  Permutation l' l -> content_on_text_only l -> content_on_text_only l'.
Proof. intros Hp Hl n Hin. apply Hl. eapply Permutation_in; eassumption. Qed.

Lemma data_model_insert (l : list Note) (i : nat) (x y : Note) :
  l !! i = Some x ->
  Type_ y = Type_ x ->
  (Type_ x <> "text" -> Content y = Content x) ->
  content_on_text_only l -> content_on_text_only (<[i := y]> l).
Proof.
  revert i. induction l as [|z l IH]; intros [|i] Hi Ht Hc Hl n Hin Hn;
    simpl in *; try discriminate.
  - injection Hi as ->. destruct Hin as [<- | Hin].
    + rewrite Ht in Hn. rewrite (Hc Hn). apply Hl; [left; reflexivity | exact Hn].
    + apply Hl; [right; exact Hin | exact Hn].
  - destruct Hin as [<- | Hin].
    + apply Hl; [left; reflexivity | exact Hn].
    + apply (IH i Hi Ht Hc); [| exact Hin | exact Hn].
      intros m Hm. apply Hl. right. exact Hm.
Qed.

Lemma CreateTextNote_keeps_data_model (title content : string) (tags : list string)
      (a : NotesApp) (w : World) :
  content_on_text_only (Notes a) ->
  content_on_text_only (Notes (app_after (CreateTextNote title content tags) a w)).
Proof.
  intros H. rewrite CreateTextNote_app. cbn [Notes].
  apply data_model_snoc; [| exact H]. intros Hkind. exfalso. apply Hkind. reflexivity.
Qed.

Lemma TakeScreenshot_notes (title : string) (tags : list string)
      (a : NotesApp) (w : World) :
  Notes (app_after (TakeScreenshot title tags) a w) = Notes a
  \/ exists note,
       Content note = EmptyString
       /\ Notes (app_after (TakeScreenshot title tags) a w) = Notes a ++ [note].
Proof.
  unfold TakeScreenshot. run_M.
  destruct (supported (GOOS w)); run_M; [| left; reflexivity].
  destruct (tool w) as [|[ok wrote] rest]; run_M; [left; reflexivity |].
  destruct ok, wrote; run_M; try (left; reflexivity);
    match goal with
    | |- context [match ?d !! ?p with _ => _ end] => destruct (d !! p)
    end; run_M; try (left; reflexivity);
    right; eexists; (split; [| destruct (writable w); run_M; reflexivity]);
    reflexivity.
Qed.

Lemma TakeScreenshot_keeps_data_model (title : string) (tags : list string)
      (a : NotesApp) (w : World) :
  content_on_text_only (Notes a) ->
  content_on_text_only (Notes (app_after (TakeScreenshot title tags) a w)).
Proof.
  intros H. destruct (TakeScreenshot_notes title tags a w) as [-> | [note [Hc ->]]].
  - exact H.
  - apply data_model_snoc; [intros _; exact Hc | exact H].
Qed.

Lemma ListNotes_keeps_data_model (a : NotesApp) (w : World) :
  content_on_text_only (Notes a) ->
  content_on_text_only (Notes (app_after ListNotes a w)).
Proof.
  intros H. rewrite ListNotes_app. eapply data_model_perm; [| exact H].
  apply sort_Slice_perm.
Qed.

Lemma editedNote_content (w : World) (n : Note) :
  Type_ n <> "text" -> Content (editedNote w n) = Content n.
Proof.
  intros H. apply String.eqb_neq in H. unfold editedNote, keepOr. rewrite H.
  repeat match goal with
         | |- context [isEmpty ?s] => destruct (isEmpty s)
         end;
    reflexivity.
Qed.

Lemma EditScroll_missing (a : NotesApp) (w : World) (id : Z) :
  findNote id (Notes a) = None -> app_after (EditScroll id) a w = a.
Proof.
  intros H. unfold app_after, EditScroll. mstep. rewrite H. mlast. reflexivity.
Qed.

Lemma EditScroll_keeps_data_model (id : Z) (a : NotesApp) (w : World) :
  content_on_text_only (Notes a) ->
  content_on_text_only (Notes (app_after (EditScroll id) a w)).
Proof.
  intros H. destruct (findNote id (Notes a)) as [[i note]|] eqn:Hfind.
  - rewrite (EditScroll_notes _ _ _ _ _ Hfind).
    destruct (findNote_lookup _ _ _ _ Hfind) as [Hi _].
    apply (data_model_insert _ _ note); try assumption.
    + apply editedNote_times.
    + apply editedNote_content.
  - rewrite (EditScroll_missing _ _ _ Hfind). exact H.
Qed.

(** [RetitleScroll] and [RecaptureImage] put in place of the note they
    find a note of the same kind and content, or leave the store alone. *)
Lemma RetitleScroll_notes (a : NotesApp) (w : World) (id : Z) :
  Notes (app_after (RetitleScroll id) a w) = Notes a
  \/ exists i x y,
       Notes a !! i = Some x /\ Type_ y = Type_ x /\ Content y = Content x
       /\ Notes (app_after (RetitleScroll id) a w) = <[i := y]> (Notes a).
Proof.
  unfold app_after, RetitleScroll. mstep.
  destruct (findNote id (Notes a)) as [[i note]|] eqn:Hfind;
    [| left; mlast; reflexivity].
  destruct (findNote_lookup _ _ _ _ Hfind) as [Hi _].
  do 3 mstep. destruct (isEmpty (Strings.TrimSpace _)); cbn [negb];
    [left; mlast; reflexivity |].
  right. exists i, note. eexists. split; [exact Hi |].
  repeat mstep. mlast. cbn [fst snd Notes set_Notes]. rewrite alter_alter.
  split; [| split; [| apply alter_same with (x := note); [exact Hi | reflexivity]]];
    reflexivity.
Qed.

Lemma RetitleScroll_keeps_data_model (id : Z) (a : NotesApp) (w : World) :
  content_on_text_only (Notes a) ->
  content_on_text_only (Notes (app_after (RetitleScroll id) a w)).
Proof.
  intros H.
  destruct (RetitleScroll_notes a w id) as [-> | [i [x [y [Hi [Ht [Hc ->]]]]]]].
  - exact H.
  - apply (data_model_insert _ _ x); auto.
Qed.

Lemma RecaptureImage_notes (a : NotesApp) (w : World) (id : Z) :
  Notes (app_after (RecaptureImage id) a w) = Notes a
  \/ exists i x y,
       Notes a !! i = Some x /\ Type_ y = Type_ x /\ Content y = Content x
       /\ Notes (app_after (RecaptureImage id) a w) = <[i := y]> (Notes a).
Proof.
  unfold app_after, RecaptureImage. mstep.
  destruct (findNote id (Notes a)) as [[i note]|] eqn:Hfind;
    [| left; mlast; reflexivity].
  destruct (findNote_lookup _ _ _ _ Hfind) as [Hi _].
  destruct (String.eqb (Type_ note) "screenshot"); cbn [negb];
    [| left; mlast; reflexivity].
  do 4 mstep. wsimp.
  destruct (supported (GOOS w)); cbn [negb]; [| left; mlast; reflexivity].
  mstep. run_M.
  destruct (tool w) as [|[ok wrote] rest]; run_M; [left; reflexivity |].
  destruct ok, wrote; run_M; try (left; reflexivity);
    match goal with
    | |- context [match ?d !! ?p with _ => _ end] => destruct (d !! p) eqn:Hnew
    end; run_M; try (left; reflexivity);
    right; exists i, note; eexists; (split; [exact Hi |]);
    (destruct (isYes _ && negb (isEmpty (FilePath note))); run_M;
     [ match goal with
       | |- context [match ?d !! ?p with _ => _ end] => destruct (d !! p)
       end; run_M |]);
    destruct (writable w); run_M; rewrite !alter_alter;
    (split; [| split; [| apply alter_same with (x := note);
                         [exact Hi | reflexivity]]]); reflexivity.
Qed.

Lemma RecaptureImage_keeps_data_model (id : Z) (a : NotesApp) (w : World) :
  content_on_text_only (Notes a) ->
  content_on_text_only (Notes (app_after (RecaptureImage id) a w)).
Proof.
  intros H.
  destruct (RecaptureImage_notes a w id) as [-> | [i [x [y [Hi [Ht [Hc ->]]]]]]].
  - exact H.
  - apply (data_model_insert _ _ x); auto.
Qed.

(** The store of a session that began with no document satisfies the
    data model the match policy relies on. *)
Lemma fresh_store_data_model (w : World) : content_on_text_only (Notes (freshApp w)).
Proof. apply data_model_nil. Qed.

(** * The other operations and the loop of [Run] *)

Lemma Say_run (text : string) (a : NotesApp) (w : World) :
  Say text (a, w) = (tt, (a, set_stdout (stdout w ++ [Prompt text]) w)).
Proof. reflexivity. Qed.

Lemma removeAt_run (i : nat) (a : NotesApp) (w : World) :
  removeAt i (a, w) = (tt, (without i a, w)).
Proof. reflexivity. Qed.

Lemma ret_run {A : Type} (x : A) (s : NotesApp * World) : ret x s = (x, s).
Proof. reflexivity. Qed.

Lemma putApp_run (a' a : NotesApp) (w : World) : putApp a' (a, w) = (tt, (a', w)).
Proof. reflexivity. Qed.

Lemma putWorld_run (w' : World) (a : NotesApp) (w : World) :
  putWorld w' (a, w) = (tt, (a, w')).
Proof. reflexivity. Qed.

Lemma Remove_run (path : string) (a : NotesApp) (w : World) :
  Remove path (a, w)
  = (match disk w !! path with None => false | Some _ => true end,
     (a, match disk w !! path with
         | None => w
         | Some _ => set_disk (delete path (disk w)) w
         end)).
Proof.
  unfold Remove, bind, getWorld, putWorld, ret. cbn [fst snd].
  destruct (disk w !! path); reflexivity.
Qed.

Lemma RunCapture_run (path : string) (a : NotesApp) (w : World) :
  RunCapture path (a, w)
  = (match tool w with [] => false | o :: _ => tool_ok o end,
     (a, match tool w with
         | [] => w
         | o :: rest =>
             set_tool rest
               (if tool_wrote o
                then set_disk (<[path := Readable Malformed]> (disk w)) w
                else w)
         end)).
Proof.
  unfold RunCapture, bind, getWorld, putWorld, ret. cbn [fst snd].
  destruct (tool w); reflexivity.
Qed.

Lemma IsNotExist_run (path : string) (a : NotesApp) (w : World) :
  IsNotExist path (a, w)
  = (match disk w !! path with None => true | Some _ => false end, (a, w)).
Proof. reflexivity. Qed.

Ltac prim2 :=
  lazymatch goal with
  | |- RunCapture _ _ = _ => apply RunCapture_run
  | |- IsNotExist _ _ = _ => apply IsNotExist_run
  | |- Remove _ _ = _ => apply Remove_run
  | |- putWorld _ _ = _ => apply putWorld_run
  | |- ret _ _ = _ => apply ret_run
  | |- Say _ _ = _ => apply Say_run
  | |- removeAt _ _ = _ => apply removeAt_run
  | |- putApp _ _ = _ => apply putApp_run
  | |- getApp _ = _ => apply getApp_run
  | |- getWorld _ = _ => apply getWorld_run
  | |- Print _ _ = _ => apply Print_run
  | |- Now _ = _ => apply Now_run
  | |- ReadString _ = _ => apply ReadString_run
  | |- modNote _ _ _ = _ => apply modNote_run
  | |- skip _ = _ => apply skip_run
  | |- SaveNotes _ = _ => apply SaveNotes_run
  end.
Ltac mstep2 := first [ erewrite bind_pair by prim2 | rewrite bind_assoc ]; cbv beta.
Ltac mlast2 := first [ mlast | rewrite Say_run | rewrite removeAt_run | rewrite ret_run ].

Ltac run_M2 := repeat progress (unfold Say, removeAt in *; run_M).


Lemma persisted_saved (a : NotesApp) (w : World) (out : list message) :
  writable w = true -> persisted a (set_stdout out (saved a w)).
Proof.
  intros H. unfold persisted, saved. rewrite H. cbn [disk set_stdout set_disk].
  apply lookup_insert_eq.
Qed.

Lemma sayLines_run (lines : list string) (a : NotesApp) (w : World) :
  sayLines lines (a, w)
  = (tt, (a, set_stdout (stdout w ++ map (fun l => Prompt (line l)) lines) w)).
Proof.
  revert w. induction lines as [|l rest IH]; intros w; cbn [sayLines map].
  - rewrite app_nil_r. destruct w; reflexivity.
  - mstep2. rewrite IH. cbn [stdout set_stdout]. rewrite <- app_assoc. reflexivity.
Qed.

Lemma ShowHelp_run (a : NotesApp) (w : World) :
  ShowHelp (a, w)
  = (tt, (a, set_stdout (stdout w ++ map (fun l => Prompt (line l)) helpLines) w)).
Proof. apply sayLines_run. Qed.

Lemma set_Notes_twice (l l' : list Note) (a : NotesApp) :
  set_Notes l (set_Notes l' a) = set_Notes l a.
Proof. reflexivity. Qed.

Lemma ViewNote_state (h : Host) (id : Z) (a : NotesApp) (w : World) :
  let s' := snd (ViewNote h id (a, w)) in
  fst s' = a /\ disk (snd s') = disk w /\ ticks (snd s') = ticks w
  /\ tool (snd s') = tool w /\ writable (snd s') = writable w
  /\ (stdin (snd s') = stdin w \/ stdin (snd s') = tl (stdin w)).
Proof.
  unfold ViewNote, openFile. run_M2.
  destruct (findNote id (Notes a)) as [[i note]|]; run_M2; [| repeat split; auto].
  destruct (Tags note); run_M2;
    (destruct (String.eqb (Type_ note) "text"); run_M2; [repeat split; auto |]);
    (destruct (isYes _); run_M2; [| repeat split; auto]);
    (destruct (supported (GOOS w)); run_M2; [| repeat split; auto]);
    (destruct (opening h (FilePath note)); run_M2; repeat split; auto).
Qed.

Lemma snd_then_ret {A B : Type} (m : M A) (f : A -> B) (s : NotesApp * World) :
  snd (bind m (fun x => ret (f x)) s) = snd (m s).
Proof. unfold bind, ret. destruct (m s) as [x s1]. reflexivity. Qed.

Lemma In_without (l : list Note) (i : nat) (n : Note) :
  In n (take i l ++ drop (S i) l) -> In n l.
Proof.
  intros H. apply in_app_or in H as [H | H].
  - rewrite <- (take_drop i l). apply in_or_app. left. exact H.
  - rewrite <- (take_drop (S i) l). apply in_or_app. right. exact H.
Qed.

Lemma without_sublist {A : Type} (l : list A) (i : nat) :
  sublist (take i l ++ drop (S i) l) l.
Proof.
  revert i. induction l as [|x l IH]; intros [|i]; simpl.
  - constructor.
  - constructor.
  - rewrite drop_0. apply sublist_cons. reflexivity.
  - apply sublist_skip. apply IH.
Qed.

Lemma In_insert (l : list Note) (i : nat) (x y n : Note) :
  l !! i = Some x -> In n (<[i := y]> l) -> n = y \/ In n l.
Proof.
  revert i. induction l as [|z l IH]; intros [|i] Hi Hin; simpl in *;
    try discriminate.
  - destruct Hin as [<- | Hin]; auto.
  - destruct Hin as [<- | Hin]; auto.
    destruct (IH i Hi Hin); auto.
Qed.

Lemma map_ID_insert (l : list Note) (i : nat) (x y : Note) :
  l !! i = Some x -> ID y = ID x -> map ID (<[i := y]> l) = map ID l.
Proof.
  revert i. induction l as [|z l IH]; intros [|i] Hi Hy; simpl in *;
    try discriminate.
  - injection Hi as ->. rewrite Hy. reflexivity.
  - f_equal. apply IH; assumption.
Qed.

Lemma Run_loop_S (h : Host) (fuel : nat) (s : NotesApp * World) :
  Run_loop h (S fuel) s
  = match fst (Run_command h s) with
    | None => Run_loop h fuel (snd (Run_command h s))
    | Some e => (Some e, snd (Run_command h s))
    end.
Proof.
  cbn [Run_loop]. unfold bind. destruct (Run_command h s) as [[e|] s']; reflexivity.
Qed.

(** ** Erasing a note *)

Lemma findFrom_split (k : nat) (id : Z) (l : list Note) (i : nat) (note : Note) :
  findFrom k id l = Some (i, note) ->
  exists pre post,
    l = pre ++ note :: post /\ Forall (fun n => ID n <> id) pre
    /\ ID note = id /\ i = (k + length pre)%nat.
Proof.
  revert k. induction l as [|n l IH]; intros k; simpl.
  - discriminate.
  - destruct (ID n =? id) eqn:E.
    + intros [= <- <-]. apply Z.eqb_eq in E. exists [], l. simpl.
      repeat split; auto; lia.
    + intros H. apply IH in H as [pre [post [-> [Hpre [Hid ->]]]]].
      apply Z.eqb_neq in E. exists (n :: pre), post. simpl.
      repeat split; auto; lia.
Qed.

Lemma findNote_split (id : Z) (l : list Note) (i : nat) (note : Note) :
  findNote id l = Some (i, note) ->
  exists pre post,
    l = pre ++ note :: post /\ Forall (fun n => ID n <> id) pre
    /\ ID note = id /\ i = length pre.
Proof. intros H. apply findFrom_split in H. exact H. Qed.

Lemma findFrom_none (k : nat) (id : Z) (l : list Note) :
  Forall (fun n => ID n <> id) l -> findFrom k id l = None.
Proof.
  revert k. induction l as [|n l IH]; intros k H; simpl; [reflexivity |].
  inversion H as [|? ? Hn Hl]; subst. apply Z.eqb_neq in Hn. rewrite Hn.
  apply IH, Hl.
Qed.

Lemma findFrom_any (k k' : nat) (id : Z) (l : list Note) (j : nat) (n : Note) :
  findFrom k id l = Some (j, n) -> exists j', findFrom k' id l = Some (j', n).
Proof.
  revert k k'. induction l as [|x l IH]; intros k k'; simpl; [discriminate |].
  destruct (ID x =? id); [intros [= <- <-]; eauto |]. apply IH.
Qed.

Lemma findFrom_skip (k : nat) (id : Z) (pre post : list Note) (x : Note) (j : nat)
      (n : Note) :
  ID x <> id ->
  findFrom k id (pre ++ x :: post) = Some (j, n) ->
  exists j', findFrom k id (pre ++ post) = Some (j', n).
Proof.
  intros Hx. revert k. induction pre as [|p pre IH]; intros k; simpl.
  - apply Z.eqb_neq in Hx. rewrite Hx. apply findFrom_any.
  - destruct (ID p =? id); [intros [= <- <-]; eauto |]. apply IH.
Qed.

Lemma without_middle (pre post : list Note) (x : Note) :
  take (length pre) (pre ++ x :: post) ++ drop (S (length pre)) (pre ++ x :: post)
  = pre ++ post.
Proof.
  rewrite take_app_length.
  replace (S (length pre)) with (length (pre ++ [x]))
    by (rewrite length_app; simpl; lia).
  replace (pre ++ x :: post) with ((pre ++ [x]) ++ post)
    by (rewrite <- app_assoc; reflexivity).
  rewrite drop_app_length. reflexivity.
Qed.

Lemma DeleteNote_found (h : Host) (a : NotesApp) (w : World) (id : Z) (i : nat)
      (note : Note) :
  findNote id (Notes a) = Some (i, note) ->
  exists out w1,
    snd (DeleteNote h id (a, w)) = (without i a, set_stdout out (saved (without i a) w1))
    /\ writable w1 = writable w
    /\ disk w1 = if destroys w note then delete (FilePath note) (disk w) else disk w.
Proof.
  intros Hfind. unfold DeleteNote, destroys, nthLine. cbn [dropLines]. mstep.
  rewrite Hfind. destruct (String.eqb (Type_ note) "screenshot"); cbn [andb].
  - do 6 mstep2. wsimp. destruct (isYes _).
    + mstep2. erewrite bind_pair by (apply Remove_run). wsimp.
      destruct (disk w !! FilePath note) eqn:Hf.
      * repeat mstep2. mlast2. cbn [snd]. eexists. eexists.
        split; [reflexivity | split; reflexivity].
      * repeat mstep2. mlast2. cbn [snd]. eexists. eexists.
        split; [reflexivity | split; [reflexivity |]].
        wsimp. symmetry. apply delete_id, Hf.
    + repeat mstep2. mlast2. cbn [snd]. eexists. eexists.
      split; [reflexivity | split; reflexivity].
  - repeat mstep2. mlast2. cbn [snd]. eexists. eexists.
    split; [reflexivity | split; reflexivity].
Qed.

Lemma DeleteNote_app (h : Host) (a : NotesApp) (w : World) (id : Z) (i : nat)
      (note : Note) :
  findNote id (Notes a) = Some (i, note) ->
  app_after (DeleteNote h id) a w = without i a.
Proof.
  intros Hfind. unfold app_after.
  destruct (DeleteNote_found h a w id i note Hfind) as [out [w1 [-> _]]].
  reflexivity.
Qed.

(** X1: [DeleteNote] with an ID the store has removes the first note with
    that ID and no other: the notes before it and the notes after it stay,
    in their order, and the counter and the two paths are as they were. *)
Theorem DeleteNote_removes_first_match (h : Host) (a : NotesApp) (w : World)
        (id : Z) (i : nat) (note : Note) :
  findNote id (Notes a) = Some (i, note) ->
  exists pre post,
    Notes a = pre ++ note :: post
    /\ Forall (fun n => ID n <> id) pre
    /\ app_after (DeleteNote h id) a w = set_Notes (pre ++ post) a.
Proof.
  intros Hfind. rewrite (DeleteNote_app h a w id i note Hfind).
  destruct (findNote_split _ _ _ _ Hfind) as [pre [post [Hl [Hpre [_ ->]]]]].
  exists pre, post. splits; auto.
  unfold without. rewrite Hl, without_middle. reflexivity.
Qed.

Lemma DeleteNote_removes_first_match_witness :
  findNote 1 (Notes Demo.app2) = Some (0%nat, Demo.gate)
  /\ exists pre post,
       Notes Demo.app2 = pre ++ Demo.gate :: post
       /\ Forall (fun n => ID n <> 1) pre
       /\ app_after (DeleteNote Session.host 1) Demo.app2 Session.world2
          = set_Notes (pre ++ post) Demo.app2.
Proof.
  assert (Hfind : findNote 1 (Notes Demo.app2) = Some (0%nat, Demo.gate))
    by (vm_compute; reflexivity).
  exact (conj Hfind
           (DeleteNote_removes_first_match Session.host Demo.app2 Session.world2 1
              0%nat Demo.gate Hfind)).
Defined.

Lemma ViewNote_missing (h : Host) (a : NotesApp) (w : World) (id : Z) :
  findNote id (Notes a) = None ->
  ViewNote h id (a, w) = (Returned, (a, notFound id w)).
Proof. intros H. unfold ViewNote. mstep. rewrite H. mstep2. mlast2. reflexivity. Qed.

(** X2: in a store whose IDs differ from one another, once [DeleteNote]
    has removed a note its ID is found no more: [ViewNote] with that ID
    prints that the scroll is not found and changes nothing.  Every note
    with another ID is still found, as it was. *)
Theorem DeleteNote_then_not_found (h : Host) (a : NotesApp) (w : World)
        (id : Z) (i : nat) (note : Note) :
  NoDup (map ID (Notes a)) ->
  findNote id (Notes a) = Some (i, note) ->
  let a' := app_after (DeleteNote h id) a w in
  let w' := world_after (DeleteNote h id) a w in
  findNote id (Notes a') = None
  /\ ViewNote h id (a', w') = (Returned, (a', notFound id w'))
  /\ forall id' j n, id' <> id -> findNote id' (Notes a) = Some (j, n) ->
       exists j', findNote id' (Notes a') = Some (j', n).
Proof.
  intros Hdup Hfind a' w'. subst a'.
  rewrite (DeleteNote_app h a w id i note Hfind).
  destruct (findNote_split _ _ _ _ Hfind) as [pre [post [Hl [Hpre [Hid ->]]]]].
  unfold without. rewrite Hl, without_middle. cbn [Notes set_Notes].
  assert (Hnone : findNote id (pre ++ post) = None).
  { apply findFrom_none, Forall_app. split; [exact Hpre |].
    rewrite Hl, map_app in Hdup. cbn [map] in Hdup.
    apply NoDup_app in Hdup as (_ & _ & Hdup). apply NoDup_cons in Hdup as [Hnot _].
    apply List.Forall_forall. intros n Hn Heq. apply Hnot.
    apply list_elem_of_In, in_map_iff. exists n. split; [congruence | exact Hn]. }
  splits.
  - exact Hnone.
  - apply ViewNote_missing. exact Hnone.
  - intros id' j n Hne Hj.
    apply (findFrom_skip 0 id' pre post note j n); [congruence | exact Hj].
Qed.

Lemma DeleteNote_then_not_found_witness :
  NoDup (map ID (Notes Demo.app2))
  /\ findNote 2 (Notes Demo.app2) = Some (1%nat, Demo.chart)
  /\ findNote 2 (Notes (app_after (DeleteNote Session.host 2) Demo.app2
                          Session.world2)) = None.
Proof.
  assert (Hdup : NoDup (map ID (Notes Demo.app2))).
  { apply (bool_decide_unpack _). vm_compute. exact I. }
  assert (Hfind : findNote 2 (Notes Demo.app2) = Some (1%nat, Demo.chart))
    by (vm_compute; reflexivity).
  split; [exact Hdup | split; [exact Hfind |]].
  exact (proj1 (DeleteNote_then_not_found Session.host Demo.app2 Session.world2 2
                  1%nat Demo.chart Hdup Hfind)).
Defined.

(** X3: on a disk that can be written, [DeleteNote] of a note the store
    has leaves the document of the new store at the path of the store; it
    removes the image file of the note when the note is a screenshot and
    the question was answered y or yes; no other file changes. *)
Theorem DeleteNote_touches_only_its_own_files (h : Host) (a : NotesApp) (w : World)
        (id : Z) (i : nat) (note : Note) :
  findNote id (Notes a) = Some (i, note) ->
  writable w = true ->
  let a' := app_after (DeleteNote h id) a w in
  let w' := world_after (DeleteNote h id) a w in
  disk w' !! ConfigFile a = Some (Readable (MarshalIndent a'))
  /\ (forall p, p <> ConfigFile a -> (destroys w note = true -> p <> FilePath note) ->
        disk w' !! p = disk w !! p)
  /\ (destroys w note = true -> FilePath note <> ConfigFile a ->
        disk w' !! FilePath note = None).
Proof.
  intros Hfind Hw a' w'. subst a' w'. unfold app_after, world_after.
  destruct (DeleteNote_found h a w id i note Hfind) as [out [w1 [-> [Hw1 Hd]]]].
  cbn [fst snd]. unfold saved. rewrite Hw1, Hw. cbn [disk set_stdout set_disk].
  change (ConfigFile (without i a)) with (ConfigFile a). rewrite Hd. splits.
  - apply lookup_insert_eq.
  - intros p Hp Hq. rewrite lookup_insert_ne by congruence.
    destruct (destroys w note); [| reflexivity].
    apply lookup_delete_ne. intros Heq. apply Hq; [reflexivity | congruence].
  - intros Hyes Hne. rewrite Hyes. rewrite lookup_insert_ne by congruence.
    apply lookup_delete_eq.
Qed.

Lemma DeleteNote_touches_only_its_own_files_witness :
  findNote 2 (Notes Demo.app2) = Some (1%nat, Demo.chart)
  /\ writable (set_stdin [line "yes"] Session.world2) = true
  /\ disk (world_after (DeleteNote Session.host 2) Demo.app2
             (set_stdin [line "yes"] Session.world2))
       !! ConfigFile Demo.app2
     = Some (Readable (MarshalIndent
                         (app_after (DeleteNote Session.host 2) Demo.app2
                            (set_stdin [line "yes"] Session.world2)))).
Proof.
  assert (Hfind : findNote 2 (Notes Demo.app2) = Some (1%nat, Demo.chart))
    by (vm_compute; reflexivity).
  assert (Hw : writable (set_stdin [line "yes"] Session.world2) = true)
    by reflexivity.
  split; [exact Hfind | split; [exact Hw |]].
  exact (proj1 (DeleteNote_touches_only_its_own_files Session.host Demo.app2
                  (set_stdin [line "yes"] Session.world2) 2 1%nat Demo.chart
                  Hfind Hw)).
Defined.

(** ** An ID that no note has *)

(** X4: called with an ID that no note has, each of [ViewNote],
    [EditScroll], [RetitleScroll], [RetagScroll], [RecaptureImage] and
    [DeleteNote] prints that the scroll is not found and does nothing
    else: no line is read, the clock is not read, the store and the disk
    are as they were. *)
Theorem unknown_id_changes_nothing (h : Host) (a : NotesApp) (w : World) (id : Z) :
  findNote id (Notes a) = None ->
  ViewNote h id (a, w) = (Returned, (a, notFound id w))
  /\ EditScroll id (a, w) = (tt, (a, notFound id w))
  /\ RetitleScroll id (a, w) = (tt, (a, notFound id w))
  /\ RetagScroll id (a, w) = (tt, (a, notFound id w))
  /\ RecaptureImage id (a, w) = (tt, (a, notFound id w))
  /\ DeleteNote h id (a, w) = (tt, (a, notFound id w)).
Proof.
  intros H. split; [apply ViewNote_missing, H |].
  unfold EditScroll, RetitleScroll, RetagScroll, RecaptureImage, DeleteNote.
  splits; mstep; rewrite H; mlast; reflexivity.
Qed.

Lemma unknown_id_changes_nothing_witness :
  findNote 7 (Notes Demo.app2) = None
  /\ DeleteNote Session.host 7 (Demo.app2, Session.world2)
     = (tt, (Demo.app2, notFound 7 Session.world2)).
Proof.
  assert (Hnone : findNote 7 (Notes Demo.app2) = None) by (vm_compute; reflexivity).
  split; [exact Hnone |].
  exact (proj2 (proj2 (proj2 (proj2 (proj2
           (unknown_id_changes_nothing Session.host Demo.app2 Session.world2 7
              Hnone)))))).
Defined.

(** X5: a text note created after a deletion takes the counter as its ID;
    in a store whose counter is above its IDs and below the largest [int],
    that ID is greater than the ID just erased and than every ID the store
    had, and the counter is above the IDs again. *)
Theorem erased_id_is_not_reused (h : Host) (a : NotesApp) (w : World) (id : Z)
        (i : nat) (note : Note) (title content : string) (tags : list string) :
  counter_above_ids a ->
  min_int <= NextID a < max_int ->
  findNote id (Notes a) = Some (i, note) ->
  let s1 := snd (DeleteNote h id (a, w)) in
  let a2 := fst (snd (CreateTextNote title content tags s1)) in
  exists n,
    Notes a2 = Notes (fst s1) ++ [n]
    /\ ID n = NextID a
    /\ id < ID n
    /\ Forall (fun m => ID m < ID n) (Notes a)
    /\ counter_above_ids a2.
Proof.
  intros Habove Hrange Hfind s1 a2. subst s1 a2.
  destruct (DeleteNote_found h a w id i note Hfind) as [out [w1 [-> _]]].
  set (w2 := set_stdout out _).
  change (fst (snd (CreateTextNote title content tags (without i a, w2))))
    with (app_after (CreateTextNote title content tags) (without i a) w2).
  rewrite CreateTextNote_app. cbn [fst Notes NextID without set_Notes].
  exists (newTextNote title content tags (without i a) w2).
  destruct (findNote_lookup _ _ _ _ Hfind) as [Hi Hid].
  unfold counter_above_ids in *. cbn [ID newTextNote NextID without set_Notes Notes].
  rewrite List.Forall_forall in Habove. splits; auto.
  - rewrite <- Hid. apply Habove, list_elem_of_In.
    eapply list_elem_of_lookup_2. exact Hi.
  - apply List.Forall_forall. exact Habove.
  - rewrite wrap_int_small by lia. apply Forall_app. split.
    + apply List.Forall_forall. intros m Hm.
      specialize (Habove m (In_without _ _ _ Hm)). lia.
    + constructor; [unfold newTextNote; cbn [ID NextID without set_Notes]; lia
                   | constructor].
Qed.

Lemma erased_id_is_not_reused_witness :
  counter_above_ids Demo.app2
  /\ min_int <= NextID Demo.app2 < max_int
  /\ findNote 2 (Notes Demo.app2) = Some (1%nat, Demo.chart)
  /\ exists n,
       Notes (fst (snd (CreateTextNote "next" "one" []
                          (snd (DeleteNote Session.host 2
                                  (Demo.app2, Session.world2))))))
       = Notes (fst (snd (DeleteNote Session.host 2 (Demo.app2, Session.world2))))
         ++ [n]
       /\ ID n = NextID Demo.app2
       /\ 2 < ID n.
Proof.
  assert (Habove : counter_above_ids Demo.app2).
  { repeat constructor. }
  assert (Hrange : min_int <= NextID Demo.app2 < max_int).
  { split; vm_compute; [discriminate | reflexivity]. }
  assert (Hfind : findNote 2 (Notes Demo.app2) = Some (1%nat, Demo.chart))
    by (vm_compute; reflexivity).
  split; [exact Habove | split; [exact Hrange | split; [exact Hfind |]]].
  destruct (erased_id_is_not_reused Session.host Demo.app2 Session.world2 2 1%nat
              Demo.chart "next" "one" [] Habove Hrange Hfind)
    as [n [H1 [H2 [H3 _]]]].
  exists n. exact (conj H1 (conj H2 H3)).
Defined.

(** ** Retagging *)

Lemma RetagScroll_found (a : NotesApp) (w : World) (id : Z) (i : nat) (note : Note) :
  findNote id (Notes a) = Some (i, note) ->
  exists out w1,
    snd (RetagScroll id (a, w))
    = (set_Notes (<[i := retagged w note]> (Notes a)) a,
       set_stdout out (saved (set_Notes (<[i := retagged w note]> (Notes a)) a) w1))
    /\ writable w1 = writable w /\ disk w1 = disk w.
Proof.
  intros Hfind. destruct (findNote_lookup _ _ _ _ Hfind) as [Hi _].
  unfold RetagScroll. mstep. rewrite Hfind. repeat mstep2.
  cbn [fst snd Notes set_Notes]. wsimp. rewrite alter_alter.
  rewrite (alter_same _ i (Notes a) note (retagged w note) Hi) by reflexivity.
  destruct (parseTags _); mlast2; cbn [snd]; eexists; eexists;
    (split; [reflexivity | split; reflexivity]).
Qed.

(** X6: [RetagScroll] on a note the store has replaces its tags by the
    pieces of the trimmed answer and sets its update time to the reading
    of the clock; the rest of the note and of the store stays.  On a disk
    that can be written the document of the new store is at the path of
    the store; no other file changes. *)
Theorem RetagScroll_replaces_the_tags (a : NotesApp) (w : World) (id : Z) (i : nat)
        (note : Note) :
  findNote id (Notes a) = Some (i, note) ->
  let a' := app_after (RetagScroll id) a w in
  let w' := world_after (RetagScroll id) a w in
  let tags := parseTags (Strings.TrimSpace (nthLine 0 w)) in
  a' = set_Notes (<[i := set_UpdatedAt (clock w (ticks w)) (set_Tags tags note)]>
                    (Notes a)) a
  /\ (writable w = true -> persisted a' w')
  /\ (forall p, p <> ConfigFile a -> disk w' !! p = disk w !! p).
Proof.
  intros Hfind a' w' tags. subst a' w' tags. unfold app_after, world_after.
  destruct (RetagScroll_found a w id i note Hfind) as [out [w1 [-> [Hw Hd]]]].
  cbn [fst snd]. splits.
  - reflexivity.
  - intros H. apply persisted_saved. congruence.
  - intros p Hp. unfold saved. destruct (writable w1); cbn [disk set_stdout set_disk].
    + rewrite lookup_insert_ne by (cbn [ConfigFile set_Notes]; congruence).
      rewrite Hd. reflexivity.
    + rewrite Hd. reflexivity.
Qed.

Lemma RetagScroll_replaces_the_tags_witness :
  findNote 1 (Notes Demo.app1) = Some (0%nat, Demo.gate)
  /\ app_after (RetagScroll 1) Demo.app1 (set_stdin [line "vault, key"] Demo.world1)
     = set_Notes
         (<[0%nat := set_UpdatedAt
                       (clock (set_stdin [line "vault, key"] Demo.world1)
                          (ticks (set_stdin [line "vault, key"] Demo.world1)))
                       (set_Tags
                          (parseTags
                             (Strings.TrimSpace
                                (nthLine 0 (set_stdin [line "vault, key"]
                                              Demo.world1))))
                          Demo.gate)]>
            (Notes Demo.app1)) Demo.app1.
Proof.
  assert (Hfind : findNote 1 (Notes Demo.app1) = Some (0%nat, Demo.gate))
    by (vm_compute; reflexivity).
  split; [exact Hfind |].
  exact (proj1 (RetagScroll_replaces_the_tags Demo.app1
                  (set_stdin [line "vault, key"] Demo.world1) 1 0%nat Demo.gate
                  Hfind)).
Defined.

Lemma parseTags_blank : parseTags EmptyString = [].
Proof. reflexivity. Qed.

Lemma keepOr_blank (set : string -> Note -> Note) (answer : string) (n : Note) :
  Blank (Strings.bytes answer) -> keepOr set answer n = n.
Proof. intros H. unfold keepOr. rewrite (TrimSpace_Blank _ H). reflexivity. Qed.

(** X7: a blank answer means two things: to [RetagScroll] it removes every
    tag of the note, to [EditScroll] (three blank answers) it keeps title,
    content and tags.  Both set the update time. *)
Theorem blank_answer_clears_tags_in_retag_only (a : NotesApp) (w : World) (id : Z)
        (i : nat) (note : Note) :
  findNote id (Notes a) = Some (i, note) ->
  Blank (Strings.bytes (nthLine 0 w)) ->
  Blank (Strings.bytes (nthLine 1 w)) ->
  Blank (Strings.bytes (nthLine 2 w)) ->
  Notes (app_after (RetagScroll id) a w) !! i
  = Some (set_UpdatedAt (clock w (ticks w)) (set_Tags [] note))
  /\ Notes (app_after (EditScroll id) a w) !! i
     = Some (set_UpdatedAt (clock w (ticks w)) note).
Proof.
  intros Hfind H0 H1 H2. destruct (findNote_lookup _ _ _ _ Hfind) as [Hi _].
  apply lookup_lt_Some in Hi. split.
  - unfold app_after.
    destruct (RetagScroll_found a w id i note Hfind) as [out [w1 [-> _]]].
    cbn [fst snd Notes set_Notes]. rewrite list_lookup_insert_eq by exact Hi.
    unfold retagged. rewrite (TrimSpace_Blank _ H0). reflexivity.
  - rewrite (EditScroll_notes _ _ _ _ _ Hfind).
    rewrite list_lookup_insert_eq by exact Hi.
    unfold editedNote. destruct (String.eqb (Type_ note) "text");
      rewrite !keepOr_blank by assumption; reflexivity.
Qed.

Lemma blank_answer_clears_tags_in_retag_only_witness :
  findNote 1 (Notes Demo.app1) = Some (0%nat, Demo.gate)
  /\ Blank (Strings.bytes (nthLine 0 (set_stdin ["  "] Demo.world1)))
  /\ Notes (app_after (RetagScroll 1) Demo.app1 (set_stdin ["  "] Demo.world1))
       !! 0%nat
     = Some (set_UpdatedAt
               (clock (set_stdin ["  "] Demo.world1)
                  (ticks (set_stdin ["  "] Demo.world1)))
               (set_Tags [] Demo.gate)).
Proof.
  assert (Hfind : findNote 1 (Notes Demo.app1) = Some (0%nat, Demo.gate))
    by (vm_compute; reflexivity).
  assert (H0 : Blank (Strings.bytes (nthLine 0 (set_stdin ["  "] Demo.world1)))).
  { repeat (apply Blank_1; [reflexivity |]). apply Blank_nil. }
  assert (H1 : Blank (Strings.bytes (nthLine 1 (set_stdin ["  "] Demo.world1))))
    by apply Blank_nil.
  assert (H2 : Blank (Strings.bytes (nthLine 2 (set_stdin ["  "] Demo.world1))))
    by apply Blank_nil.
  split; [exact Hfind | split; [exact H0 |]].
  exact (proj1 (blank_answer_clears_tags_in_retag_only Demo.app1
                  (set_stdin ["  "] Demo.world1) 1 0%nat Demo.gate Hfind H0 H1 H2)).
Defined.

(** ** Revealing a note *)

Lemma ViewNote_nothing_read (h : Host) (id : Z) (a : NotesApp) (w : World) :
  (forall i note, findNote id (Notes a) = Some (i, note) -> Type_ note = "text") ->
  stdin (world_after (ViewNote h id) a w) = stdin w
  /\ fst (ViewNote h id (a, w)) = Returned.
Proof.
  intros Htext. unfold ViewNote, openFile. run_M2.
  destruct (findNote id (Notes a)) as [[i note]|]; run_M2; [| split; reflexivity].
  rewrite (Htext i note eq_refl). change (String.eqb "text" "text") with true.
  destruct (Tags note); run_M2; split; reflexivity.
Qed.

(** X8: [ViewNote] never changes the store, the disk, the clock or the
    capture tool.  It reads one line at most, and none when the ID is
    unknown or the note is a text note. *)
Theorem ViewNote_is_read_only (h : Host) (id : Z) (a : NotesApp) (w : World) :
  let w' := world_after (ViewNote h id) a w in
  app_after (ViewNote h id) a w = a
  /\ disk w' = disk w /\ ticks w' = ticks w /\ tool w' = tool w
  /\ (stdin w' = stdin w \/ stdin w' = tl (stdin w))
  /\ ((forall i note, findNote id (Notes a) = Some (i, note) -> Type_ note = "text") ->
      stdin w' = stdin w).
Proof.
  intros w'. subst w'. unfold app_after, world_after.
  destruct (ViewNote_state h id a w) as (Ha & Hd & Ht & Htool & _ & Hin).
  splits; auto.
  intros Htext. apply (ViewNote_nothing_read h id a w Htext).
Qed.

(** X9: [ViewNote] ends in a panic exactly when the note exists, is not a
    text note, the question whether to reveal the image is answered y or
    yes, and the platform is none of darwin, linux and windows: [openFile]
    then calls [Run] on the nil command. *)
Theorem ViewNote_panics_without_a_viewer (h : Host) (id : Z) (a : NotesApp)
        (w : World) :
  fst (ViewNote h id (a, w)) = Panicked
  <-> exists i note,
        findNote id (Notes a) = Some (i, note)
        /\ Type_ note <> "text"
        /\ isYes (Strings.TrimSpace (Strings.ToLower (lowerCase w) (nthLine 0 w))) = true
        /\ supported (GOOS w) = false.
Proof.
  unfold ViewNote, openFile, nthLine. cbn [dropLines]. run_M2.
  destruct (findNote id (Notes a)) as [[i note]|]; run_M2.
  - destruct (String.eqb (Type_ note) "text") eqn:Ek.
    + apply String.eqb_eq in Ek.
      destruct (Tags note); run_M2;
        (split; [discriminate | intros (i' & n' & [= <- <-] & Hk & _); contradiction]).
    + apply String.eqb_neq in Ek.
      destruct (Tags note); run_M2;
        (destruct (isYes _) eqn:Ey; run_M2;
         [| split; [discriminate | intros (i' & n' & [= <- <-] & _ & Hy & _); congruence]]);
        (destruct (supported (GOOS w)) eqn:Es; run_M2;
         [ destruct (opening h (FilePath note)); run_M2;
           (split; [discriminate | intros (i' & n' & _ & _ & _ & Hs); discriminate])
         | split; [intros _; exists i, note; auto | reflexivity] ]).
  - split; [discriminate | intros (i' & n' & H & _); discriminate].
Qed.

(** ** The archive *)

(** X10: [ListNotes] sorts the notes of the store itself: afterwards the
    store holds the same notes, newest first, with the counter and the
    paths it had; the rows shown are these notes.  Nothing is written to
    the disk and neither the clock nor the input is read. *)
Theorem ListNotes_sorts_the_store_in_memory (a : NotesApp) (w : World) :
  let a' := app_after ListNotes a w in
  let w' := world_after ListNotes a w in
  Permutation (Notes a') (Notes a)
  /\ NewestFirst (Notes a')
  /\ a' = set_Notes (Notes a') a
  /\ (Notes a <> [] -> list_ a w = Notes a')
  /\ disk w' = disk w /\ ticks w' = ticks w /\ stdin w' = stdin w.
Proof.
  intros a' w'. subst a' w'.
  assert (Ha : app_after ListNotes a w = set_Notes (sort_Slice newestFirst (Notes a)) a).
  { unfold app_after, ListNotes. mstep. destruct (Notes a) as [|n l] eqn:E.
    - mlast. cbn [fst snd]. change (sort_Slice newestFirst []) with (@nil Note).
      rewrite <- E. symmetry. apply set_Notes_same.
    - mstep2. mlast. reflexivity. }
  rewrite Ha. cbn [Notes set_Notes]. splits.
  - apply sort_Slice_perm.
  - apply sort_Slice_newestFirst.
  - reflexivity.
  - intros _. apply list_sorted.
  - unfold world_after, ListNotes. mstep. destruct (Notes a); [mlast | mstep2; mlast];
      reflexivity.
  - unfold world_after, ListNotes. mstep. destruct (Notes a); [mlast | mstep2; mlast];
      reflexivity.
  - unfold world_after, ListNotes. mstep. destruct (Notes a); [mlast | mstep2; mlast];
      reflexivity.
Qed.

(** ** A save that fails *)

Lemma NewNotesApp_same_doc (w w' : World) :
  disk w' !! configPath w = disk w !! configPath w -> home w' = home w ->
  fst (NewNotesApp w') = fst (NewNotesApp w).
Proof.
  intros Hd Hh.
  assert (Hp : configPath w' = configPath w).
  { unfold configPath, freshApp. rewrite Hh. reflexivity. }
  assert (Hf : freshApp w' = freshApp w).
  { unfold freshApp. rewrite Hh. reflexivity. }
  destruct (disk w !! configPath w) as [[|c]|] eqn:E.
  - rewrite (NewNotesApp_unreadable w E).
    rewrite (NewNotesApp_unreadable w') by (rewrite Hp, Hd; reflexivity).
    cbn [fst]. exact Hf.
  - rewrite (NewNotesApp_readable w c E).
    rewrite (NewNotesApp_readable w' c) by (rewrite Hp, Hd; reflexivity).
    cbn [fst]. rewrite Hf. reflexivity.
  - rewrite (NewNotesApp_missing w E).
    rewrite (NewNotesApp_missing w') by (rewrite Hp, Hd; reflexivity).
    cbn [fst]. exact Hf.
Qed.

Lemma NewNotesApp_same_disk (w w' : World) :
  disk w' = disk w -> home w' = home w ->
  fst (NewNotesApp w') = fst (NewNotesApp w).
Proof. intros Hd. apply NewNotesApp_same_doc. rewrite Hd. reflexivity. Qed.


(** X11: when the document cannot be written, [CreateTextNote] still
    appends the note and moves the counter, prints the error of saving and
    then that the scroll was created; the disk is as it was, so that a new
    start finds the store without the note. *)
Theorem failed_save_keeps_the_note_in_memory (title content : string)
        (tags : list string) (a : NotesApp) (w : World) :
  writable w = false ->
  let a' := app_after (CreateTextNote title content tags) a w in
  let w' := world_after (CreateTextNote title content tags) a w in
  Notes a' = Notes a ++ [newTextNote title content tags a w]
  /\ NextID a' = wrap_int (NextID a + 1)
  /\ disk w' = disk w
  /\ stdout w' = stdout w ++ [ErrSaving; Created (NextID a) title]
  /\ fst (NewNotesApp w') = fst (NewNotesApp w).
Proof.
  intros Hw a' w'. subst a' w'. rewrite CreateTextNote_app. cbn [Notes NextID].
  unfold world_after, CreateTextNote, appendNote. repeat mstep2. mlast2.
  cbn [fst snd]. unfold saved. wsimp. rewrite Hw. wsimp.
  splits; try reflexivity.
  - rewrite <- app_assoc. reflexivity.
  - apply NewNotesApp_same_disk; reflexivity.
Qed.

Lemma failed_save_keeps_the_note_in_memory_witness :
  writable Session.readOnly = false
  /\ Notes (app_after (CreateTextNote "Gate Code" "4471" []) Demo.app0
              Session.readOnly)
     = Notes Demo.app0
       ++ [newTextNote "Gate Code" "4471" [] Demo.app0 Session.readOnly].
Proof.
  assert (Hw : writable Session.readOnly = false) by reflexivity.
  split; [exact Hw |].
  exact (proj1 (failed_save_keeps_the_note_in_memory "Gate Code" "4471" []
                  Demo.app0 Session.readOnly Hw)).
Defined.

(** ** The interpreter *)

Lemma oneOf_In (l : list string) (c : string) : oneOf l c = true -> In c l.
Proof.
  unfold oneOf. intros H. apply existsb_exists in H as [x [Hx He]].
  apply String.eqb_eq in He. subst x. exact Hx.
Qed.

Lemma oneOf_app (l1 l2 : list string) (c : string) :
  oneOf (l1 ++ l2) c = oneOf l1 c || oneOf l2 c.
Proof. apply existsb_app. Qed.

(** Decide the tests of the [switch] on a command that is known. *)
Ltac decide_cases :=
  repeat match goal with
         | |- context [oneOf ?l ?c] =>
             let b := eval vm_compute in (oneOf l c) in
             change (oneOf l c) with b
         end;
  cbv iota.

(** Every case of a list of words. *)
Ltac each_word H :=
  apply oneOf_In in H; cbn [In] in H;
  repeat (destruct H as [H | H]); [.. | destruct H].

Lemma World_ext (w1 w2 : World) :
  stdin w1 = stdin w2 -> stdout w1 = stdout w2 -> clock w1 = clock w2 ->
  ticks w1 = ticks w2 -> layout w1 = layout w2 -> tool w1 = tool w2 ->
  disk w1 = disk w2 -> writable w1 = writable w2 -> home w1 = home w2 ->
  GOOS w1 = GOOS w2 -> lowerCase w1 = lowerCase w2 -> w1 = w2.
Proof. destruct w1, w2. cbn. intros. subst. reflexivity. Qed.

(** Two worlds built by the same updates. *)
Ltac same_world :=
  apply World_ext; unfold said, notFound; wsimp; cbn [map dropLines];
  rewrite <- ?app_assoc; cbn [app]; reflexivity.

(** Two results with the same store and such worlds. *)
Ltac same_result :=
  lazymatch goal with
  | |- (_, (_, _)) = (_, (_, _)) =>
      apply (f_equal2 pair);
      [ reflexivity | apply (f_equal2 pair); [ reflexivity | same_world ] ]
  | |- _ (_, _) = _ (_, _) =>
      apply (f_equal2 (fun h s => h s));
      [ reflexivity | apply (f_equal2 pair); [ reflexivity | same_world ] ]
  end.

Lemma withID_invalid {A : Type} (question : string) (op : Z -> M A)
      (done : A -> option ran) (a : NotesApp) (w : World) :
  Atoi (Strings.TrimSpace (hd EmptyString (stdin w))) = None ->
  withID question op done (a, w)
  = (None, (a, said [question; invalidID] (set_stdin (tl (stdin w)) w))).
Proof.
  intros H. unfold withID. do 2 mstep2. wsimp. rewrite H. mstep2. mlast2.
  same_result.
Qed.

Lemma lowerCase_said (texts : list string) (w : World) :
  lowerCase (said texts w) = lowerCase w.
Proof. reflexivity. Qed.

Lemma Run_switch_invalid_id (h : Host) (input : string) (a : NotesApp) (w : World) :
  oneOf idWords (Strings.ToLower (lowerCase w) input) = true ->
  Atoi (Strings.TrimSpace (hd EmptyString (stdin w))) = None ->
  exists question,
    Run_switch h input (a, w)
    = (None, (a, said [question; invalidID] (set_stdin (tl (stdin w)) w))).
Proof.
  intros Hc Hid. unfold Run_switch. mstep2. cbv zeta.
  remember (Strings.ToLower (lowerCase w) input) as c eqn:Ec. clear Ec.
  unfold idWords in Hc. each_word Hc; subst c; decide_cases;
    eexists; apply withID_invalid; exact Hid.
Qed.

(** X12: at each of the commands that ask for a scroll ID, an answer that
    [strconv.Atoi] does not accept makes the turn print the question and
    that the ID is invalid: two lines are read, the store and the rest of
    the world are as they were, and the loop goes on. *)
Theorem invalid_id_reaches_no_operation (h : Host) (a : NotesApp) (w : World) :
  oneOf idWords (typedCommand w) = true ->
  Atoi (Strings.TrimSpace (nthLine 1 w)) = None ->
  exists question,
    Run_command h (a, w)
    = (None, (a, said [commandPrompt; question; invalidID]
                   (set_stdin (dropLines 2 (stdin w)) w))).
Proof.
  intros Hc Hid. unfold Run_command. do 2 mstep2.
  destruct (Run_switch_invalid_id h (Strings.TrimSpace (hd EmptyString (stdin w))) a
              (set_stdin (tl (stdin w))
                 (set_stdout (stdout w ++ [Prompt commandPrompt]) w)) Hc Hid)
    as [question Hq].
  exists question. wsimp. fold commandPrompt. rewrite Hq. same_result.
Qed.

Lemma invalid_id_reaches_no_operation_witness :
  oneOf idWords (typedCommand (Demo.typed ["Reveal"; "seven"] Demo.world1)) = true
  /\ Atoi (Strings.TrimSpace (nthLine 1 (Demo.typed ["Reveal"; "seven"] Demo.world1)))
     = None
  /\ exists question,
       Run_command Session.host (Demo.app1, Demo.typed ["Reveal"; "seven"] Demo.world1)
       = (None,
          (Demo.app1,
           said [commandPrompt; question; invalidID]
             (set_stdin (dropLines 2 (stdin (Demo.typed ["Reveal"; "seven"]
                                               Demo.world1)))
                (Demo.typed ["Reveal"; "seven"] Demo.world1)))).
Proof.
  assert (Hc : oneOf idWords
                 (typedCommand (Demo.typed ["Reveal"; "seven"] Demo.world1)) = true)
    by (vm_compute; reflexivity).
  assert (Hid : Atoi (Strings.TrimSpace
                        (nthLine 1 (Demo.typed ["Reveal"; "seven"] Demo.world1)))
                = None) by (vm_compute; reflexivity).
  split; [exact Hc | split; [exact Hid |]].
  exact (invalid_id_reaches_no_operation Session.host Demo.app1
           (Demo.typed ["Reveal"; "seven"] Demo.world1) Hc Hid).
Defined.

Lemma Run_command_switch (h : Host) (a : NotesApp) (w : World) :
  Run_command h (a, w)
  = Run_switch h (Strings.TrimSpace (nthLine 0 w))
      (a, said [commandPrompt] (set_stdin (tl (stdin w)) w)).
Proof.
  unfold Run_command. do 2 mstep2. wsimp. fold commandPrompt.
  unfold nthLine. cbn [dropLines]. same_result.
Qed.

(** X13: the erase command with an integer ID and an answer other than y
    or yes to the question of certainty calls no operation: the turn
    prints that the scroll remains preserved, three lines are read, the
    store and the disk are as they were, and the loop goes on. *)
Theorem erase_needs_confirmation (h : Host) (a : NotesApp) (w : World) (id : Z) :
  oneOf eraseWords (typedCommand w) = true ->
  Atoi (Strings.TrimSpace (nthLine 1 w)) = Some id ->
  isYes (Strings.TrimSpace (Strings.ToLower (lowerCase w) (nthLine 2 w))) = false ->
  Run_command h (a, w)
  = (None,
     (a, said [commandPrompt;
               "Enter the scroll ID to erase from existence: ";
               "Are you certain you wish to erase scroll #" +:+ itoa id
                 +:+ " from the archives? (y/n): ";
               line "The scroll remains preserved in the archives."]
           (set_stdin (dropLines 3 (stdin w)) w))).
Proof.
  intros Hc Hid Hno. rewrite Run_command_switch. unfold Run_switch. mstep2.
  cbv zeta. rewrite lowerCase_said. wsimp. fold (typedCommand w). remember (typedCommand w) as c eqn:Ec. clear Ec.
  unfold nthLine in Hid, Hno. cbn [dropLines] in Hid, Hno.
  unfold eraseWords in Hc. each_word Hc; subst c; decide_cases;
    unfold withID, Run_erase, said; do 2 mstep2; wsimp; rewrite Hid;
    repeat mstep2; wsimp; rewrite Hno; mstep2; rewrite ret_run;
    same_result.
Qed.

Lemma erase_needs_confirmation_witness :
  oneOf eraseWords (typedCommand (Demo.typed ["erase"; "1"; "n"] Demo.world1)) = true
  /\ Atoi (Strings.TrimSpace (nthLine 1 (Demo.typed ["erase"; "1"; "n"] Demo.world1)))
     = Some 1
  /\ isYes (Strings.TrimSpace
              (Strings.ToLower Demo.caseTable
                 (nthLine 2 (Demo.typed ["erase"; "1"; "n"]
                                             Demo.world1)))) = false
  /\ fst (snd (Run_command Session.host
                 (Demo.app1, Demo.typed ["erase"; "1"; "n"] Demo.world1)))
     = Demo.app1.
Proof.
  assert (Hc : oneOf eraseWords
                 (typedCommand (Demo.typed ["erase"; "1"; "n"] Demo.world1)) = true)
    by (vm_compute; reflexivity).
  assert (Hid : Atoi (Strings.TrimSpace
                        (nthLine 1 (Demo.typed ["erase"; "1"; "n"] Demo.world1)))
                = Some 1) by (vm_compute; reflexivity).
  assert (Hno : isYes (Strings.TrimSpace
                         (Strings.ToLower Demo.caseTable
                            (nthLine 2 (Demo.typed ["erase"; "1"; "n"]
                                          Demo.world1)))) = false)
    by (vm_compute; reflexivity).
  split; [exact Hc | split; [exact Hid | split; [exact Hno |]]].
  rewrite (erase_needs_confirmation Session.host Demo.app1
             (Demo.typed ["erase"; "1"; "n"] Demo.world1) 1 Hc Hid Hno).
  reflexivity.
Defined.

Lemma Run_switch_unknown (h : Host) (input : string) (a : NotesApp) (w : World) :
  oneOf commandWords (Strings.ToLower (lowerCase w) input) = false ->
  Run_switch h input (a, w)
  = (None, (a, said [line ("Unknown command: " +:+ input);
                     line "Speak 'wisdom' to learn the ancient commands."] w)).
Proof.
  intros H. unfold Run_switch. mstep2. cbv zeta.
  change commandWords
    with (["1"; "inscribe"; "add"] ++ ["2"; "capture"; "screenshot"]
          ++ ["3"; "archive"; "list"] ++ ["4"; "reveal"; "view"]
          ++ ["5"; "seek"; "search"] ++ ["6"; "modify"; "edit"]
          ++ ["7"; "retitle"] ++ ["8"; "retag"] ++ ["9"; "recapture"]
          ++ ["10"; "erase"; "delete"] ++ ["11"; "wisdom"; "help"]
          ++ ["12"; "depart"; "quit"; "exit"]) in H.
  rewrite !oneOf_app in H.
  repeat (apply orb_false_elim in H as [?E H]; rewrite E; clear E).
  rewrite H. do 2 mstep2. rewrite ret_run. same_result.
Qed.

(** X14: a command that is none of the words of the [switch] prints
    [Unknown command: ] with the trimmed line as typed and the pointer to
    the help; one line is read, the store and the rest of the world are as
    they were, and the loop goes on. *)
Theorem unknown_command_changes_nothing (h : Host) (a : NotesApp) (w : World) :
  oneOf commandWords (typedCommand w) = false ->
  Run_command h (a, w)
  = (None,
     (a, said [commandPrompt;
               line ("Unknown command: " +:+ Strings.TrimSpace (nthLine 0 w));
               line "Speak 'wisdom' to learn the ancient commands."]
           (set_stdin (tl (stdin w)) w))).
Proof.
  intros H. rewrite Run_command_switch.
  rewrite (Run_switch_unknown h _ a
             (said [commandPrompt] (set_stdin (tl (stdin w)) w)) H).
  same_result.
Qed.

Lemma unknown_command_changes_nothing_witness :
  oneOf commandWords (typedCommand (Demo.typed ["dance"] Demo.world1)) = false
  /\ fst (snd (Run_command Session.host (Demo.app1, Demo.typed ["dance"] Demo.world1)))
     = Demo.app1.
Proof.
  assert (Hc : oneOf commandWords (typedCommand (Demo.typed ["dance"] Demo.world1))
               = false) by (vm_compute; reflexivity).
  split; [exact Hc |].
  rewrite (unknown_command_changes_nothing Session.host Demo.app1
             (Demo.typed ["dance"] Demo.world1) Hc).
  reflexivity.
Defined.

Lemma Run_command_eof (h : Host) (a : NotesApp) (w : World) :
  stdin w = [] ->
  Run_command h (a, w)
  = (None, (a, set_stdout (stdout w ++ idleTurn) (set_stdin [] w))).
Proof.
  intros H. rewrite Run_command_switch. unfold nthLine. cbn [dropLines].
  rewrite H. cbn [hd tl]. change (Strings.TrimSpace EmptyString) with EmptyString.
  rewrite Run_switch_unknown by reflexivity. same_result.
Qed.

(** X15: at the end of the input the loop of [Run] does not end: every
    turn reads the empty command, prints the prompt, [Unknown command: ]
    and the pointer to the help, and changes nothing else, for any number
    of turns. *)
Theorem end_of_input_does_not_end_the_loop (h : Host) (fuel : nat) (a : NotesApp)
        (w : World) :
  stdin w = [] ->
  let r := Run_loop h fuel (a, w) in
  fst r = None
  /\ fst (snd r) = a
  /\ stdin (snd (snd r)) = []
  /\ stdout (snd (snd r)) = stdout w ++ concat (replicate fuel idleTurn)
  /\ disk (snd (snd r)) = disk w
  /\ ticks (snd (snd r)) = ticks w.
Proof.
  revert w. induction fuel as [|fuel IH]; intros w Hin r; subst r.
  - cbn [Run_loop replicate concat]. rewrite ret_run, app_nil_r. cbn [fst snd].
    splits; auto.
  - rewrite Run_loop_S, (Run_command_eof h a w Hin). cbn [fst snd].
    destruct (IH (set_stdout (stdout w ++ idleTurn) (set_stdin [] w)) eq_refl)
      as (H1 & H2 & H3 & H4 & H5 & H6).
    splits; auto.
    rewrite H4. cbn [stdout set_stdout replicate concat].
    rewrite <- app_assoc. reflexivity.
Qed.

Lemma end_of_input_does_not_end_the_loop_witness :
  stdin Demo.world1 = []
  /\ fst (Run_loop Session.host 3 (Demo.app1, Demo.world1)) = None.
Proof.
  assert (Hin : stdin Demo.world1 = []) by reflexivity.
  split; [exact Hin |].
  exact (proj1 (end_of_input_does_not_end_the_loop Session.host 3 Demo.app1
                  Demo.world1 Hin)).
Defined.

Lemma fst_then_ret {A B : Type} (m : M A) (y : B) (s : NotesApp * World) :
  fst (bind m (fun _ => ret y) s) = y.
Proof. unfold bind, ret. destruct (m s) as [x s1]. reflexivity. Qed.

Lemma withID_goes_on {A : Type} (question : string) (op : Z -> M A)
      (done : A -> option ran) (s : NotesApp * World) :
  (forall r, done r <> Some Returned) ->
  fst (withID question op done s) <> Some Returned.
Proof.
  intros Hdone. destruct s as [a w]. unfold withID. do 2 mstep2.
  destruct (Atoi _) as [id|].
  - unfold bind, ret. destruct (op id _) as [r s1]. cbn [fst]. apply Hdone.
  - mstep2. rewrite ret_run. discriminate.
Qed.

(** X16: a turn makes [Run] return exactly when the command, trimmed and
    in lower case, is one of 12, depart, quit, exit; that turn prints the
    farewell, reads one line and leaves the store and the disk as they
    are. *)
Theorem loop_ends_on_a_quit_word_only (h : Host) (a : NotesApp) (w : World) :
  (fst (Run_command h (a, w)) = Some Returned
   <-> oneOf quitWords (typedCommand w) = true)
  /\ (oneOf quitWords (typedCommand w) = true ->
      Run_command h (a, w)
      = (Some Returned,
         (a, said [commandPrompt; line farewell] (set_stdin (tl (stdin w)) w)))).
Proof.
  rewrite Run_command_switch. fold (typedCommand w).
  assert (Hquit : oneOf quitWords (typedCommand w) = true ->
            Run_switch h (Strings.TrimSpace (nthLine 0 w))
              (a, said [commandPrompt] (set_stdin (tl (stdin w)) w))
            = (Some Returned,
               (a, said [commandPrompt; line farewell] (set_stdin (tl (stdin w)) w)))).
  { intros Hc. unfold Run_switch. mstep2. cbv zeta.
    rewrite lowerCase_said. wsimp. fold (typedCommand w).
    remember (typedCommand w) as c eqn:Ec. clear Ec.
    unfold quitWords in Hc. each_word Hc; subst c; decide_cases;
      mstep2; rewrite ret_run; same_result. }
  split; [| exact Hquit]. split; [| intros Hc; rewrite (Hquit Hc); reflexivity].
  unfold Run_switch. mstep2. cbv zeta.
  rewrite lowerCase_said. wsimp. fold (typedCommand w).
  repeat match goal with
         | |- context [if oneOf ?l ?c then _ else _] => destruct (oneOf l c) eqn:?
         end;
    try (rewrite fst_then_ret; discriminate);
    try (intros H; exfalso; revert H; apply withID_goes_on;
         first [ discriminate | intros []; discriminate ]).
  - intros _. assumption.
  - do 2 mstep2. rewrite ret_run. discriminate.
Qed.

(** Letters outside ASCII are lowered as well: a command typed with the
    Kelvin sign or the dotted capital I is the command. *)
Example commands_outside_ascii :
  typedCommand (Demo.typed ["seeK"] Demo.world1) = "seek"
  /\ oneOf commandWords (typedCommand (Demo.typed ["seeK"] Demo.world1)) = true
  /\ fst (Run_command Session.host (Demo.app1, Demo.typed ["exİt"] Demo.world1))
     = Some Returned.
Proof. splits; vm_compute; reflexivity. Qed.

(** ** Captures *)

Lemma TakeScreenshot_works (title : string) (tags : list string)
      (a : NotesApp) (w : World) :
  captureWorks w (targetPath a w) ->
  exists out w1,
    snd (TakeScreenshot title tags (a, w))
    = (mkApp (Notes a ++ [newImageNote title tags a w]) (wrap_int (NextID a + 1))
             (NotesDir a) (ConfigFile a),
       set_stdout out
         (saved (mkApp (Notes a ++ [newImageNote title tags a w])
                       (wrap_int (NextID a + 1)) (NotesDir a) (ConfigFile a)) w1))
    /\ writable w1 = writable w
    /\ tool w1 = tl (tool w)
    /\ disk w1 = match tool w with
                 | o :: _ => if tool_wrote o
                             then <[targetPath a w := Readable Malformed]> (disk w)
                             else disk w
                 | [] => disk w
                 end.
Proof.
  intros (Hs & o & rest & Ht & Hok & Hfile).
  unfold TakeScreenshot. do 3 mstep2. wsimp. fold (targetPath a w).
  rewrite Hs. cbn [negb]. do 2 mstep2. wsimp.
  rewrite Ht. destruct o as [ok wrote]. cbn [tool_ok tool_wrote] in *. subst ok.
  cbn [negb]. mstep2.
  destruct wrote; wsimp.
  - rewrite lookup_insert_eq. unfold appendNote. repeat mstep2. mlast2.
    cbn [snd fst]. eexists. eexists. split; [reflexivity |]. splits; reflexivity.
  - destruct Hfile as [Hf | Hf]; [discriminate |].
    destruct (disk w !! targetPath a w) eqn:E; [| contradiction].
    unfold appendNote. repeat mstep2. mlast2.
    cbn [snd fst]. eexists. eexists. split; [reflexivity |]. splits; reflexivity.
Qed.

(** X17: when the capture goes through (the platform has a command, the
    command returns no error, a file is at the target path afterwards),
    [TakeScreenshot] appends a screenshot note with the counter as its ID,
    the target path and file name and no content, and moves the counter by
    one.  On a disk that can be written the document is saved; the image
    file is on the disk; the tool has run once. *)
Theorem successful_capture_adds_an_image_note (title : string) (tags : list string)
        (a : NotesApp) (w : World) :
  captureWorks w (targetPath a w) ->
  let a' := app_after (TakeScreenshot title tags) a w in
  let w' := world_after (TakeScreenshot title tags) a w in
  a' = mkApp (Notes a ++ [newImageNote title tags a w]) (wrap_int (NextID a + 1))
             (NotesDir a) (ConfigFile a)
  /\ (writable w = true -> persisted a' w')
  /\ (targetPath a w <> ConfigFile a -> disk w' !! targetPath a w <> None)
  /\ tool w' = tl (tool w).
Proof.
  intros Hworks a' w'. subst a' w'. unfold app_after, world_after.
  destruct (TakeScreenshot_works title tags a w Hworks)
    as (out & w1 & -> & Hw & Htool & Hd).
  destruct Hworks as (_ & o & rest & Ht & _ & Hfile). rewrite Ht in Hd.
  cbn [fst snd]. splits.
  - reflexivity.
  - intros H. apply persisted_saved. congruence.
  - intros Hne. unfold saved. destruct (writable w1); cbn [disk set_stdout set_disk];
      rewrite ?(lookup_insert_ne (disk w1)) by (cbn [ConfigFile]; congruence);
      rewrite Hd; (destruct (tool_wrote o);
        [rewrite lookup_insert_eq; discriminate
        | destruct Hfile as [Hf | Hf]; [discriminate | exact Hf]]).
  - unfold saved. destruct (writable w1); exact Htool.
Qed.

Lemma successful_capture_adds_an_image_note_witness :
  captureWorks Capture.toolWorks (targetPath Demo.app1 Capture.toolWorks)
  /\ app_after (TakeScreenshot "Map" ["sea"]) Demo.app1 Capture.toolWorks
     = mkApp (Notes Demo.app1
              ++ [newImageNote "Map" ["sea"] Demo.app1 Capture.toolWorks])
             (wrap_int (NextID Demo.app1 + 1)) (NotesDir Demo.app1)
             (ConfigFile Demo.app1).
Proof.
  assert (Hworks : captureWorks Capture.toolWorks
                     (targetPath Demo.app1 Capture.toolWorks)).
  { split; [reflexivity |]. exists (mkOutcome true true), [].
    split; [reflexivity | split; [reflexivity | left; reflexivity]]. }
  split; [exact Hworks |].
  exact (proj1 (successful_capture_adds_an_image_note "Map" ["sea"] Demo.app1
                  Capture.toolWorks Hworks)).
Defined.

Lemma RecaptureImage_asked (a : NotesApp) (w : World) (id : Z) (i : nat)
      (note : Note) :
  findNote id (Notes a) = Some (i, note) ->
  Type_ note = "screenshot" ->
  supported (GOOS w) = true ->
  exists out,
    RecaptureImage id (a, w)
    = (ok <- RunCapture (retakePath a w note) ;;
       if negb ok then Print ErrRecapture else
       missing <- IsNotExist (retakePath a w note) ;;
       if missing then Print RecaptureCancelled else
       modNote i (set_FilePath (retakePath a w note)) ;;
       modNote i (set_Screenshot (retakeName w note)) ;;
       updatedAt <- Now ;;
       modNote i (set_UpdatedAt updatedAt) ;;
       (if dropsOld w note then
          removed <- Remove (FilePath note) ;;
          if removed then skip else Print WarnDeleteOld
        else skip) ;;
       SaveNotes ;;
       Print (Recaptured id (retakeName w note)))
      (a, set_stdout out (set_ticks (S (ticks w)) (set_stdin (tl (stdin w)) w))).
Proof.
  intros Hfind Hkind Hs. unfold RecaptureImage. mstep. rewrite Hfind, Hkind.
  change (negb (String.eqb "screenshot" "screenshot")) with false. cbv iota.
  do 4 mstep. wsimp. rewrite Hs. cbn [negb]. mstep.
  eexists. unfold retakePath, retakeName, dropsOld, nthLine. cbn [dropLines].
  same_result.
Qed.

Lemma RecaptureImage_fails (a : NotesApp) (w : World) (id : Z)
      (i : nat) (note : Note) :
  findNote id (Notes a) = Some (i, note) ->
  Type_ note = "screenshot" ->
  ~ captureWorks w (retakePath a w note) ->
  app_after (RecaptureImage id) a w = a
  /\ forall p, p <> retakePath a w note ->
       disk (world_after (RecaptureImage id) a w) !! p = disk w !! p.
Proof.
  intros Hfind Hkind Hfails. unfold app_after, world_after.
  destruct (supported (GOOS w)) eqn:Hs.
  - destruct (RecaptureImage_asked a w id i note Hfind Hkind Hs) as [out ->].
    mstep2. wsimp. destruct (tool w) as [|[ok wrote] rest] eqn:Ht.
    + cbn [negb]. mlast. split; [reflexivity | intros; reflexivity].
    + cbn [tool_ok tool_wrote]. destruct ok; cbn [negb].
      * mstep2. wsimp.
        destruct wrote; wsimp.
        -- exfalso. apply Hfails. split; [exact Hs |].
           exists (mkOutcome true true), rest. splits; auto.
        -- destruct (disk w !! retakePath a w note) eqn:Hd.
           ++ exfalso. apply Hfails. split; [exact Hs |].
              exists (mkOutcome true false), rest. splits; auto.
              right. rewrite Hd. discriminate.
           ++ mlast. split; [reflexivity | intros; reflexivity].
      * mlast. cbn [fst snd]. split; [reflexivity |].
        intros p Hp. destruct wrote; wsimp; [| reflexivity].
        apply lookup_insert_ne. congruence.
  - unfold RecaptureImage. mstep. rewrite Hfind, Hkind.
    change (negb (String.eqb "screenshot" "screenshot")) with false. cbv iota.
    do 4 mstep. wsimp. rewrite Hs. cbn [negb]. mlast.
    split; [reflexivity | intros; reflexivity].
Qed.

(** X18: when the new capture of [RecaptureImage] on a screenshot note
    does not go through, the store is as it was and no file but the one at
    the new target path is touched: the old image stays, whatever was
    answered to the question of replacing it. *)
Theorem failed_recapture_keeps_the_old_image (a : NotesApp) (w : World) (id : Z)
        (i : nat) (note : Note) :
  findNote id (Notes a) = Some (i, note) ->
  Type_ note = "screenshot" ->
  ~ captureWorks w (retakePath a w note) ->
  app_after (RecaptureImage id) a w = a
  /\ forall p, p <> retakePath a w note ->
       disk (world_after (RecaptureImage id) a w) !! p = disk w !! p.
Proof. apply RecaptureImage_fails. Qed.

Lemma failed_recapture_keeps_the_old_image_witness :
  findNote 2 (Notes Demo.app2) = Some (1%nat, Demo.chart)
  /\ Type_ Demo.chart = "screenshot"
  /\ ~ captureWorks (set_stdin [line "y"] Session.world2)
         (retakePath Demo.app2 (set_stdin [line "y"] Session.world2) Demo.chart)
  /\ app_after (RecaptureImage 2) Demo.app2 (set_stdin [line "y"] Session.world2)
     = Demo.app2.
Proof.
  assert (Hfind : findNote 2 (Notes Demo.app2) = Some (1%nat, Demo.chart))
    by (vm_compute; reflexivity).
  assert (Hkind : Type_ Demo.chart = "screenshot") by reflexivity.
  assert (Hfails : ~ captureWorks (set_stdin [line "y"] Session.world2)
                     (retakePath Demo.app2 (set_stdin [line "y"] Session.world2)
                        Demo.chart)).
  { intros [_ [o [rest [H _]]]]. discriminate H. }
  split; [exact Hfind | split; [exact Hkind | split; [exact Hfails |]]].
  exact (proj1 (failed_recapture_keeps_the_old_image Demo.app2
                  (set_stdin [line "y"] Session.world2) 2 1%nat Demo.chart
                  Hfind Hkind Hfails)).
Defined.


Lemma RecaptureImage_works (a : NotesApp) (w : World) (id : Z) (i : nat)
      (note : Note) :
  findNote id (Notes a) = Some (i, note) ->
  Type_ note = "screenshot" ->
  captureWorks w (retakePath a w note) ->
  exists out w1 d,
    snd (RecaptureImage id (a, w))
    = (set_Notes (<[i := retaken a w note]> (Notes a)) a,
       set_stdout out
         (saved (set_Notes (<[i := retaken a w note]> (Notes a)) a) w1))
    /\ writable w1 = writable w
    /\ disk w1 = (if dropsOld w note then delete (FilePath note) d else d)
    /\ d !! retakePath a w note <> None
    /\ forall p, p <> retakePath a w note -> d !! p = disk w !! p.
Proof.
  intros Hfind Hkind (Hs & o & rest & Ht & Hok & Hfile).
  destruct (findNote_lookup _ _ _ _ Hfind) as [Hi _].
  destruct (RecaptureImage_asked a w id i note Hfind Hkind Hs) as [out ->].
  mstep2. wsimp. rewrite Ht. destruct o as [ok wrote].
  cbn [tool_ok tool_wrote] in *. subst ok. cbn [negb]. mstep2.
  set (p := retakePath a w note) in *.
  assert (Hnote : forall l : list Note,
            l = Notes a ->
            alter (fun x => set_UpdatedAt (clock w (S (ticks w)))
                              (set_Screenshot (retakeName w note)
                                 (set_FilePath p x))) i l
            = <[i := retaken a w note]> (Notes a)).
  { intros l ->. apply alter_same with (x := note); [exact Hi | reflexivity]. }
  assert (Hcases : exists d,
            d = (if wrote then <[p := Readable Malformed]> (disk w) else disk w)
            /\ d !! p <> None
            /\ forall q, q <> p -> d !! q = disk w !! q).
  { eexists. split; [reflexivity |]. destruct wrote; split.
    - rewrite lookup_insert_eq. discriminate.
    - intros q Hq. apply lookup_insert_ne. congruence.
    - destruct Hfile as [Hf | Hf]; [discriminate | exact Hf].
    - reflexivity. }
  destruct Hcases as (d & Hd & Hp & Hq).
  destruct wrote; wsimp; rewrite <- Hd;
    (destruct (d !! p) eqn:Hnew; [clear Hp | contradiction]);
    (destruct (dropsOld w note) eqn:Hdrop;
     [destruct (d !! FilePath note) eqn:Hold |]);
    eexists; eexists; exists d;
    (split; [| splits; [ | | congruence | first [exact Hq | intros; reflexivity] ]]).
  all: try (do 4 mstep2; wsimp; rewrite <- ?Hd;
            first [ do 2 mstep2; wsimp; rewrite <- ?Hd, Hold | idtac ];
            repeat mstep2; mlast2; cbn [fst snd Notes set_Notes];
            rewrite !alter_alter, !set_Notes_twice, (Hnote _ eq_refl);
            reflexivity).
  all: try reflexivity.
  all: try (wsimp; rewrite <- ?Hd; reflexivity).
  all: try (wsimp; rewrite <- ?Hd; symmetry; apply delete_id, Hold).
Qed.

(** X19: when the new capture of [RecaptureImage] goes through on a disk
    that can be written, the note gets the new path and file name and the
    reading of the clock as its update time, in its place in the store;
    the document is saved; the old image file is removed when the answer
    was y or yes and the note had a path; the new file is on the disk
    unless it is that old file; no other file changes. *)
Theorem successful_recapture_replaces_the_image (a : NotesApp) (w : World) (id : Z)
        (i : nat) (note : Note) :
  findNote id (Notes a) = Some (i, note) ->
  Type_ note = "screenshot" ->
  captureWorks w (retakePath a w note) ->
  writable w = true ->
  let a' := app_after (RecaptureImage id) a w in
  let w' := world_after (RecaptureImage id) a w in
  a' = set_Notes (<[i := retaken a w note]> (Notes a)) a
  /\ persisted a' w'
  /\ (dropsOld w note = true -> FilePath note <> ConfigFile a ->
      disk w' !! FilePath note = None)
  /\ (retakePath a w note <> ConfigFile a ->
      dropsOld w note = false \/ FilePath note <> retakePath a w note ->
      disk w' !! retakePath a w note <> None)
  /\ (forall q, q <> ConfigFile a -> q <> retakePath a w note ->
        dropsOld w note = false \/ q <> FilePath note ->
        disk w' !! q = disk w !! q).
Proof.
  intros Hfind Hkind Hworks Hw a' w'. subst a' w'. unfold app_after, world_after.
  destruct (RecaptureImage_works a w id i note Hfind Hkind Hworks)
    as (out & w1 & d & -> & Hw1 & Hd1 & Hp & Hq).
  cbn [fst snd]. splits.
  - reflexivity.
  - apply persisted_saved. congruence.
  - intros Hdrop Hne. unfold saved. rewrite Hw1, Hw. cbn [disk set_stdout set_disk].
    rewrite lookup_insert_ne by (cbn [ConfigFile set_Notes]; congruence).
    rewrite Hd1, Hdrop. apply lookup_delete_eq.
  - intros Hne Hkeep. unfold saved. rewrite Hw1, Hw. cbn [disk set_stdout set_disk].
    rewrite lookup_insert_ne by (cbn [ConfigFile set_Notes]; congruence).
    rewrite Hd1. destruct (dropsOld w note); [| exact Hp].
    destruct Hkeep as [Hk | Hk]; [discriminate |].
    rewrite lookup_delete_ne by congruence. exact Hp.
  - intros q Hc Hn Hkeep. unfold saved. rewrite Hw1, Hw.
    cbn [disk set_stdout set_disk].
    rewrite lookup_insert_ne by (cbn [ConfigFile set_Notes]; congruence).
    rewrite Hd1. destruct (dropsOld w note); [| apply Hq, Hn].
    destruct Hkeep as [Hk | Hk]; [discriminate |].
    rewrite lookup_delete_ne by congruence. apply Hq, Hn.
Qed.

Lemma successful_recapture_replaces_the_image_witness :
  let w := set_tool [mkOutcome true true] (set_stdin [line "y"] Session.world2) in
  findNote 2 (Notes Demo.app2) = Some (1%nat, Demo.chart)
  /\ Type_ Demo.chart = "screenshot"
  /\ captureWorks w (retakePath Demo.app2 w Demo.chart)
  /\ writable w = true
  /\ app_after (RecaptureImage 2) Demo.app2 w
     = set_Notes (<[1%nat := retaken Demo.app2 w Demo.chart]> (Notes Demo.app2))
                 Demo.app2.
Proof.
  intros w.
  assert (Hfind : findNote 2 (Notes Demo.app2) = Some (1%nat, Demo.chart))
    by (vm_compute; reflexivity).
  assert (Hkind : Type_ Demo.chart = "screenshot") by reflexivity.
  assert (Hworks : captureWorks w (retakePath Demo.app2 w Demo.chart)).
  { split; [reflexivity |]. exists (mkOutcome true true), [].
    split; [reflexivity | split; [reflexivity | left; reflexivity]]. }
  assert (Hw : writable w = true) by reflexivity.
  split; [exact Hfind | split; [exact Hkind | split; [exact Hworks |
    split; [exact Hw |]]]].
  exact (proj1 (successful_recapture_replaces_the_image Demo.app2 w 2 1%nat
                  Demo.chart Hfind Hkind Hworks Hw)).
Defined.

(** ** Retitling *)

(** X20: with an answer that is not blank, [RetitleScroll] on a note the
    store has sets the title to the trimmed answer and the update time to
    the reading of the clock, saves the document on a disk that can be
    written, touches no other file and prints last that the scroll was
    retitled. *)
Theorem RetitleScroll_sets_the_trimmed_title (a : NotesApp) (w : World) (id : Z)
        (i : nat) (note : Note) :
  findNote id (Notes a) = Some (i, note) ->
  Strings.TrimSpace (nthLine 0 w) <> EmptyString ->
  let a' := app_after (RetitleScroll id) a w in
  let w' := world_after (RetitleScroll id) a w in
  a' = set_Notes (<[i := set_UpdatedAt (clock w (ticks w))
                           (set_Title (Strings.TrimSpace (nthLine 0 w)) note)]>
                    (Notes a)) a
  /\ (writable w = true -> persisted a' w')
  /\ (forall p, p <> ConfigFile a -> disk w' !! p = disk w !! p)
  /\ List.last (stdout w') NoScrolls
     = Retitled id (Strings.TrimSpace (nthLine 0 w)).
Proof.
  intros Hfind Hne a' w'. subst a' w'. unfold app_after, world_after.
  destruct (findNote_lookup _ _ _ _ Hfind) as [Hi _].
  apply isEmpty_false in Hne. unfold nthLine in *. cbn [dropLines] in *.
  unfold RetitleScroll. mstep. rewrite Hfind. do 3 mstep. wsimp.
  rewrite Hne. cbn [negb]. repeat mstep. mlast.
  cbn [fst snd Notes set_Notes]. wsimp. rewrite alter_alter, set_Notes_twice.
  erewrite (alter_same _ i (Notes a) note) by (first [exact Hi | reflexivity]).
  splits.
  - reflexivity.
  - intros Hw. apply persisted_saved. exact Hw.
  - intros p Hp. unfold saved. wsimp.
    destruct (writable w); wsimp; [| reflexivity].
    apply lookup_insert_ne. cbn [ConfigFile set_Notes]. congruence.
  - apply last_last.
Qed.

Lemma RetitleScroll_sets_the_trimmed_title_witness :
  findNote 1 (Notes Demo.app1) = Some (0%nat, Demo.gate)
  /\ Strings.TrimSpace (nthLine 0 (set_stdin [line "  Gate "] Demo.world1))
     <> EmptyString
  /\ app_after (RetitleScroll 1) Demo.app1 (set_stdin [line "  Gate "] Demo.world1)
     = set_Notes
         (<[0%nat := set_UpdatedAt
                       (clock (set_stdin [line "  Gate "] Demo.world1)
                          (ticks (set_stdin [line "  Gate "] Demo.world1)))
                       (set_Title
                          (Strings.TrimSpace
                             (nthLine 0 (set_stdin [line "  Gate "] Demo.world1)))
                          Demo.gate)]>
            (Notes Demo.app1)) Demo.app1.
Proof.
  assert (Hfind : findNote 1 (Notes Demo.app1) = Some (0%nat, Demo.gate))
    by (vm_compute; reflexivity).
  assert (Hne : Strings.TrimSpace (nthLine 0 (set_stdin [line "  Gate "] Demo.world1))
                <> EmptyString) by (vm_compute; discriminate).
  split; [exact Hfind | split; [exact Hne |]].
  exact (proj1 (RetitleScroll_sets_the_trimmed_title Demo.app1
                  (set_stdin [line "  Gate "] Demo.world1) 1 0%nat Demo.gate
                  Hfind Hne)).
Defined.

(** ** Queries *)

Lemma matchesQuery_empty (table : N -> N) (n : Note) :
  matchesQuery table EmptyString n = true.
Proof.
  unfold matchesQuery, Strings.Contains.
  change (Strings.bytes EmptyString) with (@nil ascii).
  destruct (Strings.bytes (Strings.ToLower table (Title n))); reflexivity.
Qed.

Lemma filter_all {A : Type} (f : A -> bool) (l : list A) :
  (forall x, f x = true) -> List.filter f l = l.
Proof.
  intros H. induction l as [|x l IH]; simpl; [reflexivity |].
  rewrite H, IH. reflexivity.
Qed.

(** X21: at the seek command a blank query is turned away: the turn prints
    that the query is empty and nothing else, and [SearchNotes] is not
    called.  Called with the empty query, [SearchNotes] would match every
    note of the store. *)
Theorem blank_query_is_not_searched (a : NotesApp) (w : World) :
  Blank (Strings.bytes (nthLine 0 w)) ->
  Run_seek (a, w)
  = (tt, (a, set_stdout (stdout w ++ [Prompt "What knowledge do you seek?: ";
                                      EmptyQuery])
               (set_stdin (tl (stdin w)) w)))
  /\ search EmptyString a w = Notes a.
Proof.
  intros Hb. apply TrimSpace_Blank in Hb. unfold nthLine in Hb. cbn [dropLines] in Hb.
  split.
  - unfold Run_seek. do 2 mstep2. wsimp. rewrite Hb.
    change (negb (isEmpty EmptyString)) with false. cbv iota. mlast2. same_result.
  - rewrite search_filter. apply filter_all. intros n.
    change (Strings.ToLower (lowerCase w) EmptyString) with EmptyString.
    apply matchesQuery_empty.
Qed.

Lemma blank_query_is_not_searched_witness :
  Blank (Strings.bytes (nthLine 0 (set_stdin ["  "] Demo.world1)))
  /\ search EmptyString Demo.app2 (set_stdin ["  "] Demo.world1) = Notes Demo.app2.
Proof.
  assert (Hb : Blank (Strings.bytes (nthLine 0 (set_stdin ["  "] Demo.world1)))).
  { repeat (apply Blank_1; [reflexivity |]). apply Blank_nil. }
  split; [exact Hb |].
  exact (proj2 (blank_query_is_not_searched Demo.app2 (set_stdin ["  "] Demo.world1)
                  Hb)).
Defined.

(** ** The paths in the document *)

(** X22: the directory and the path of the document are fields of the
    document: when the document at the standard path names another path,
    the store started from it saves there.  Where files can be written, a
    note created then is written to that other path, the document at the
    standard path stays as it was, and a new start finds the store without
    the note.  (The strings of the store are well-formed UTF-8.) *)
Theorem document_paths_redirect_the_store (w : World) (a : NotesApp)
        (title content : string) (tags : list string) :
  ints_ok a ->
  utf8_ok a ->
  writable w = true ->
  disk w !! configPath w = Some (Readable (MarshalIndent a)) ->
  ConfigFile a <> configPath w ->
  let s0 := NewNotesApp w in
  let s1 := snd (CreateTextNote title content tags s0) in
  fst s0 = a
  /\ Notes (fst s1) = Notes a ++ [newTextNote title content tags a w]
  /\ disk (snd s1) !! ConfigFile a = Some (Readable (MarshalIndent (fst s1)))
  /\ disk (snd s1) !! configPath w = Some (Readable (MarshalIndent a))
  /\ fst (NewNotesApp (snd s1)) = a.
Proof.
  intros Hok Hu Hw Hdoc Hne s0 s1. subst s0 s1.
  rewrite (NewNotesApp_readable w _ Hdoc). unfold freshApp.
  rewrite (Unmarshal_MarshalIndent a _ _ _ Hok), (writtenApp_utf8_ok a Hu).
  cbn [fst snd].
  unfold CreateTextNote, appendNote. repeat mstep2. mlast2. cbn [fst snd].
  unfold saved. wsimp. rewrite Hw. wsimp. cbn [ConfigFile set_NextID set_Notes].
  splits.
  - reflexivity.
  - reflexivity.
  - apply lookup_insert_eq.
  - rewrite lookup_insert_ne by exact Hne. exact Hdoc.
  - set (w1 := set_stdout _ _).
    assert (Hd : disk w1 !! configPath w1 = Some (Readable (MarshalIndent a))).
    { change (configPath w1) with (configPath w). unfold w1. wsimp.
      rewrite lookup_insert_ne by exact Hne. exact Hdoc. }
    rewrite (NewNotesApp_readable w1 _ Hd). unfold freshApp.
    rewrite (Unmarshal_MarshalIndent a _ _ _ Hok), (writtenApp_utf8_ok a Hu).
    reflexivity.
Qed.

Lemma document_paths_redirect_the_store_witness :
  ints_ok Session.moved
  /\ utf8_ok Session.moved
  /\ writable Session.copied = true
  /\ disk Session.copied !! configPath Session.copied
     = Some (Readable (MarshalIndent Session.moved))
  /\ ConfigFile Session.moved <> configPath Session.copied
  /\ fst (NewNotesApp Session.copied) = Session.moved.
Proof.
  assert (Hok : ints_ok Session.moved).
  { split; [vm_compute; reflexivity | repeat constructor]. }
  assert (Hu : utf8_ok Session.moved) by (repeat constructor).
  assert (Hw : writable Session.copied = true) by reflexivity.
  assert (Hdoc : disk Session.copied !! configPath Session.copied
                 = Some (Readable (MarshalIndent Session.moved)))
    by (vm_compute; reflexivity).
  assert (Hne : ConfigFile Session.moved <> configPath Session.copied)
    by (vm_compute; discriminate).
  split; [exact Hok | split; [exact Hu | split; [exact Hw | split; [exact Hdoc |
    split; [exact Hne |]]]]].
  exact (proj1 (document_paths_redirect_the_store Session.copied Session.moved
                  "Gate Code" "4471" [] Hok Hu Hw Hdoc Hne)).
Defined.

(** ** Scroll IDs as text *)

Lemma digits_acc (d : Decimal.uint) (acc : positive) :
  digits (Z.pos acc) (Strings.bytes (DecimalString.NilEmpty.string_of_uint d))
  = Some (Z.pos (Pos.of_uint_acc d acc)).
Proof.
  revert acc. induction d as [|d IH|d IH|d IH|d IH|d IH|d IH|d IH|d IH|d IH|d IH];
    intros acc; [reflexivity | ..];
    cbn [DecimalString.NilEmpty.string_of_uint Pos.of_uint_acc];
    rewrite <- IH;
    match goal with
    | |- digits ?x (Strings.bytes (String ?c ?s)) = digits ?y _ =>
        change (digits x (Strings.bytes (String c s)))
          with (digits (x * 10 + Z.of_N (Strings.code c - 48)) (Strings.bytes s));
        f_equal; cbn; lia
    end.
Qed.

Lemma digits_uint (d : Decimal.uint) :
  digits 0 (Strings.bytes (DecimalString.NilEmpty.string_of_uint d))
  = Some (Z.of_N (Pos.of_uint d)).
Proof.
  induction d as [|d IH|d IH|d IH|d IH|d IH|d IH|d IH|d IH|d IH|d IH];
    [reflexivity | exact IH | ..];
    cbn [DecimalString.NilEmpty.string_of_uint Pos.of_uint Z.of_N];
    rewrite <- digits_acc; reflexivity.
Qed.

Lemma Atoi_uint (p : positive) (neg : bool) :
  in_int (if neg then Z.neg p else Z.pos p) = true ->
  Atoi (if neg
        then String "-" (DecimalString.NilZero.string_of_uint (Pos.to_uint p))
        else DecimalString.NilZero.string_of_uint (Pos.to_uint p))
  = Some (if neg then Z.neg p else Z.pos p).
Proof.
  intros Hin. pose proof (digits_uint (Pos.to_uint p)) as Hd.
  rewrite DecimalPos.Unsigned.of_to in Hd. cbn [Z.of_N] in Hd.
  pose proof (DecimalPos.Unsigned.to_uint_nonnil p) as Hnil.
  destruct (Pos.to_uint p) as [|d|d|d|d|d|d|d|d|d|d]; [contradiction | ..];
    unfold Atoi; destruct neg;
    cbn [DecimalString.NilZero.string_of_uint DecimalString.NilEmpty.string_of_uint
         Strings.bytes list_ascii_of_string];
    cbn [DecimalString.NilEmpty.string_of_uint Strings.bytes list_ascii_of_string]
      in Hd;
    match goal with
    | |- context [Ascii.eqb ?c "-"] =>
        let b := eval vm_compute in (Ascii.eqb c "-") in
        change (Ascii.eqb c "-") with b
    end;
    try match goal with
        | |- context [Ascii.eqb ?c "+"] =>
            let b := eval vm_compute in (Ascii.eqb c "+") in
            change (Ascii.eqb c "+") with b
        end;
    cbn [orb]; cbv iota; rewrite Hd; cbv zeta iota;
    change (- Z.pos p) with (Z.neg p); rewrite Hin; reflexivity.
Qed.

(** X23: [Atoi] reads every Go [int] back from the decimal form in which
    the program prints IDs: the ID shown for a note is accepted at the ID
    questions and denotes that note. *)
Theorem Atoi_reads_back_what_itoa_prints (z : Z) :
  in_int z = true -> Atoi (itoa z) = Some z.
Proof.
  intros Hin. destruct z as [|p|p].
  - reflexivity.
  - apply (Atoi_uint p false Hin).
  - apply (Atoi_uint p true Hin).
Qed.

Lemma Atoi_reads_back_what_itoa_prints_witness :
  in_int 4471 = true /\ Atoi (itoa 4471) = Some 4471.
Proof.
  assert (Hin : in_int 4471 = true) by reflexivity.
  exact (conj Hin (Atoi_reads_back_what_itoa_prints 4471 Hin)).
Defined.

(** ** Tags *)

Section Trimming.

Import Strings.

Local Arguments isSpace1 : simpl never.
Local Arguments isSpace2 : simpl never.
Local Arguments isSpace3 : simpl never.

Lemma trimLeft_clean_suffix (n : nat) (l : list ascii) :
  (length l <= n)%nat ->
  startsClean (trimLeft l) /\ exists k, l = k ++ trimLeft l.
Proof.
  revert l. induction n as [|n IH]; intros l Hn.
  - destruct l; [| cbn [length] in Hn; lia]. split; [exact I | exists []; reflexivity].
  - destruct l as [|a [|b [|c r3]]]; cbn [trimLeft].
    + split; [exact I | exists []; reflexivity].
    + destruct (isSpace1 a) eqn:E1; cbn [trimLeft].
      * split; [exact I | exists [a]; reflexivity].
      * split; [split; [exact E1 | exact I] | exists []; reflexivity].
    + destruct (isSpace1 a) eqn:E1.
      * destruct (IH [b]) as [Hc [k Hk]]; [cbn [length] in *; lia |].
        split; [exact Hc | exists (a :: k); cbn [app]; f_equal; exact Hk].
      * destruct (isSpace2 a b) eqn:E2; cbn [trimLeft].
        -- split; [exact I | exists [a; b]; reflexivity].
        -- split; [repeat split; assumption | exists []; reflexivity].
    + destruct (isSpace1 a) eqn:E1.
      * destruct (IH (b :: c :: r3)) as [Hc [k Hk]]; [cbn [length] in *; lia |].
        split; [exact Hc | exists (a :: k); cbn [app]; f_equal; exact Hk].
      * destruct (isSpace2 a b) eqn:E2.
        -- destruct (IH (c :: r3)) as [Hc [k Hk]]; [cbn [length] in *; lia |].
           split; [exact Hc | exists (a :: b :: k); cbn [app]; do 2 f_equal; exact Hk].
        -- destruct (isSpace3 a b c) eqn:E3.
           ++ destruct (IH r3) as [Hc [k Hk]]; [cbn [length] in *; lia |].
              split; [exact Hc |].
              exists (a :: b :: c :: k). cbn [app]. do 3 f_equal. exact Hk.
           ++ split; [repeat split; assumption | exists []; reflexivity].
Qed.

Lemma trimRightRev_clean_suffix (n : nat) (l : list ascii) :
  (length l <= n)%nat ->
  endsCleanRev (trimRightRev l) /\ exists k, l = k ++ trimRightRev l.
Proof.
  revert l. induction n as [|n IH]; intros l Hn.
  - destruct l; [| cbn [length] in Hn; lia]. split; [exact I | exists []; reflexivity].
  - destruct l as [|a [|b [|c r3]]]; cbn [trimRightRev].
    + split; [exact I | exists []; reflexivity].
    + destruct (isSpace1 a) eqn:E1; cbn [trimRightRev].
      * split; [exact I | exists [a]; reflexivity].
      * split; [split; [exact E1 | exact I] | exists []; reflexivity].
    + destruct (isSpace1 a) eqn:E1.
      * destruct (IH [b]) as [Hc [k Hk]]; [cbn [length] in *; lia |].
        split; [exact Hc | exists (a :: k); cbn [app]; f_equal; exact Hk].
      * destruct (isSpace2 b a) eqn:E2; cbn [trimRightRev].
        -- split; [exact I | exists [a; b]; reflexivity].
        -- split; [repeat split; assumption | exists []; reflexivity].
    + destruct (isSpace1 a) eqn:E1.
      * destruct (IH (b :: c :: r3)) as [Hc [k Hk]]; [cbn [length] in *; lia |].
        split; [exact Hc | exists (a :: k); cbn [app]; f_equal; exact Hk].
      * destruct (isSpace2 b a) eqn:E2.
        -- destruct (IH (c :: r3)) as [Hc [k Hk]]; [cbn [length] in *; lia |].
           split; [exact Hc | exists (a :: b :: k); cbn [app]; do 2 f_equal; exact Hk].
        -- destruct (isSpace3 c b a) eqn:E3.
           ++ destruct (IH r3) as [Hc [k Hk]]; [cbn [length] in *; lia |].
              split; [exact Hc |].
              exists (a :: b :: c :: k). cbn [app]. do 3 f_equal. exact Hk.
           ++ split; [repeat split; assumption | exists []; reflexivity].
Qed.

Lemma startsClean_prefix (x y : list ascii) : startsClean (x ++ y) -> startsClean x.
Proof.
  destruct x as [|a [|b [|c r3]]]; destruct y as [|b' [|c' r']];
    cbn [startsClean app]; tauto.
Qed.

Lemma startsClean_fixed (l : list ascii) : startsClean l -> trimLeft l = l.
Proof.
  destruct l as [|a [|b [|c r3]]]; cbn [startsClean endsCleanRev trimLeft trimRightRev];
    try reflexivity.
  - intros [-> _]. reflexivity.
  - intros [-> [-> _]]. reflexivity.
  - intros [-> [-> ->]]. reflexivity.
Qed.

Lemma endsCleanRev_fixed (l : list ascii) : endsCleanRev l -> trimRightRev l = l.
Proof.
  destruct l as [|a [|b [|c r3]]]; cbn [startsClean endsCleanRev trimLeft trimRightRev];
    try reflexivity.
  - intros [-> _]. reflexivity.
  - intros [-> [-> _]]. reflexivity.
  - intros [-> [-> ->]]. reflexivity.
Qed.

Lemma TrimSpace_trimmed (s : string) : trimmed (TrimSpace s).
Proof.
  unfold trimmed, TrimSpace. rewrite bytes_of_bytes, rev_involutive.
  destruct (trimLeft_clean_suffix _ (bytes s) (le_n _)) as [Hl _].
  destruct (trimRightRev_clean_suffix _ (rev (trimLeft (bytes s))) (le_n _))
    as [Hr [k Hk]].
  split; [| exact Hr].
  apply (startsClean_prefix _ (rev k)).
  rewrite <- rev_app_distr, <- Hk, rev_involutive. exact Hl.
Qed.

Lemma trimmed_fixed (s : string) : trimmed s -> TrimSpace s = s.
Proof.
  intros [Hl Hr]. unfold TrimSpace.
  rewrite (startsClean_fixed _ Hl), (endsCleanRev_fixed _ Hr), rev_involutive.
  apply of_bytes_bytes.
Qed.

Lemma splitBytes_length (l : list ascii) :
  length (splitBytes ","%char l) = S (count_occ Ascii.ascii_dec l ","%char).
Proof.
  induction l as [|a l IH]; [reflexivity |].
  cbn [splitBytes count_occ].
  destruct (Ascii.eqb a ",") eqn:E.
  - apply Ascii.eqb_eq in E. subst a.
    destruct (Ascii.ascii_dec "," ","); [| contradiction].
    cbn [length]. rewrite IH. reflexivity.
  - apply Ascii.eqb_neq in E.
    destruct (Ascii.ascii_dec a ","); [contradiction |].
    destruct (splitBytes "," l) as [|h t]; [discriminate IH |]. exact IH.
Qed.

End Trimming.

(** X24: the tags read from a line: the empty line gives no tags; a line
    that is not empty gives one tag more than it has commas (empty tags
    included); and every tag is free of white space around it, so that
    trimming it again changes nothing. *)
Theorem parseTags_keeps_every_piece_trimmed (tagsInput : string) :
  (tagsInput = EmptyString -> parseTags tagsInput = [])
  /\ (tagsInput <> EmptyString ->
      length (parseTags tagsInput) = S (commas tagsInput))
  /\ Forall (fun tag => trimmed tag /\ Strings.TrimSpace tag = tag)
            (parseTags tagsInput).
Proof.
  unfold parseTags, commas, Strings.Split. splits.
  - intros ->. reflexivity.
  - intros H. apply isEmpty_false in H. rewrite H.
    rewrite !length_map. apply splitBytes_length.
  - destruct (isEmpty tagsInput); [constructor |].
    apply List.Forall_forall. intros tag Hin.
    apply in_map_iff in Hin as [piece [<- _]].
    split; [apply TrimSpace_trimmed | apply trimmed_fixed, TrimSpace_trimmed].
Qed.

(** ** What every turn of the loop does *)

Lemma captureWorks_dec (w : World) (p : string) :
  captureWorks w p \/ ~ captureWorks w p.
Proof.
  unfold captureWorks. destruct (supported (GOOS w)); [| right; intros [H _]; discriminate].
  destruct (tool w) as [|[ok wrote] rest];
    [right; intros (_ & o & r & H & _); discriminate |].
  destruct ok; [| right; intros (_ & o & r & [= <- <-] & H & _); discriminate].
  destruct wrote; [left; split; [reflexivity |]; eexists; eexists; splits; eauto |].
  destruct (disk w !! p) eqn:E.
  - left. split; [reflexivity |]. eexists. eexists. splits; eauto; right; discriminate.
  - right. intros (_ & o & r & [= <- <-] & _ & [H | H]); [discriminate | contradiction].
Qed.

Lemma TakeScreenshot_fails (title : string) (tags : list string)
      (a : NotesApp) (w : World) :
  ~ captureWorks w (targetPath a w) ->
  app_after (TakeScreenshot title tags) a w = a
  /\ forall p, p <> targetPath a w ->
       disk (world_after (TakeScreenshot title tags) a w) !! p = disk w !! p.
Proof.
  intros Hfails. unfold app_after, world_after, TakeScreenshot.
  do 3 mstep2. wsimp. fold (targetPath a w).
  destruct (supported (GOOS w)) eqn:Hs; cbn [negb];
    [| mlast2; split; [reflexivity | intros; reflexivity]].
  do 2 mstep2. wsimp. destruct (tool w) as [|[ok wrote] rest] eqn:Ht.
  - cbn [negb]. mlast. split; [reflexivity | intros; reflexivity].
  - cbn [tool_ok tool_wrote]. destruct ok; cbn [negb].
    + mstep2. wsimp. destruct wrote; wsimp.
      * exfalso. apply Hfails. split; [exact Hs |].
        exists (mkOutcome true true), rest. splits; auto.
      * destruct (disk w !! targetPath a w) eqn:Hd.
        -- exfalso. apply Hfails. split; [exact Hs |].
           exists (mkOutcome true false), rest. splits; auto.
           right. rewrite Hd. discriminate.
        -- mlast. split; [reflexivity | intros; reflexivity].
    + mlast. cbn [fst snd]. split; [reflexivity |].
      intros p Hp. destruct wrote; wsimp; [| reflexivity].
      apply lookup_insert_ne. congruence.
Qed.

Lemma kept (a : NotesApp) (w w' : World) :
  (forall p, ~ imagePath a p -> disk w' !! p = disk w !! p) ->
  kept_or_saved a w a w'.
Proof.
  intros Hd. left. split; [| exact Hd].
  exists (Notes a). split; [apply Permutation_refl |].
  symmetry. apply set_Notes_same.
Qed.

Lemma turn_ok_kept (a : NotesApp) (w w' : World) :
  (forall p, ~ imagePath a p -> disk w' !! p = disk w !! p) ->
  turn_ok (a, w) (a, w').
Proof. intros Hd. split; [apply change_none | intros _; apply kept, Hd]. Qed.

(** The store is kept and so is the disk. *)
Ltac kept_as_is := apply turn_ok_kept; intros; reflexivity.

Lemma turn_ok_from (a : NotesApp) (w w1 : World) (s' : NotesApp * World) :
  writable w1 = writable w -> disk w1 = disk w ->
  turn_ok (a, w1) s' -> turn_ok (a, w) s'.
Proof.
  intros Hw Hd [H1 H2]. split; [exact H1 |]. cbn [fst snd] in *.
  intros H. rewrite Hw in H2. destruct (H2 H) as [[Hl Hf] | Hp].
  - left. split; [exact Hl |]. intros p Hp. rewrite <- Hd. apply Hf, Hp.
  - right. exact Hp.
Qed.

Lemma saved_ok (a a' : NotesApp) (w w1 : World) (out : list message) :
  change a a' -> writable w1 = writable w ->
  turn_ok (a, w) (a', set_stdout out (saved a' w1)).
Proof.
  intros Hc Hw. split; [exact Hc |]. cbn [fst snd].
  intros Hw'. right. apply persisted_saved. congruence.
Qed.

Lemma CreateTextNote_ok (title content : string) (tags : list string)
      (a : NotesApp) (w : World) :
  turn_ok (a, w) (snd (CreateTextNote title content tags (a, w))).
Proof.
  unfold CreateTextNote, appendNote. repeat mstep2. mlast2. cbn [fst snd].
  apply saved_ok; [| reflexivity].
  cbn [fst NextID Notes ConfigFile NotesDir set_Notes set_NextID].
  apply (change_added a (mkNote _ _ _ _ _ _ _ _ _)); [reflexivity |].
  intros H. exfalso. apply H. reflexivity.
Qed.

Lemma targetPath_image (a : NotesApp) (w : World) : imagePath a (targetPath a w).
Proof. eexists. reflexivity. Qed.

Lemma retakePath_image (a : NotesApp) (w : World) (note : Note) :
  imagePath a (retakePath a w note).
Proof. eexists. reflexivity. Qed.

Lemma TakeScreenshot_ok (title : string) (tags : list string)
      (a : NotesApp) (w : World) :
  turn_ok (a, w) (snd (TakeScreenshot title tags (a, w))).
Proof.
  destruct (captureWorks_dec w (targetPath a w)) as [Hworks | Hfails].
  - destruct (TakeScreenshot_works title tags a w Hworks)
      as (out & w1 & -> & Hw & _).
    apply saved_ok; [| exact Hw].
    apply (change_added a (newImageNote title tags a w)); [reflexivity |].
    intros _. reflexivity.
  - destruct (TakeScreenshot_fails title tags a w Hfails) as [Ha Hd].
    unfold app_after, world_after in *.
    destruct (snd (TakeScreenshot title tags (a, w))) as [a' w'].
    cbn [fst snd] in *. subst a'. apply turn_ok_kept.
    intros p Hp. apply Hd. intros ->. apply Hp, targetPath_image.
Qed.

Lemma ListNotes_ok (a : NotesApp) (w : World) :
  turn_ok (a, w) (snd (ListNotes (a, w))).
Proof.
  unfold ListNotes. mstep2. destruct (Notes a) as [|n l] eqn:E.
  - mlast2. kept_as_is.
  - mstep2. mlast2. cbn [snd]. rewrite <- E. split; cbn [fst snd].
    + apply change_order, sort_Slice_perm.
    + intros _. left. split; [| intros; reflexivity].
      eexists. split; [apply sort_Slice_perm | reflexivity].
Qed.

Lemma SearchNotes_ok (query : string) (a : NotesApp) (w : World) :
  turn_ok (a, w) (snd (SearchNotes query (a, w))).
Proof.
  unfold SearchNotes. do 2 mstep2. destruct (List.filter _ _); mlast2; kept_as_is.
Qed.

Lemma EditScroll_ok (id : Z) (a : NotesApp) (w : World) :
  turn_ok (a, w) (snd (EditScroll id (a, w))).
Proof.
  destruct (findNote id (Notes a)) as [[i note]|] eqn:Hfind.
  - destruct (EditScroll_found _ w _ _ _ Hfind) as [out [w1 [-> [Hw _]]]].
    destruct (findNote_lookup _ _ _ _ Hfind) as [Hi _].
    destruct (editedNote_times w note) as [_ [Hc [Hid Hk]]].
    apply saved_ok; [| exact Hw].
    apply (change_note a i note); auto. apply editedNote_content.
  - unfold EditScroll. mstep. rewrite Hfind. mlast. kept_as_is.
Qed.

Lemma RetitleScroll_ok (id : Z) (a : NotesApp) (w : World) :
  turn_ok (a, w) (snd (RetitleScroll id (a, w))).
Proof.
  unfold RetitleScroll. mstep.
  destruct (findNote id (Notes a)) as [[i note]|] eqn:Hfind;
    [| mlast; kept_as_is].
  destruct (findNote_lookup _ _ _ _ Hfind) as [Hi _].
  do 3 mstep. destruct (isEmpty (Strings.TrimSpace _)); cbn [negb];
    [mlast; kept_as_is |].
  repeat mstep. mlast. cbn [fst snd Notes set_Notes].
  rewrite alter_alter, set_Notes_twice.
  erewrite (alter_same _ i (Notes a) note) by (first [exact Hi | reflexivity]).
  apply saved_ok; [| reflexivity].
  apply (change_note a i note); auto.
Qed.

Lemma RetagScroll_ok (id : Z) (a : NotesApp) (w : World) :
  turn_ok (a, w) (snd (RetagScroll id (a, w))).
Proof.
  destruct (findNote id (Notes a)) as [[i note]|] eqn:Hfind.
  - destruct (RetagScroll_found a w id i note Hfind) as [out [w1 [-> [Hw _]]]].
    destruct (findNote_lookup _ _ _ _ Hfind) as [Hi _].
    apply saved_ok; [| exact Hw].
    apply (change_note a i note); auto.
  - unfold RetagScroll. mstep. rewrite Hfind. mlast. kept_as_is.
Qed.

Lemma RecaptureImage_ok (id : Z) (a : NotesApp) (w : World) :
  turn_ok (a, w) (snd (RecaptureImage id (a, w))).
Proof.
  destruct (findNote id (Notes a)) as [[i note]|] eqn:Hfind;
    [| unfold RecaptureImage; mstep; rewrite Hfind; mlast; kept_as_is].
  destruct (findNote_lookup _ _ _ _ Hfind) as [Hi _].
  destruct (String.eqb (Type_ note) "screenshot") eqn:Hkind;
    [| unfold RecaptureImage; mstep; rewrite Hfind, Hkind; cbn [negb]; mlast;
       kept_as_is].
  apply String.eqb_eq in Hkind.
  destruct (captureWorks_dec w (retakePath a w note)) as [Hworks | Hfails].
  - destruct (RecaptureImage_works a w id i note Hfind Hkind Hworks)
      as (out & w1 & d & -> & Hw & _).
    apply saved_ok; [| exact Hw].
    apply (change_note a i note); auto.
  - destruct (RecaptureImage_fails a w id i note Hfind Hkind Hfails) as [Ha Hd].
    unfold app_after, world_after in *.
    destruct (snd (RecaptureImage id (a, w))) as [a' w'].
    cbn [fst snd] in *. subst a'. apply turn_ok_kept.
    intros p Hp. apply Hd. intros ->. apply Hp, retakePath_image.
Qed.

Lemma DeleteNote_ok (h : Host) (id : Z) (a : NotesApp) (w : World) :
  turn_ok (a, w) (snd (DeleteNote h id (a, w))).
Proof.
  destruct (findNote id (Notes a)) as [[i note]|] eqn:Hfind.
  - destruct (DeleteNote_found h a w id i note Hfind) as [out [w1 [-> [Hw _]]]].
    destruct (findNote_lookup _ _ _ _ Hfind) as [Hi _].
    apply saved_ok; [| exact Hw]. apply (change_removed a i note Hi).
  - unfold DeleteNote. mstep. rewrite Hfind. mlast. kept_as_is.
Qed.

Lemma ViewNote_ok (h : Host) (id : Z) (a : NotesApp) (w : World) :
  turn_ok (a, w) (snd (ViewNote h id (a, w))).
Proof.
  destruct (ViewNote_state h id a w) as (Ha & Hd & _).
  destruct (snd (ViewNote h id (a, w))) as [a' w']. cbn [fst snd] in *. subst a'.
  apply turn_ok_kept. intros p _. rewrite Hd. reflexivity.
Qed.

Lemma Run_inscribe_ok (a : NotesApp) (w : World) :
  turn_ok (a, w) (snd (Run_inscribe (a, w))).
Proof.
  unfold Run_inscribe. do 6 mstep2.
  eapply turn_ok_from; [| | apply CreateTextNote_ok]; reflexivity.
Qed.

Lemma Run_capture_ok (a : NotesApp) (w : World) :
  turn_ok (a, w) (snd (Run_capture (a, w))).
Proof.
  unfold Run_capture. do 4 mstep2.
  eapply turn_ok_from; [| | apply TakeScreenshot_ok]; reflexivity.
Qed.

Lemma Run_seek_ok (a : NotesApp) (w : World) :
  turn_ok (a, w) (snd (Run_seek (a, w))).
Proof.
  unfold Run_seek. do 2 mstep2. destruct (isEmpty _); cbn [negb].
  - mlast2. kept_as_is.
  - eapply turn_ok_from; [| | apply SearchNotes_ok]; reflexivity.
Qed.

Lemma Run_erase_ok (h : Host) (id : Z) (a : NotesApp) (w : World) :
  turn_ok (a, w) (snd (Run_erase h id (a, w))).
Proof.
  unfold Run_erase. do 3 mstep2. destruct (isYes _).
  - eapply turn_ok_from; [| | apply DeleteNote_ok]; reflexivity.
  - mlast2. kept_as_is.
Qed.

Lemma withID_ok {A : Type} (question : string) (op : Z -> M A)
      (done : A -> option ran) (a : NotesApp) (w : World) :
  (forall id a w, turn_ok (a, w) (snd (op id (a, w)))) ->
  turn_ok (a, w) (snd (withID question op done (a, w))).
Proof.
  intros Hop. unfold withID. do 2 mstep2. destruct (Atoi _) as [id|].
  - rewrite snd_then_ret. eapply turn_ok_from; [| | apply Hop]; reflexivity.
  - mstep2. mlast2. kept_as_is.
Qed.

Lemma Run_switch_ok (h : Host) (input : string) (a : NotesApp) (w : World) :
  turn_ok (a, w) (snd (Run_switch h input (a, w))).
Proof.
  unfold Run_switch. mstep2. cbv zeta.
  repeat match goal with
         | |- context [if oneOf ?l ?c then _ else _] => destruct (oneOf l c)
         end;
    try (rewrite (snd_then_ret _ (fun _ => @None ran)));
    first [ apply Run_inscribe_ok | apply Run_capture_ok | apply ListNotes_ok
          | apply Run_seek_ok
          | apply withID_ok;
            first [ apply ViewNote_ok | apply EditScroll_ok | apply RetitleScroll_ok
                  | apply RetagScroll_ok | apply RecaptureImage_ok
                  | apply Run_erase_ok ]
          | idtac ].
  - rewrite ShowHelp_run. kept_as_is.
  - mstep2. mlast2. kept_as_is.
  - do 2 mstep2. mlast2. kept_as_is.
Qed.

Lemma Run_command_ok (h : Host) (a : NotesApp) (w : World) :
  turn_ok (a, w) (snd (Run_command h (a, w))).
Proof.
  unfold Run_command. do 2 mstep2.
  eapply turn_ok_from; [| | apply Run_switch_ok]; reflexivity.
Qed.

Lemma change_sound (a a' : NotesApp) :
  sound a -> NextID a < max_int -> change a a' ->
  sound a' /\ NextID a <= NextID a' <= NextID a + 1
  /\ NotesDir a' = NotesDir a /\ ConfigFile a' = ConfigFile a
  /\ descends a a'.
Proof.
  intros (Habove & Hdup & Hpos & Hdata & Hnext) Hmax Hc.
  unfold sound, counter_above_ids, descends in *.
  assert (Hold : forall n', In n' (Notes a) ->
            (exists n, In n (Notes a) /\ ID n = ID n' /\ Type_ n = Type_ n'
                       /\ CreatedAt n = CreatedAt n') \/ NextID a <= ID n').
  { intros n' Hin. left. exists n'. auto. }
  destruct Hc as [| note Hid Hkind | l Hperm | i x y Hi Hid Hkind Hcr Hcont | i x Hi];
    cbn [Notes NextID NotesDir ConfigFile set_Notes without].
  - splits; auto; lia.
  - assert (Hmin : min_int <= NextID a) by (unfold min_int; lia).
    rewrite wrap_int_small by lia. splits; auto; try lia.
    + apply Forall_app. split.
      * eapply Forall_impl; [exact Habove |]. simpl. intros; lia.
      * constructor; [lia | constructor].
    + rewrite map_app. cbn [map]. apply NoDup_app. splits.
      * exact Hdup.
      * intros z Hz Hz'. apply list_elem_of_In in Hz'. destruct Hz' as [Hz' | []].
        apply list_elem_of_In, in_map_iff in Hz as [m [Hmz Hm]].
        rewrite List.Forall_forall in Habove. specialize (Habove m Hm). lia.
      * apply NoDup_singleton.
    + apply Forall_app. split; [exact Hpos |]. constructor; [lia | constructor].
    + apply data_model_snoc; assumption.
    + intros n' Hin. apply in_app_or in Hin as [Hin | [<- | []]]; [auto |].
      right. lia.
  - splits; auto; try lia.
    + eapply Permutation_Forall; [apply Permutation_sym, Hperm | exact Habove].
    + apply NoDup_ListNoDup. eapply Permutation_NoDup;
        [apply Permutation_map, Permutation_sym, Hperm |].
      apply NoDup_ListNoDup, Hdup.
    + eapply Permutation_Forall; [apply Permutation_sym, Hperm | exact Hpos].
    + eapply data_model_perm; eassumption.
    + intros n' Hin. apply Hold. eapply Permutation_in; eassumption.
  - assert (Hx : In x (Notes a)).
    { apply list_elem_of_In. eapply list_elem_of_lookup_2. exact Hi. }
    rewrite List.Forall_forall in Habove, Hpos.
    splits; auto; try lia.
    + apply List.Forall_forall. intros n Hn.
      destruct (In_insert _ _ _ _ _ Hi Hn) as [-> | Hn'];
        [rewrite Hid |]; auto.
    + rewrite (map_ID_insert _ _ _ _ Hi Hid). exact Hdup.
    + apply List.Forall_forall. intros n Hn.
      destruct (In_insert _ _ _ _ _ Hi Hn) as [-> | Hn'];
        [rewrite Hid |]; auto.
    + eapply data_model_insert; eassumption.
    + intros n' Hn. destruct (In_insert _ _ _ _ _ Hi Hn) as [-> | Hn']; [| auto].
      left. exists x. auto.
  - rewrite List.Forall_forall in Habove, Hpos.
    splits; auto; try lia.
    + apply List.Forall_forall. intros n Hn. apply Habove, (In_without _ i), Hn.
    + eapply sublist_NoDup; [exact Hdup |].
      rewrite map_app, <- firstn_map, <- skipn_map. apply without_sublist.
    + apply List.Forall_forall. intros n Hn. apply Hpos, (In_without _ i), Hn.
    + intros n Hn. apply Hdata, (In_without _ i), Hn.
    + intros n' Hn. apply Hold, (In_without _ i), Hn.
Qed.

Lemma descends_refl (a : NotesApp) : descends a a.
Proof. intros n' H. left. exists n'. auto. Qed.

Lemma descends_trans (a a1 a2 : NotesApp) :
  NextID a <= NextID a1 -> descends a a1 -> descends a1 a2 -> descends a a2.
Proof.
  intros Hle H1 H2 n2 Hin. destruct (H2 n2 Hin) as [[n1 [Hin1 [Hid [Hk Hc]]]] | Hnew].
  - destruct (H1 n1 Hin1) as [[n [Hin0 [Hid0 [Hk0 Hc0]]]] | Hnew].
    + left. exists n. splits; auto; congruence.
    + right. lia.
  - right. lia.
Qed.

Lemma Run_loop_sound (h : Host) (fuel : nat) (a : NotesApp) (w : World) :
  sound a -> NextID a + Z.of_nat fuel <= max_int ->
  sound (app_after (Run_loop h fuel) a w)
  /\ NextID a <= NextID (app_after (Run_loop h fuel) a w) <= NextID a + Z.of_nat fuel
  /\ NotesDir (app_after (Run_loop h fuel) a w) = NotesDir a
  /\ ConfigFile (app_after (Run_loop h fuel) a w) = ConfigFile a
  /\ descends a (app_after (Run_loop h fuel) a w).
Proof.
  unfold app_after. revert a w. induction fuel as [|fuel IH]; intros a w Hs Hmax.
  - cbn [Run_loop]. rewrite ret_run. cbn [fst snd]. splits; auto; try lia.
    apply descends_refl.
  - rewrite Run_loop_S.
    destruct (Run_command_ok h a w) as [Hc _]. cbn [fst] in Hc.
    destruct (Run_command h (a, w)) as [r [a1 w1]]. cbn [fst snd] in *.
    destruct (change_sound a a1 Hs ltac:(lia) Hc) as (Hs1 & Hn1 & Hd1 & Hf1 & Hl1).
    destruct r as [e|]; cbn [fst snd].
    + splits; auto; lia.
    + destruct (IH a1 w1 Hs1 ltac:(lia)) as (Hs2 & Hn2 & Hd2 & Hf2 & Hl2).
      splits; auto; try lia; try congruence.
      apply (descends_trans a a1); auto; lia.
Qed.

(** ** The host is left as it is *)































(** ** A new start after any turn *)









(** X25: whatever is typed, one turn of the loop leaves the store as it
    was, or appends one note whose ID is the counter (which then moves by
    one), or reorders the notes, or puts in the place of one note a note
    with the same ID, kind and creation time (and the same content unless
    it is a text note), or removes one note.  The counter moves with a new
    note only, the two paths never. *)
Theorem a_turn_changes_the_store_in_five_ways (h : Host) (a : NotesApp) (w : World) :
  change a (app_after (Run_command h) a w).
Proof. apply (Run_command_ok h a w). Qed.

(** X26: on a disk that can be written, after any turn of the loop the
    document of the store as it now is lies at the path of the store, or
    else the store differs from the one before the turn by the order of
    its notes at most and no file outside the directory of images was
    touched. *)
Theorem no_change_goes_unsaved (h : Host) (a : NotesApp) (w : World) :
  writable w = true ->
  kept_or_saved a w (app_after (Run_command h) a w) (world_after (Run_command h) a w).
Proof. intros Hw. apply (Run_command_ok h a w). exact Hw. Qed.

Lemma no_change_goes_unsaved_witness :
  writable (Demo.typed ["archive"] Demo.world1) = true
  /\ kept_or_saved Demo.app1 (Demo.typed ["archive"] Demo.world1)
       (app_after (Run_command Session.host) Demo.app1
          (Demo.typed ["archive"] Demo.world1))
       (world_after (Run_command Session.host) Demo.app1
          (Demo.typed ["archive"] Demo.world1)).
Proof.
  assert (Hw : writable (Demo.typed ["archive"] Demo.world1) = true) by reflexivity.
  exact (conj Hw (no_change_goes_unsaved Session.host Demo.app1
                    (Demo.typed ["archive"] Demo.world1) Hw)).
Defined.

Lemma fresh_sound (w : World) : sound (freshApp w).
Proof.
  unfold sound, counter_above_ids. cbn [Notes NextID freshApp].
  splits; first [ apply data_model_nil | lia | constructor ].
Qed.

Lemma Run_loop_after (h : Host) (fuel : nat) (a : NotesApp) (w : World) :
  exists w1, snd (Run h fuel (a, w)) = snd (Run_loop h fuel (a, w1)).
Proof.
  unfold Run. do 3 mstep2. erewrite bind_pair by (apply ShowHelp_run).
  eexists. reflexivity.
Qed.

(** X27: a session started where no document is, after any number of turns
    (below the largest [int]): the IDs of the store are positive, differ
    from one another and are below the counter, notes that are not text
    notes have no content, the counter is at most one more than the number
    of turns, and the document path is the standard one. *)
Theorem session_keeps_ids_unique (h : Host) (fuel : nat) (w : World) :
  disk w !! configPath w = None ->
  Z.of_nat fuel < max_int ->
  let a' := fst (snd (main h fuel w)) in
  sound a' /\ 1 <= NextID a' <= 1 + Z.of_nat fuel
  /\ ConfigFile a' = configPath w.
Proof.
  intros Hd Hfuel a'. subst a'. unfold main. rewrite (NewNotesApp_missing w Hd).
  destruct (Run_loop_after h fuel (freshApp w) w) as [w1 ->].
  destruct (Run_loop_sound h fuel (freshApp w) w1 (fresh_sound w))
    as (Hs & Hn & _ & Hc & _).
  { cbn [NextID freshApp]. lia. }
  unfold app_after in *. cbn [NextID freshApp] in Hn. splits; auto; lia.
Qed.

(** The first session: of the two notes inscribed the retitled one is
    left, the counter is at 3 and all input was read. *)
Example first_session :
  fst (snd (main Session.host 5 Session.first))
  = mkApp [mkNote 1 "Gate" "4471" ["security"; "door"] 1000 1004 "text"
                  EmptyString EmptyString]
          3 "/home/conan/scrolls-of-skelos"
          "/home/conan/scrolls-of-skelos/scrolls.json"
  /\ stdin (snd (snd (main Session.host 5 Session.first))) = []
  /\ fst (main Session.host 5 Session.first) = None.
Proof. splits; vm_compute; reflexivity. Qed.

Lemma session_keeps_ids_unique_witness :
  disk Session.first !! configPath Session.first = None
  /\ Z.of_nat 5 < max_int
  /\ sound (fst (snd (main Session.host 5 Session.first)))
  /\ 1 <= NextID (fst (snd (main Session.host 5 Session.first))) <= 1 + Z.of_nat 5.
Proof.
  assert (Hd : disk Session.first !! configPath Session.first = None)
    by (vm_compute; reflexivity).
  assert (Hf : Z.of_nat 5 < max_int) by (vm_compute; reflexivity).
  split; [exact Hd | split; [exact Hf |]].
  destruct (session_keeps_ids_unique Session.host 5 Session.first Hd Hf)
    as [H1 [H2 _]].
  exact (conj H1 H2).
Defined.



(** The later session: the text note is modified and keeps its ID, kind
    and creation time, the image note and its file are gone, the new note
    has the ID 3; a new start then finds that store. *)
Example later_session :
  app_after (Run_loop Session.host 3) Demo.app2 Session.later
  = mkApp [mkNote 1 "Gate" "4471" ["door"] 1000 1005 "text" EmptyString EmptyString;
           mkNote 3 "École" "130 élèves" [] 1006 1007 "text" EmptyString
                  EmptyString]
          4 "/home/conan/scrolls-of-skelos"
          "/home/conan/scrolls-of-skelos/scrolls.json"
  /\ disk (world_after (Run_loop Session.host 3) Demo.app2 Session.later)
       !! FilePath Demo.chart = None
  /\ fst (NewNotesApp (world_after (Run_loop Session.host 3) Demo.app2
                         Session.later))
     = app_after (Run_loop Session.host 3) Demo.app2 Session.later.
Proof. splits; vm_compute; reflexivity. Qed.



